(** * InferiaLLM DePIN sidecar (Nosana module): a shallow embedding

    Source files embedded here:
    - [modules/nosana/nosana_service.ts]: [retry], [NosanaService]
      (delegated signing, launch, confidential handoff, balance, watch loop);
    - [modules/nosana/nosana_logs.ts]: [LogStreamer].

    Effects are explicit.  Every interaction of the service with the outside
    (the clock, timers, [fetch], the Nosana SDK client) is an [ExtCall]
    answered by a [Host]; a run threads a [World] holding the host state,
    the service fields and the chronological trace of what the code did. *)

From Stdlib Require Import ZArith String Ascii List Bool Lia Floats.
From stdpp Require Import gmap strings list pretty.
Import ListNotations.
Set Warnings "-register-all".
Local Open Scope string_scope.
Local Open Scope list_scope.
Local Open Scope Z_scope.

(** ** JavaScript values *)

(** Values of type [any] that travel as JSON (job definitions, request
    bodies).  Objects are finite maps: the order of keys is not modelled. *)
Inductive json : Type :=
| JNull
| JBool (b : bool)
| JNum (n : float)
| JStr (s : string)
| JArr (items : list json)
| JObj (fields : gmap string json).

(** A JavaScript value that may be [undefined] ([None]). *)
Definition jsval : Type := option json.

(** ToBoolean: [undefined], [null], [false], [0], [NaN] and [""] are falsy. *)
Definition truthy (v : jsval) : bool :=
  match v with
  | None => false
  | Some JNull => false
  | Some (JBool b) => b
  | Some (JNum n) => negb (PrimFloat.eqb n 0%float || PrimFloat.is_nan n)
  | Some (JStr s) => negb (String.eqb s "")
  | Some (JArr _) => true
  | Some (JObj _) => true
  end.

(** [v === s] for a string literal [s]. *)
Definition strict_eq_str (v : jsval) (s : string) : bool :=
  match v with
  | Some (JStr t) => String.eqb t s
  | _ => false
  end.

(** [a || b] on values. *)
Definition js_or (a b : jsval) : jsval := if truthy a then a else b.

(** What a thrown value shows to the code that catches it: the handlers of
    this module read only [error.message] and [e.status]. *)
Record JsError : Type := { message : option string; status : option Z }.

(** [new Error(msg)] *)
Definition Error (msg : string) : JsError := {| message := Some msg; status := None |}.

Inductive Result (A : Type) : Type :=
| Ok (a : A)
| Throw (e : JsError).
Arguments Ok {A} a.
Arguments Throw {A} e.

Definition TypeError_reading (k : string) : JsError :=
  Error ("Cannot read properties of undefined (reading '" +:+ k +:+ "')").

(** Property read [v.k].  Reading a property of [undefined] or [null] throws;
    an object answers from its fields; the other values have none of the
    property names this module reads. *)
Definition prop (k : string) (v : jsval) : Result jsval :=
  match v with
  | None => Throw (TypeError_reading k)
  | Some JNull => Throw (TypeError_reading k)
  | Some (JObj fs) => Ok (fs !! k)
  | Some _ => Ok None
  end.

(** Own enumerable properties copied by an object spread [{...v}]. *)
Definition spread (v : jsval) : gmap string json :=
  match v with
  | Some (JObj fs) => fs
  | Some (JArr l) => list_to_map (imap (fun i x => (pretty i, x)) l)
  | Some (JStr s) =>
      list_to_map (imap (fun i c => (pretty i, JStr (String c EmptyString))) (list_ascii_of_string s))
  | _ => ∅
  end.

(** An object literal lists its properties; one whose value is [undefined]
    is dropped when the object is serialised. *)
Definition obj (fs : list (string * jsval)) : json :=
  JObj (list_to_map (omap (fun '(k, v) => match v with Some j => Some (k, j) | None => None end) (rev fs))).

(** [s.includes(needle)] *)
Fixpoint includes (needle s : string) : bool :=
  String.prefix needle s ||
  match s with
  | EmptyString => false
  | String _ rest => includes needle rest
  end.

(** [a || b] where [a] is a string or [undefined]. *)
Definition str_or (a : option string) (b : string) : string :=
  match a with
  | Some s => if String.eqb s "" then b else s
  | None => b
  end.

(** A number of the code that is an integer, as a JSON number. *)
Definition jnum (z : Z) : json :=
  JNum (if z <? 0 then PrimFloat.opp (PrimFloat.of_uint63 (Uint63.of_Z (- z)))
        else PrimFloat.of_uint63 (Uint63.of_Z z)).

Definition jstr_opt (s : option string) : jsval := option_map JStr s.

(** ** HTTP and SDK data *)

(** Body of [POST {orchestratorUrl}/inventory/heartbeat]. *)
Record Heartbeat : Type := {
  provider : string;
  provider_instance_id : string;
  old_provider_instance_id : option string;
  hb_gpu_allocated : Z;
  hb_vcpu_allocated : Z;
  hb_ram_gb_allocated : Z;
  health_score : Z;
  hb_state : string;
  expose_url : option string
}.

(** Body of [POST {filtrationUrl}/audit/internal/log]. *)
Record AuditPayload : Type := {
  action : string;
  resource_type : string;
  resource_id : string;
  details : json;
  audit_status : string
}.

(** What [JSON.stringify] is applied to; the serialisation itself is not
    modelled. *)
Inductive Body : Type :=
| JsonBody (j : json)
| HeartbeatBody (p : Heartbeat)
| AuditBody (p : AuditPayload).

Record HttpRequest : Type := {
  url : string;
  method : string;
  headers : list (string * string);
  body : option Body
}.

Record HttpResponse (B : Type) : Type := {
  resp_status : Z;
  resp_text : string;           (* response.text() *)
  resp_json : Result B          (* response.json() *)
}.
Arguments resp_status {B} _.
Arguments resp_text {B} _.
Arguments resp_json {B} _.

(** [response.ok]: the status is in the range 200-299. *)
Definition resp_ok {B} (r : HttpResponse B) : bool :=
  (200 <=? resp_status r) && (resp_status r <=? 299).

(** Reply of [POST /auth/sign-message/external]. *)
Record SignReply : Type := { signature : string; sr_message : string; userAddress : string }.

Record Credits : Type := { costUSD : float; creditsUsed : float; reservationId : string }.

(** Reply of [POST /jobs/list] and of [POST /jobs/{addr}/extend]. *)
Record JobTxReply : Type := { tx : string; job : string; credits : Credits }.

(** Reply of [GET /credits/balance]. *)
Record BalanceReply : Type := {
  assignedCredits : float;
  reservedCredits : float;
  settledCredits : float
}.

(** The body type a call site gives to [apiRequest<T>] / expects of [fetch]. *)
Inductive BodyTy : Type := BSign | BJobTx | BBalance | BAny.

Definition El (t : BodyTy) : Type :=
  match t with
  | BSign => SignReply
  | BJobTx => JobTxReply
  | BBalance => BalanceReply
  | BAny => json
  end.

(** A job account as [client.jobs.get] returns it.  [JobState] is the
    SDK's enum; the code compares a state both with its members and with
    the numbers 1, 2, 3, 4, so a state is a number here and the members are
    the numbers the code pairs them with. *)
Record Job : Type := {
  job_address : string;
  job_state : Z;
  job_node : string;
  job_project : string;
  job_price : Z;
  job_ipfsJob : option string;
  job_ipfsResult : option string
}.

Module JobState.
Definition QUEUED : Z := 0.
Definition RUNNING : Z := 1.
Definition COMPLETED : Z := 2.
Definition STOPPED : Z := 3.
End JobState.

Record Account : Type := { acc_address : string }.
Record Instruction : Type := { accounts : option (list Account) }.

Record Deployment : Type := { dep_uuid : option string; dep_id : option string }.
Record DeploymentJob : Type := {
  dj_address : option string;
  dj_job : string;
  dj_ipfs_job : option string
}.
Record DeploymentStatus : Type := { dep_jobs : option (list DeploymentJob) }.

Record ExposedService : Type := { svc_hash : string }.

Record DeploymentParams : Type := {
  dp_name : string;
  dp_market : string;
  dp_job_definition : json;
  dp_replicas : Z;
  dp_timeout : Z;
  dp_strategy : Z
}.

(** ** The outside world *)

Inductive ExtCall : Type :=
| DateNow
| SetTimeout (ms : Z)                                   (* await of a timer *)
| Fetch (t : BodyTy) (req : HttpRequest)
| Address (s : string)                                  (* address() of @solana/kit *)
| IpfsPin (definition : json)
| IpfsRetrieve (hash : string)
| JobsGet (addr : string)
| JobsPost (ipfsHash market : string) (timeout : Z)
| JobsExtend (addr : string) (timeout : Z)
| BuildSignAndSend (instruction : Instruction)
| DeploymentsCreate (params : DeploymentParams)
| DeploymentsGet (uuid : option string)
| CreditsBalance                                        (* client.api.credits.balance() *)
| SolBalance
| NosBalance
| GenerateHeaders (hash : string)
| GetJobExposedServices (definition : json) (addr : string).

Definition RespTy (c : ExtCall) : Type :=
  match c with
  | DateNow => Z
  | SetTimeout _ => unit
  | Fetch t _ => Result (HttpResponse (El t))
  | Address _ => Result string
  | IpfsPin _ => Result string
  | IpfsRetrieve _ => Result jsval
  | JobsGet _ => Result Job
  | JobsPost _ _ _ => Result Instruction
  | JobsExtend _ _ => Result Instruction
  | BuildSignAndSend _ => Result string
  | DeploymentsCreate _ => Result Deployment
  | DeploymentsGet _ => Result DeploymentStatus
  | CreditsBalance => Result jsval
  | SolBalance => Result Z
  | NosBalance => Result Z
  | GenerateHeaders _ => Result (list (string * string))
  | GetJobExposedServices _ _ => Result (option (list ExposedService))
  end.

(** Work started and not awaited: it proceeds on its own. *)
Inductive Task : Type :=
| HandoffTask (jobAddress : string) (realJobDefinition : json)
              (dummyIpfsHash : string) (deploymentUuid : option string)
| WatchLoopTask (jobAddress orchestratorUrl : string).

Inductive Level : Type := Warn | Err.

(** What [launchJob] returns. *)
Record LaunchResult : Type := {
  lr_status : string;
  lr_jobAddress : string;
  lr_deploymentUuid : option string;
  lr_ipfsHash : string
}.

Inductive Event : Type :=
| Ext (c : ExtCall) (r : RespTy c)                 (* an external call and its answer *)
| Console (l : Level) (tag : string) (e : option JsError)
                                                   (* console.warn / console.error *)
| Spawn (t : Task)
| CallLaunchJob (jobDefinition : json) (marketAddress : string) (isConfidential : bool)
                                                   (* entry of launchJob *)
| LaunchJobReturned (result : Result LaunchResult).
                                                   (* its return or its throw *)

(** ** Service state *)

Inductive AuthMode : Type := WalletMode | ApiMode.

Record Resources : Type := {
  gpu_allocated : Z;
  vcpu_allocated : Z;
  ram_gb_allocated : Z
}.

Record WatchedJobInfo : Type := {
  jobAddress : string;
  deploymentUuid : option string;
  startTime : Z;
  lastExtendTime : Z;
  jobDefinition : json;
  marketAddress : string;
  isConfidential : bool;
  resources : Resources;
  userStopped : bool;
  serviceUrl : option string
}.

Record CachedAuth : Type := {
  ca_signature : string;
  ca_message : string;
  ca_userAddress : string;
  ca_timestamp : Z
}.

Record Service : Type := {
  privateKey : option string;
  apiKey : option string;
  authMode : AuthMode;
  wallet : option string;                       (* client.wallet, by its address *)
  watchedJobs : gmap string WatchedJobInfo;
  cachedApiAuth : option CachedAuth
}.

Definition JOB_TIMEOUT_MS : Z := 30 * 60 * 1000.
Definition EXTEND_THRESHOLD_MS : Z := 5 * 60 * 1000.
Definition EXTEND_DURATION_SECS : Z := 1800.
Definition MIN_RUNTIME_FOR_REDEPLOY_MS : Z := 20 * 60 * 1000.
Definition SIGN_MESSAGE : string := "Hello Nosana Node!".
Definition API_AUTH_CACHE_TTL_MS : Z := 5 * 60 * 1000.

(** The host: the state of everything outside the service, how it answers
    each call, the process environment, and the runtime's
    [Number::toString] (used by [toFixed] from 1e21 on). *)
Class Host : Type := {
  Env : Type;
  respond : forall c : ExtCall, Env -> RespTy c * Env;
  process_env : string -> option string;
  Number_toString : float -> string
}.

Section Model.
Context `{Host}.

Record World : Type := { env : Env; trace : list Event; svc : Service }.

Definition M (A : Type) : Type := World -> Result A * World.

Definition ret {A} (a : A) : M A := fun w => (Ok a, w).

Definition throw {A} (e : JsError) : M A := fun w => (Throw e, w).

Definition bind {A B} (m : M A) (k : A -> M B) : M B :=
  fun w =>
    match m w with
    | (Ok a, w1) => k a w1
    | (Throw e, w1) => (Throw e, w1)
    end.

(** [try { m } catch (e) { h e }] *)
Definition try_catch {A} (m : M A) (h : JsError -> M A) : M A :=
  fun w =>
    match m w with
    | (Ok a, w1) => (Ok a, w1)
    | (Throw e, w1) => h e w1
    end.

Definition lift {A} (r : Result A) : M A := fun w => (r, w).

Definition emit (ev : Event) : M unit :=
  fun w => (Ok tt, {| env := env w; trace := trace w ++ [ev]; svc := svc w |}).

(** One external call: the host answers and moves on, the trace records it. *)
Definition ext (c : ExtCall) : World -> RespTy c * World :=
  fun w =>
    let '(r, e1) := respond c (env w) in
    (r, {| env := e1; trace := trace w ++ [Ext c r]; svc := svc w |}).

Definition ext_ok (c : ExtCall) : M (RespTy c) :=
  fun w => let '(r, w1) := ext c w in (Ok r, w1).

(** [m], and a note of how it ended. *)
Definition noting {A} (m : M A) (note : Result A -> Event) : M A :=
  fun w =>
    let '(r, w1) := m w in
    (r, {| env := env w1; trace := trace w1 ++ [note r]; svc := svc w1 |}).

Definition get_svc : M Service := fun w => (Ok (svc w), w).

Definition put_svc (s : Service) : M unit :=
  fun w => (Ok tt, {| env := env w; trace := trace w; svc := s |}).

End Model.

Notation "'let*' x ':=' m 'in' k" := (bind m (fun x => k))
  (at level 10, x pattern, m at level 200, k at level 200).
Notation "'do' m 'then' k" := (bind m (fun _ => k))
  (at level 10, m at level 200, k at level 200).

Section Calls.
Context `{Host}.

Definition Date_now : M Z := ext_ok DateNow.
Definition sleep (ms : Z) : M unit := ext_ok (SetTimeout ms).
Definition fetch (t : BodyTy) (req : HttpRequest) : M (HttpResponse (El t)) := ext (Fetch t req).
Definition address (s : string) : M string := ext (Address s).
Definition ipfs_pin (d : json) : M string := ext (IpfsPin d).
Definition ipfs_retrieve (h : string) : M jsval := ext (IpfsRetrieve h).
Definition jobs_get (addr : string) : M Job := ext (JobsGet addr).
Definition jobs_post (ipfsHash market : string) (timeout : Z) : M Instruction :=
  ext (JobsPost ipfsHash market timeout).
Definition jobs_extend (addr : string) (timeout : Z) : M Instruction := ext (JobsExtend addr timeout).
Definition buildSignAndSend (i : Instruction) : M string := ext (BuildSignAndSend i).
Definition deployments_create (p : DeploymentParams) : M Deployment := ext (DeploymentsCreate p).
Definition deployments_get (u : option string) : M DeploymentStatus := ext (DeploymentsGet u).
Definition credits_balance : M jsval := ext CreditsBalance.
Definition generateHeaders (h : string) : M (list (string * string)) := ext (GenerateHeaders h).
Definition getJobExposedServices (d : json) (addr : string) : M (option (list ExposedService)) :=
  ext (GetJobExposedServices d addr).

Definition console_warn (tag : string) (e : option JsError) : M unit := emit (Console Warn tag e).
Definition console_error (tag : string) (e : option JsError) : M unit := emit (Console Err tag e).

(** ** [retry] *)

(** [error.message || ""] *)
Definition errorMsg_of (error : JsError) : string :=
  match message error with
  | Some m => m
  | None => ""
  end.

Definition rate_limited (error : JsError) : bool :=
  includes "429" (errorMsg_of error) || includes "Too Many Requests" (errorMsg_of error).

(** [async function retry<T>(fn, retries = 5, delay = 500)] *)
Fixpoint retry {T} (fn : M T) (retries : nat) (delay : Z) : M T :=
  try_catch fn (fun error =>
    match retries with
    | S retries' =>
        if rate_limited error
        then do sleep delay then retry fn retries' (delay * 2)
        else throw error
    | O => throw error
    end).

Definition retry_default {T} (fn : M T) : M T := retry fn 5 500.

End Calls.

(** ** [NosanaService]: requests and delegated signing *)

Definition with_cachedApiAuth (c : option CachedAuth) (s : Service) : Service :=
  {| privateKey := privateKey s; apiKey := apiKey s; authMode := authMode s;
     wallet := wallet s; watchedJobs := watchedJobs s; cachedApiAuth := c |}.

Definition with_watchedJobs (m : gmap string WatchedJobInfo) (s : Service) : Service :=
  {| privateKey := privateKey s; apiKey := apiKey s; authMode := authMode s;
     wallet := wallet s; watchedJobs := m; cachedApiAuth := cachedApiAuth s |}.

(** Field assignments on a registry entry. *)
Definition set_userStopped (b : bool) (i : WatchedJobInfo) : WatchedJobInfo :=
  {| jobAddress := jobAddress i; deploymentUuid := deploymentUuid i;
     startTime := startTime i; lastExtendTime := lastExtendTime i;
     jobDefinition := jobDefinition i; marketAddress := marketAddress i;
     isConfidential := isConfidential i; resources := resources i;
     userStopped := b; serviceUrl := serviceUrl i |}.

Definition set_lastExtendTime (t : Z) (i : WatchedJobInfo) : WatchedJobInfo :=
  {| jobAddress := jobAddress i; deploymentUuid := deploymentUuid i;
     startTime := startTime i; lastExtendTime := t;
     jobDefinition := jobDefinition i; marketAddress := marketAddress i;
     isConfidential := isConfidential i; resources := resources i;
     userStopped := userStopped i; serviceUrl := serviceUrl i |}.

Definition set_serviceUrl (u : string) (i : WatchedJobInfo) : WatchedJobInfo :=
  {| jobAddress := jobAddress i; deploymentUuid := deploymentUuid i;
     startTime := startTime i; lastExtendTime := lastExtendTime i;
     jobDefinition := jobDefinition i; marketAddress := marketAddress i;
     isConfidential := isConfidential i; resources := resources i;
     userStopped := userStopped i; serviceUrl := Some u |}.

(** [new NosanaService(options)]: the mode is chosen from the API key. *)
Definition new_service (privateKey apiKey : option string) : Service :=
  {| privateKey := privateKey; apiKey := apiKey;
     authMode := if truthy (jstr_opt apiKey) then ApiMode else WalletMode;
     wallet := None; watchedJobs := ∅; cachedApiAuth := None |}.

(** [`${error.message}`] *)
Definition message_text (error : JsError) : string :=
  match message error with
  | Some m => m
  | None => "undefined"
  end.

Section Service.
Context `{Host}.

Definition modify_svc (f : Service -> Service) : M unit :=
  fun w => (Ok tt, {| env := env w; trace := trace w; svc := f (svc w) |}).

Definition NOSANA_API_BASE_URL : string :=
  str_or (process_env "NOSANA_API_URL") "https://dashboard.k8s.prd.nos.ci/api".

Definition getApiAuthHeader : M string :=
  let* s := get_svc in
  if truthy (jstr_opt (apiKey s))
  then ret ("Bearer " +:+ default "" (apiKey s))
  else throw (Error "API key not configured").

(** [apiRequest<T>(path, { method, body })]; no call site passes headers. *)
Definition apiRequest (t : BodyTy) (path method : string) (body : option Body) : M (El t) :=
  let url := NOSANA_API_BASE_URL +:+ path in
  let* auth := getApiAuthHeader in
  let* response :=
    fetch t {| url := url; method := method;
               headers := [("Content-Type", "application/json"); ("Authorization", auth)];
               body := if negb (String.eqb method "GET") then body else None |} in
  if negb (resp_ok response)
  then throw (Error ("Nosana API Error (" +:+ pretty (resp_status response) +:+ "): "
                     +:+ resp_text response))
  else lift (resp_json response).

Definition sign_request (message : string) (now : Z) : M SignReply :=
  let* result :=
    apiRequest BSign "/auth/sign-message/external" "POST"
               (Some (JsonBody (obj [("message", Some (JStr message))]))) in
  do modify_svc (with_cachedApiAuth
       (Some {| ca_signature := signature result; ca_message := sr_message result;
                ca_userAddress := userAddress result; ca_timestamp := now |})) then
  ret result.

Definition signMessageExternal (message : string) : M SignReply :=
  let* s := get_svc in
  match authMode s with
  | WalletMode => throw (Error "signMessageExternal is only available in API mode")
  | ApiMode =>
      let* now := Date_now in
      let* s := get_svc in
      match cachedApiAuth s with
      | Some c =>
          if String.eqb (ca_message c) message && (now - ca_timestamp c <? API_AUTH_CACHE_TTL_MS)
          then ret {| signature := ca_signature c; sr_message := ca_message c;
                      userAddress := ca_userAddress c |}
          else sign_request message now
      | None => sign_request message now
      end
  end.

(** Returns [(header, userAddress)]. *)
Definition generateApiNodeAuthHeader : M (string * string) :=
  let* auth := signMessageExternal SIGN_MESSAGE in
  ret (sr_message auth +:+ ":" +:+ signature auth, userAddress auth).

Definition markJobAsStopping (jobAddress : string) : M unit :=
  let* s := get_svc in
  match watchedJobs s !! jobAddress with
  | Some jobInfo =>
      modify_svc (with_watchedJobs (<[jobAddress := set_userStopped true jobInfo]> (watchedJobs s)))
  | None => ret tt
  end.

(** [sendAuditLog({ action, jobAddress, details, status })].  No caller
    awaits it; its request is issued where it is called. *)
Definition sendAuditLog (action jobAddress : string) (details : option json)
    (status : option string) : M unit :=
  let filtrationUrl := str_or (process_env "FILTRATION_URL") "http://localhost:8000" in
  let payload :=
    {| action := action; resource_type := "job"; resource_id := jobAddress;
       details := default (JObj ∅) details; audit_status := str_or status "success" |} in
  try_catch
    (do fetch BAny {| url := filtrationUrl +:+ "/audit/internal/log"; method := "POST";
                      headers := [("Content-Type", "application/json");
                                  ("X-Internal-API-Key",
                                   str_or (process_env "INTERNAL_API_KEY") "dev-internal-key")];
                      body := Some (AuditBody payload) |}
     then ret tt)
    (fun err => console_error "[audit] Failed to send audit log" (Some err)).

End Service.

(** ** [launchJob] *)

(** [e && e.type === 'api'] for a logistics entry [e]. *)
Definition is_api_entry (e : jsval) : bool :=
  truthy e &&
  match prop "type" e with
  | Ok t => strict_eq_str t "api"
  | Throw _ => false
  end.

Definition api_listen : json := obj [("type", Some (JStr "api-listen")); ("args", Some (JObj ∅))].

(** The dummy definition [launchJob] prepares in confidential mode
    ([definitionToPin]).  Reading a property of a [null] definition throws. *)
Definition dummy_definition (jobDefinition : json) : Result json :=
  match prop "version" (Some jobDefinition), prop "type" (Some jobDefinition),
        prop "meta" (Some jobDefinition), prop "logistics" (Some jobDefinition) with
  | Ok version, Ok type, Ok meta, Ok logistics =>
      let send :=
        if truthy logistics then
          match prop "send" logistics with
          | Ok s => if is_api_entry s then s else Some api_listen
          | Throw _ => Some api_listen
          end
        else Some api_listen in
      let receive :=
        if truthy logistics then
          match prop "receive" logistics with
          | Ok r => if is_api_entry r then r else Some api_listen
          | Throw _ => Some api_listen
          end
        else Some api_listen in
      Ok (obj [("version", js_or version (Some (JStr "0.1")));
               ("type", js_or type (Some (JStr "container")));
               ("meta", Some (JObj (<["trigger" := JStr "cli"]> (spread meta))));
               ("logistics", Some (obj [("send", send); ("receive", receive)]));
               ("ops", Some (JArr []))])
  | Throw e, _, _, _ => Throw e
  | _, Throw e, _, _ => Throw e
  | _, _, Throw e, _ => Throw e
  | _, _, _, Throw e => Throw e
  end.

Section Launch.
Context `{Host}.

(** The bridge loop of the SDK fallback: [while (attempts < 30)]. *)
Fixpoint poll_job_address (attempts : nat) (deploymentUuid : option string)
    (jobAddress ipfsHash : string) : M (string * string) :=
  match attempts with
  | O => ret (jobAddress, ipfsHash)
  | S attempts' =>
      let* status := deployments_get deploymentUuid in
      match default [] (dep_jobs status) with
      | j :: _ =>
          ret (str_or (dj_address j) (dj_job j), str_or (dj_ipfs_job j) ipfsHash)
      | [] =>
          do sleep 2000 then
          poll_job_address attempts' deploymentUuid jobAddress ipfsHash
      end
  end.

(** API mode: pin, then [POST /jobs/list]; on failure the SDK deployments
    API.  Returns [(jobAddress, deploymentUuid, ipfsHash)]. *)
Definition launch_api (definitionToPin : json) (marketAddress : string)
    : M (string * option string * string) :=
  let* ipfsHash := ipfs_pin definitionToPin in
  try_catch
    (let* jobListResult :=
       apiRequest BJobTx "/jobs/list" "POST"
         (Some (JsonBody (obj [("ipfsHash", Some (JStr ipfsHash));
                               ("market", Some (JStr marketAddress))]))) in
     ret (job jobListResult, None, ipfsHash))
    (fun apiError =>
       do console_warn "[Launch] Direct API failed" (Some apiError) then
       let* now := Date_now in
       let* deployment :=
         deployments_create
           {| dp_name := "inferia-" +:+ pretty now; dp_market := marketAddress;
              dp_job_definition := definitionToPin; dp_replicas := 1;
              dp_timeout := 3600; dp_strategy := 1 |} in
       let deploymentUuid :=
         if truthy (jstr_opt (dep_uuid deployment)) then dep_uuid deployment
         else dep_id deployment in
       let* (jobAddress, ipfsHash') :=
         poll_job_address 30 deploymentUuid "unknown" ipfsHash in
       if String.eqb jobAddress "unknown"
       then throw (Error "Timeout waiting for Job Address from Nosana API")
       else ret (jobAddress, deploymentUuid, ipfsHash')).

(** Wallet mode: pin, list on the market, sign and send. *)
Definition launch_wallet (definitionToPin : json) (marketAddress : string)
    : M (string * option string * string) :=
  let* ipfsHash := ipfs_pin definitionToPin in
  let* market := address marketAddress in
  let* instruction := jobs_post ipfsHash market 1800 in
  let jobAddress :=
    match accounts instruction with
    | Some (a :: _) => acc_address a
    | _ => "unknown"
    end in
  let* _ := buildSignAndSend instruction in
  ret (jobAddress, None, ipfsHash).

(** The body of [launchJob]: its [try] and its [catch]. *)
Definition launch_body (jobDefinition : json) (marketAddress : string) (isConfidential : bool)
    : M LaunchResult :=
  try_catch
    (let* definitionToPin :=
       if isConfidential then lift (dummy_definition jobDefinition) else ret jobDefinition in
     let* s := get_svc in
     let* (jobAddress, deploymentUuid, ipfsHash) :=
       match authMode s with
       | ApiMode => launch_api definitionToPin marketAddress
       | WalletMode => launch_wallet definitionToPin marketAddress
       end in
     do (if isConfidential
         then emit (Spawn (HandoffTask jobAddress jobDefinition ipfsHash deploymentUuid))
         else ret tt) then
     do sendAuditLog "JOB_LAUNCHED" jobAddress
          (Some (obj [("ipfsHash", Some (JStr ipfsHash));
                      ("marketAddress", Some (JStr marketAddress));
                      ("isConfidential", Some (JBool isConfidential));
                      ("authMode", Some (JStr match authMode s with
                                               | ApiMode => "api"
                                               | WalletMode => "wallet"
                                               end));
                      ("deploymentUuid", jstr_opt deploymentUuid)]))
          None then
     ret {| lr_status := "success"; lr_jobAddress := jobAddress;
            lr_deploymentUuid := deploymentUuid; lr_ipfsHash := ipfsHash |})
    (fun error =>
       do console_error "Launch Error:" (Some error) then
       throw (Error ("Nosana SDK Error: " +:+ message_text error))).

Definition launchJob (jobDefinition : json) (marketAddress : string) (isConfidential : bool)
    : M LaunchResult :=
  do emit (CallLaunchJob jobDefinition marketAddress isConfidential) then
  noting (launch_body jobDefinition marketAddress isConfidential) LaunchJobReturned.

End Launch.

(** ** [waitForRunningAndSendDefinition]: the confidential handoff *)

(** [job.state === JobState.RUNNING || job.state === 1] *)
Definition is_running (st : Z) : bool := (st =? JobState.RUNNING) || (st =? 1).

(** [job.state === JobState.COMPLETED || job.state === JobState.STOPPED] *)
Definition has_ended (st : Z) : bool := (st =? JobState.COMPLETED) || (st =? JobState.STOPPED).

(** [headers[k] = v] on a plain object of headers. *)
Fixpoint hdr_set (k v : string) (hs : list (string * string)) : list (string * string) :=
  match hs with
  | [] => [(k, v)]
  | (k', v') :: rest => if String.eqb k' k then (k, v) :: rest else (k', v') :: hdr_set k v rest
  end.

(** [e.status >= 400 && e.status < 500] *)
Definition is_4xx (e : JsError) : bool :=
  match status e with
  | Some st => (400 <=? st) && (st <? 500)
  | None => false
  end.

(** How the polling loop is left: [break], [return], or its bound. *)
Inductive PollExit : Type := PollBreak | PollReturn | PollExhausted.

Section Handoff.
Context `{Host}.

(** [for (let i = 0; i < maxRetries; i++) { try { ... } catch (e) { } await 3s }];
    [job] is the variable the loop assigns. *)
Fixpoint poll_running (n : nat) (addr : string) (job : option Job) : M (option Job * PollExit) :=
  match n with
  | O => ret (job, PollExhausted)
  | S n' =>
      let* (job', ctl) :=
        try_catch
          (let* j := retry (jobs_get addr) 3 2000 in
           if is_running (job_state j) then ret (Some j, Some PollBreak)
           else if has_ended (job_state j) then
             do console_warn "[Confidential] Job ended before we could send definition." None then
             ret (Some j, Some PollReturn)
           else ret (Some j, None))
          (fun _ => ret (job, None)) in
      match ctl with
      | Some c => ret (job', c)
      | None => do sleep 3000 then poll_running n' addr job'
      end
  end.

Definition sendDef (nodeUrl : string) (realJobDefinition : json)
    (headers : list (string * string)) : M unit :=
  let* response :=
    fetch BAny {| url := nodeUrl; method := "POST"; headers := headers;
                  body := Some (JsonBody realJobDefinition) |} in
  if negb (resp_ok response)
  then throw {| message := Some (resp_text response); status := Some (resp_status response) |}
  else ret tt.

(** The authorization put into [fetchHeaders], by mode. *)
Definition auth_headers (fetchHeaders : list (string * string)) (dummyIpfsHash : string)
    : M (list (string * string)) :=
  let* s := get_svc in
  match authMode s with
  | ApiMode =>
      let* apiAuth := generateApiNodeAuthHeader in
      ret (hdr_set "Authorization" (fst apiAuth) fetchHeaders)
  | WalletMode =>
      let* hs := generateHeaders dummyIpfsHash in
      ret (fold_left (fun acc kv => hdr_set (fst kv) (snd kv) acc) hs fetchHeaders)
  end.

Definition record_service_url (jobAddress canonicalJobAddress domain : string)
    (realJobDefinition : json) : M unit :=
  try_catch
    (let* services := getJobExposedServices realJobDefinition canonicalJobAddress in
     match services with
     | Some (s0 :: _) =>
         let serviceUrl := "https://" +:+ svc_hash s0 +:+ "." +:+ domain in
         let* s := get_svc in
         match watchedJobs s !! jobAddress with
         | Some jobInfo =>
             modify_svc (with_watchedJobs
               (<[jobAddress := set_serviceUrl serviceUrl jobInfo]> (watchedJobs s)))
         | None => ret tt
         end
     | _ => ret tt
     end)
    (fun err =>
       console_error "[Confidential] Failed to resolve service URL from definition:" (Some err)).

(** The [catch (e)] of the first [sendDef]: on a 4xx, wait 5 s, take fresh
    authorization (in API mode after clearing the cache) and send again;
    anything else is thrown on. *)
Definition resend_after_rejection (nodeUrl : string) (realJobDefinition : json)
    (dummyIpfsHash : string) (fetchHeaders : list (string * string)) (e : JsError) : M unit :=
  if is_4xx e then
    do console_warn "[Confidential] Node rejected definition" (Some e) then
    do sleep 5000 then
    let* s := get_svc in
    let* fetchHeaders' :=
      match authMode s with
      | ApiMode =>
          do modify_svc (with_cachedApiAuth None) then
          let* apiAuth := generateApiNodeAuthHeader in
          ret (hdr_set "Authorization" (fst apiAuth) fetchHeaders)
      | WalletMode =>
          let* newHeaders := generateHeaders dummyIpfsHash in
          ret (fold_left (fun acc kv => hdr_set (fst kv) (snd kv) acc)
                         newHeaders fetchHeaders)
      end in
    sendDef nodeUrl realJobDefinition fetchHeaders'
  else throw e.

(** The part after the loop, once [job] is RUNNING. *)
Definition push_definition (jobAddress : string) (realJobDefinition : json)
    (dummyIpfsHash : string) (job : Job) : M unit :=
  try_catch
    (let* fetchHeaders := auth_headers [("Content-Type", "application/json")] dummyIpfsHash in
     let domain := str_or (process_env "NOSANA_INGRESS_DOMAIN") "node.k8s.prd.nos.ci" in
     let canonicalJobAddress := job_address job in
     let nodeUrl := "https://" +:+ job_node job +:+ "." +:+ domain +:+ "/job/"
                    +:+ canonicalJobAddress +:+ "/job-definition" in
     do try_catch
          (sendDef nodeUrl realJobDefinition fetchHeaders)
          (resend_after_rejection nodeUrl realJobDefinition dummyIpfsHash fetchHeaders) then
     record_service_url jobAddress canonicalJobAddress domain realJobDefinition)
    (fun e => console_error "[Confidential] Failed to send definition to node:" (Some e)).

Definition waitForRunningAndSendDefinition (jobAddress : string) (realJobDefinition : json)
    (dummyIpfsHash : string) (deploymentUuid : option string) : M unit :=
  let maxRetries := 600%nat in
  let* addr := address jobAddress in
  let* (job, how) := poll_running maxRetries addr None in
  match how with
  | PollReturn => ret tt
  | _ =>
      match job with
      | Some j =>
          if is_running (job_state j)
          then push_definition jobAddress realJobDefinition dummyIpfsHash j
          else console_error "[Confidential] Timeout waiting for job to run." None
      | None => console_error "[Confidential] Timeout waiting for job to run." None
      end
  end.

(** The task [launchJob] starts: the call and its [.catch]. *)
Definition run_handoff (jobAddress : string) (realJobDefinition : json)
    (dummyIpfsHash : string) (deploymentUuid : option string) : M unit :=
  try_catch
    (waitForRunningAndSendDefinition jobAddress realJobDefinition dummyIpfsHash deploymentUuid)
    (fun e => console_error "[Confidential] Failed to handoff definition" (Some e)).

End Handoff.

(** ** [getJob], [extendJob] *)

Record GetJobResult : Type := {
  gj_status : string;
  jobState : Z;
  gj_jobAddress : string;
  runAddress : string;
  nodeAddress : string;
  price : string;
  ipfsResult : option string;
  gj_serviceUrl : option string
}.

Record ExtendResult : Type := {
  ex_status : string;
  ex_jobAddress : string;
  txSignature : string;
  ex_creditsUsed : option float
}.

Section Jobs.
Context `{Host}.

(** The inner [try] of [getJob]: the service URL from the pinned definition. *)
Definition resolve_service_url (jobAddress ipfsJob : string) (cachedJob : option WatchedJobInfo)
    : M (option string) :=
  try_catch
    (let* rawDef := retry_default (ipfs_retrieve ipfsJob) in
     match rawDef with
     | Some jobDefinition =>
         if truthy rawDef then
           let* services := getJobExposedServices jobDefinition jobAddress in
           match services with
           | Some (s0 :: _) =>
               let domain := str_or (process_env "NOSANA_INGRESS_DOMAIN") "node.k8s.prd.nos.ci" in
               let serviceUrl := "https://" +:+ svc_hash s0 +:+ "." +:+ domain in
               do match cachedJob with
                  | Some c =>
                      modify_svc (fun s => with_watchedJobs
                        (<[jobAddress := set_serviceUrl serviceUrl c]> (watchedJobs s)) s)
                  | None => ret tt
                  end then
               ret (Some serviceUrl)
           | _ => ret None
           end
         else ret None
     | None => ret None
     end)
    (fun e => do console_error "Failed to resolve service URL:" (Some e) then ret None).

Definition getJob (jobAddress : string) : M GetJobResult :=
  try_catch
    (let* addr := address jobAddress in
     let* job := retry_default (jobs_get addr) in
     let isRunning := job_state job =? JobState.RUNNING in
     let* s := get_svc in
     let cachedJob := watchedJobs s !! jobAddress in
     let serviceUrl :=
       match cachedJob with
       | Some c => if truthy (jstr_opt (serviceUrl c)) then serviceUrl c else None
       | None => None
       end in
     let* serviceUrl' :=
       if isRunning && negb (truthy (jstr_opt serviceUrl)) && truthy (jstr_opt (job_ipfsJob job))
       then resolve_service_url jobAddress (default "" (job_ipfsJob job)) cachedJob
       else ret serviceUrl in
     ret {| gj_status := "success"; jobState := job_state job; gj_jobAddress := jobAddress;
            runAddress := job_project job; nodeAddress := job_node job;
            price := pretty (job_price job); ipfsResult := job_ipfsResult job;
            gj_serviceUrl := serviceUrl' |})
    (fun error => throw (Error ("Get Job Error: " +:+ message_text error))).

Definition extendJob (jobAddress : string) (duration : Z) : M ExtendResult :=
  try_catch
    (let* addr := address jobAddress in
     let* s := get_svc in
     match authMode s with
     | ApiMode =>
         let* result :=
           apiRequest BJobTx ("/jobs/" +:+ jobAddress +:+ "/extend") "POST"
                      (Some (JsonBody (obj [("seconds", Some (jnum duration))]))) in
         do sendAuditLog "JOB_EXTENDED" jobAddress
              (Some (obj [("duration", Some (jnum duration)); ("tx", Some (JStr (tx result)));
                          ("creditsUsed", Some (JNum (creditsUsed (credits result))));
                          ("via", Some (JStr "api"))])) None then
         ret {| ex_status := "success"; ex_jobAddress := jobAddress; txSignature := tx result;
                ex_creditsUsed := Some (creditsUsed (credits result)) |}
     | WalletMode =>
         let* instruction := jobs_extend addr duration in
         let* signature := buildSignAndSend instruction in
         do sendAuditLog "JOB_EXTENDED" jobAddress
              (Some (obj [("duration", Some (jnum duration));
                          ("signature", Some (JStr signature))])) None then
         ret {| ex_status := "success"; ex_jobAddress := jobAddress; txSignature := signature;
                ex_creditsUsed := None |}
     end)
    (fun error =>
       do console_error "Extend Error:" (Some error) then
       do sendAuditLog "JOB_EXTEND_FAILED" jobAddress
            (Some (obj [("duration", Some (jnum duration));
                        ("error", jstr_opt (message error))])) (Some "error") then
       throw (Error ("Nosana SDK Error: " +:+ message_text error))).

End Jobs.

(** ** [getBalance] *)

(** The integer nearest to [m * 2^e * 10^f]; of two equally near, the larger. *)
Definition nearest_scaled (m : positive) (e : Z) (f : nat) : Z :=
  let q := Z.pos m * 10 ^ Z.of_nat f in
  if 0 <=? e then q * 2 ^ e
  else (2 * q + 2 ^ (- e)) / (2 * 2 ^ (- e)).

(** [m * 2^e >= 10^21] *)
Definition at_least_1e21 (m : positive) (e : Z) : bool :=
  if 0 <=? e then 10 ^ 21 <=? Z.pos m * 2 ^ e
  else 10 ^ 21 * 2 ^ (- e) <=? Z.pos m.

Fixpoint zeros (k : nat) : string :=
  match k with
  | O => ""
  | S k' => String "0" (zeros k')
  end.

(** Steps 11.b-11.d of [Number.prototype.toFixed]: the digits of [n] with a
    point before the last [f] of them. *)
Definition fixed_digits (n : Z) (f : nat) : string :=
  let m := pretty n in
  if (f =? 0)%nat then m
  else
    let m' := if (String.length m <=? f)%nat then zeros (f + 1 - String.length m) +:+ m else m in
    let k := String.length m' in
    substring 0 (k - f) m' +:+ "." +:+ substring (k - f) f m'.

Record Balance : Type := {
  sol : Z;
  nos : jsval;
  bal_assignedCredits : option float;
  bal_reservedCredits : option float;
  bal_settledCredits : option float;
  bal_address : string
}.

Section Balance.
Context `{Host}.

(** [x.toFixed(f)] for [0 <= f <= 100]. *)
Definition toFixed (x : float) (f : nat) : string :=
  match Prim2SF x with
  | S754_nan => Number_toString x
  | S754_infinity _ => Number_toString x
  | S754_zero _ => fixed_digits 0 f
  | S754_finite s m e =>
      (if s then "-" else "") +:+
      (if at_least_1e21 m e then Number_toString (PrimFloat.abs x)
       else fixed_digits (nearest_scaled m e f) f)
  end.

Definition getBalance : M Balance :=
  let* s := get_svc in
  match authMode s with
  | ApiMode =>
      try_catch
        (let* balance := apiRequest BBalance "/credits/balance" "GET" None in
         let availableCredits :=
           PrimFloat.sub (PrimFloat.sub (assignedCredits balance) (reservedCredits balance))
                         (settledCredits balance) in
         ret {| sol := 0; nos := Some (JStr (toFixed availableCredits 2));
                bal_assignedCredits := Some (assignedCredits balance);
                bal_reservedCredits := Some (reservedCredits balance);
                bal_settledCredits := Some (settledCredits balance);
                bal_address := "API_ACCOUNT" |})
        (fun error =>
           do console_error "[API] Failed to get balance:" (Some error) then
           try_catch
             (let* balance := credits_balance in
              let* amount := lift (prop "amount" balance) in
              ret {| sol := 0; nos := js_or amount (Some (JStr "0"));
                     bal_assignedCredits := None; bal_reservedCredits := None;
                     bal_settledCredits := None; bal_address := "API_ACCOUNT" |})
             (fun e => throw error))
  | WalletMode =>
      let* sol := ext SolBalance in
      let* nos := ext NosBalance in
      ret {| sol := sol; nos := Some (JStr (str_or (Some (pretty nos)) "0"));
             bal_assignedCredits := None; bal_reservedCredits := None;
             bal_settledCredits := None;
             bal_address := default "Unknown" (wallet s) |}
  end.

End Balance.

(** ** [watchJob]: the watch loop *)

Record WatchOptions : Type := {
  opt_jobDefinition : jsval;
  opt_marketAddress : option string;
  opt_deploymentUuid : option string;
  opt_isConfidential : option bool;
  opt_resources_allocated : option Resources
}.

Definition default_resources : Resources :=
  {| gpu_allocated := 1; vcpu_allocated := 8; ram_gb_allocated := 32 |}.

(** The entry [watchJob] registers. *)
Definition new_jobInfo (jobAddress : string) (now : Z) (options : option WatchOptions)
    : WatchedJobInfo :=
  {| jobAddress := jobAddress;
     deploymentUuid := options ≫= opt_deploymentUuid;
     startTime := now;
     lastExtendTime := now;
     jobDefinition := default JNull (js_or (options ≫= opt_jobDefinition) (Some JNull));
     marketAddress := str_or (options ≫= opt_marketAddress) "";
     isConfidential := default true (options ≫= opt_isConfidential);
     resources := default default_resources (options ≫= opt_resources_allocated);
     userStopped := false;
     serviceUrl := None |}.

Definition jresources (r : Resources) : json :=
  obj [("gpu_allocated", Some (jnum (gpu_allocated r)));
       ("vcpu_allocated", Some (jnum (vcpu_allocated r)));
       ("ram_gb_allocated", Some (jnum (ram_gb_allocated r)))].

(** The payload sent for an instance that is gone: no allocation, health 0. *)
Definition gone_payload (jobAddress state : string) : Heartbeat :=
  {| provider := "nosana"; provider_instance_id := jobAddress;
     old_provider_instance_id := None;
     hb_gpu_allocated := 0; hb_vcpu_allocated := 0; hb_ram_gb_allocated := 0;
     health_score := 0; hb_state := state; expose_url := None |}.

(** [state === JobState.COMPLETED || state === 2 || state === JobState.STOPPED
     || state === 3 || state === 4] *)
Definition isTerminated (state : Z) : bool :=
  (state =? JobState.COMPLETED) || (state =? 2) || (state =? JobState.STOPPED)
  || (state =? 3) || (state =? 4).

(** [Math.round(runtime / 60000)] *)
Definition runtimeMins_of (runtime : Z) : Z := (runtime + 30000) / 60000.

(** What one pass of [while (true)] does to the loop: [return], or go on
    with the loop's variables [lastState] and [lastHeartbeat]. *)
Inductive TickResult : Type :=
| Returned
| GoOn (lastState : option Z) (lastHeartbeat : Z).

Section Watch.
Context `{Host}.

Definition heartbeat_request (orchestratorUrl : string) (payload : Heartbeat) : HttpRequest :=
  {| url := orchestratorUrl +:+ "/inventory/heartbeat"; method := "POST";
     headers := [("Content-Type", "application/json")];
     body := Some (HeartbeatBody payload) |}.

(** [try { await fetch(heartbeat) } catch (err) { }] *)
Definition post_heartbeat_quiet (orchestratorUrl : string) (payload : Heartbeat) : M unit :=
  try_catch (do fetch BAny (heartbeat_request orchestratorUrl payload) then ret tt)
            (fun _ => ret tt).

(** [watchJob] up to its loop: register the entry, report the start. *)
Definition watchJob_start (jobAddress orchestratorUrl : string) (options : option WatchOptions)
    : M unit :=
  let* now := Date_now in
  let jobInfo := new_jobInfo jobAddress now options in
  do modify_svc (fun s => with_watchedJobs (<[jobAddress := jobInfo]> (watchedJobs s)) s) then
  sendAuditLog "WATCHDOG_STARTED" jobAddress
    (Some (obj [("resources", Some (jresources (resources jobInfo)));
                ("deploymentUuid", jstr_opt (options ≫= opt_deploymentUuid))])) None.

(** The auto-extend step of a RUNNING tick; returns the entry as it is after. *)
Definition auto_extend (jobAddress : string) (currentTime : Z) (currentJobInfo : WatchedJobInfo)
    : M WatchedJobInfo :=
  let timeSinceLastExtend := currentTime - lastExtendTime currentJobInfo in
  let timeUntilTimeout := JOB_TIMEOUT_MS - timeSinceLastExtend in
  if (timeUntilTimeout <=? EXTEND_THRESHOLD_MS) && (0 <? timeUntilTimeout) then
    try_catch
      (let* _ := extendJob jobAddress EXTEND_DURATION_SECS in
       let currentJobInfo' := set_lastExtendTime currentTime currentJobInfo in
       do modify_svc (fun s => with_watchedJobs
            (<[jobAddress := currentJobInfo']> (watchedJobs s)) s) then
       do sendAuditLog "JOB_AUTO_EXTENDED" jobAddress
            (Some (obj [("duration", Some (jnum EXTEND_DURATION_SECS))])) None then
       ret currentJobInfo')
      (fun extendErr =>
         do console_error "[auto-extend] Failed to extend job" (Some extendErr) then
         do sendAuditLog "JOB_AUTO_EXTEND_FAILED" jobAddress
              (Some (obj [("error", jstr_opt (message extendErr))])) (Some "error") then
         ret currentJobInfo)
  else ret currentJobInfo.

(** The heartbeat step of a RUNNING tick; returns [lastHeartbeat]. *)
Definition ready_heartbeat (jobAddress orchestratorUrl : string) (currentTime lastHeartbeat : Z)
    (currentJobInfo : WatchedJobInfo) (job : GetJobResult) : M Z :=
  if 30000 <? currentTime - lastHeartbeat then
    try_catch
      (do fetch BAny (heartbeat_request orchestratorUrl
            {| provider := "nosana"; provider_instance_id := jobAddress;
               old_provider_instance_id := None;
               hb_gpu_allocated := gpu_allocated (resources currentJobInfo);
               hb_vcpu_allocated := vcpu_allocated (resources currentJobInfo);
               hb_ram_gb_allocated := ram_gb_allocated (resources currentJobInfo);
               health_score := 100; hb_state := "ready";
               expose_url := gj_serviceUrl job |}) then
       ret currentTime)
      (fun err =>
         do console_error "[heartbeat] Failed to send heartbeat" (Some err) then
         ret lastHeartbeat)
  else ret lastHeartbeat.

(** The [else if (shouldRedeploy)] branch. *)
Definition redeploy (jobAddress orchestratorUrl : string) (currentJobInfo : WatchedJobInfo)
    : M unit :=
  try_catch
    (let* newJob :=
       launchJob (jobDefinition currentJobInfo) (marketAddress currentJobInfo)
                 (isConfidential currentJobInfo) in
     do post_heartbeat_quiet orchestratorUrl
          {| provider := "nosana"; provider_instance_id := lr_jobAddress newJob;
             old_provider_instance_id := Some jobAddress;
             hb_gpu_allocated := gpu_allocated (resources currentJobInfo);
             hb_vcpu_allocated := vcpu_allocated (resources currentJobInfo);
             hb_ram_gb_allocated := ram_gb_allocated (resources currentJobInfo);
             health_score := 50; hb_state := "provisioning"; expose_url := None |} then
     do watchJob_start (lr_jobAddress newJob) orchestratorUrl
          (Some {| opt_jobDefinition := Some (jobDefinition currentJobInfo);
                   opt_marketAddress := Some (marketAddress currentJobInfo);
                   opt_deploymentUuid := lr_deploymentUuid newJob;
                   opt_isConfidential := Some (isConfidential currentJobInfo);
                   opt_resources_allocated := Some (resources currentJobInfo) |}) then
     emit (Spawn (WatchLoopTask (lr_jobAddress newJob) orchestratorUrl)))
    (fun redeployErr =>
       do console_error "[auto-redeploy] Failed:" (Some redeployErr) then
       post_heartbeat_quiet orchestratorUrl (gone_payload jobAddress "failed")).

(** The [if (isTerminated)] block. *)
Definition on_terminated (jobAddress orchestratorUrl : string) (currentTime state : Z)
    (currentJobInfo : WatchedJobInfo) : M unit :=
  let runtime := currentTime - startTime currentJobInfo in
  let runtimeMins := runtimeMins_of runtime in
  do sendAuditLog "WATCHDOG_TERMINATED" jobAddress
       (Some (obj [("final_state", Some (jnum state));
                   ("runtime_mins", Some (jnum runtimeMins));
                   ("user_stopped", Some (JBool (userStopped currentJobInfo)))])) None then
  let shouldRedeploy :=
    negb (userStopped currentJobInfo)
    && truthy (Some (jobDefinition currentJobInfo))
    && truthy (Some (JStr (marketAddress currentJobInfo)))
    && (MIN_RUNTIME_FOR_REDEPLOY_MS <=? runtime) in
  let tooShort := runtime <? MIN_RUNTIME_FOR_REDEPLOY_MS in
  do (if userStopped currentJobInfo then ret tt
      else if tooShort then post_heartbeat_quiet orchestratorUrl (gone_payload jobAddress "failed")
      else if shouldRedeploy then redeploy jobAddress orchestratorUrl currentJobInfo
      else ret tt) then
  do post_heartbeat_quiet orchestratorUrl (gone_payload jobAddress "terminated") then
  modify_svc (fun s => with_watchedJobs (delete jobAddress (watchedJobs s)) s).

(** The [try] block of one pass, after [getJob] has answered. *)
Definition tick_with_job (jobAddress orchestratorUrl : string) (lastState : option Z)
    (lastHeartbeat currentTime : Z) (job : GetJobResult) : M TickResult :=
  let* s := get_svc in
  match watchedJobs s !! jobAddress with
  | None => ret Returned
  | Some currentJobInfo =>
      let* lastState' :=
        if negb (bool_decide (lastState = Some (jobState job))) then
          do sendAuditLog "JOB_STATE_CHANGED" jobAddress
               (Some (obj [("old_state", Some (match lastState with
                                               | Some st => jnum st
                                               | None => JNull
                                               end));
                           ("new_state", Some (jnum (jobState job)))])) None then
          ret (Some (jobState job))
        else ret lastState in
      let* (currentJobInfo', lastHeartbeat') :=
        if is_running (jobState job) then
          let* currentJobInfo' := auto_extend jobAddress currentTime currentJobInfo in
          let* lastHeartbeat' :=
            ready_heartbeat jobAddress orchestratorUrl currentTime lastHeartbeat
                            currentJobInfo' job in
          ret (currentJobInfo', lastHeartbeat')
        else ret (currentJobInfo, lastHeartbeat) in
      if isTerminated (jobState job) then
        do on_terminated jobAddress orchestratorUrl currentTime (jobState job) currentJobInfo' then
        ret Returned
      else ret (GoOn lastState' lastHeartbeat')
  end.

(** One pass of the loop body, without the closing 60 s wait. *)
Definition watch_tick (jobAddress orchestratorUrl : string) (lastState : option Z)
    (lastHeartbeat : Z) : M TickResult :=
  try_catch
    (let* currentTime := Date_now in
     let* job := getJob jobAddress in
     tick_with_job jobAddress orchestratorUrl lastState lastHeartbeat currentTime job)
    (fun error =>
       do console_error "[watchdog] Error loop" (Some error) then
       ret (GoOn lastState lastHeartbeat)).

(** [while (true) { ... await 60 s }], for at most [passes] passes.
    [true]: the loop returned; [false]: it is still running. *)
Fixpoint watch_loop (passes : nat) (jobAddress orchestratorUrl : string)
    (lastState : option Z) (lastHeartbeat : Z) : M bool :=
  match passes with
  | O => ret false
  | S passes' =>
      let* r := watch_tick jobAddress orchestratorUrl lastState lastHeartbeat in
      match r with
      | Returned => ret true
      | GoOn lastState' lastHeartbeat' =>
          do sleep 60000 then
          watch_loop passes' jobAddress orchestratorUrl lastState' lastHeartbeat'
      end
  end.

Definition watchJob (passes : nat) (jobAddress orchestratorUrl : string)
    (options : option WatchOptions) : M bool :=
  do watchJob_start jobAddress orchestratorUrl options then
  watch_loop passes jobAddress orchestratorUrl None 0.

End Watch.

(** ** [LogStreamer] ([nosana_logs.ts])

    The streamer is driven by events: calls of its methods, socket events
    and timers that fire.  Each handler is a function from the fields to the
    fields and to what the handler does. *)
Module LogStreamer.

Definition FRP_SERVER_ADDR : string := "node.k8s.prd.nos.ci".

Record State : Type := {
  ws : option nat;                 (* the current socket, by the order of creation *)
  shouldReconnect : bool;
  retryCount : nat;
  maxRetries : nat;
  retryDelay : Z;
  authMode : AuthMode;
  sockets : nat                    (* sockets created so far *)
}.

(** [new LogStreamer(walletSignerOrApiAuth, apiAuthProvider?)] *)
Definition create (apiAuthProvider : bool) : State :=
  {| ws := None; shouldReconnect := true; retryCount := 0; maxRetries := 10;
     retryDelay := 3000;
     authMode := if apiAuthProvider then ApiMode else WalletMode;
     sockets := 0 |}.

Inductive Timer : Type :=
| Reconnect (nodeAddress jobAddress : string)   (* () => this.connect(nodeAddress, jobAddress) *)
| ConnectTimeout.                               (* the 10 s check of connect *)

Inductive Emitted : Type :=
| EmitLog (payload : json)
| EmitError (err : JsError)
| EmitClose.

Inductive Output : Type :=
| NewSocket (id : nat) (url : string)
| SetTimer (ms : Z) (t : Timer)
| Emit (e : Emitted)
| Send (msg : json)
| SocketClose (id : nat)
| Resolve
| Reject (err : JsError)
| ConsoleError (tag : string) (err : JsError).

(** What happens to a streamer.  Socket events carry the arguments of the
    [connect] call whose handlers receive them. *)
Inductive Input : Type :=
| CallConnect (nodeAddress jobAddress : string)
| CallClose
| OnOpen (nodeAddress jobAddress : string) (auth : Result (string * string))
                                          (* with what generateAuth() gives *)
| OnMessage (data : string)
| OnError (err : JsError)
| OnClose (nodeAddress jobAddress : string) (code : Z) (reason : string)
| TimerFires (t : Timer) (connecting : bool).
                                          (* with ws.readyState === CONNECTING *)

Section Handlers.
(** [JSON.parse] and the conversion of a value to a string, of the runtime. *)
Variable JSON_parse : string -> Result json.
Variable js_toString : jsval -> string.

Definition connect (nodeAddress jobAddress : string) (st : State) : State * list Output :=
  let url := "wss://" +:+ nodeAddress +:+ "." +:+ FRP_SERVER_ADDR in
  ({| ws := Some (sockets st); shouldReconnect := shouldReconnect st;
      retryCount := retryCount st; maxRetries := maxRetries st; retryDelay := retryDelay st;
      authMode := authMode st; sockets := S (sockets st) |},
   [NewSocket (sockets st) url; SetTimer 10000 ConnectTimeout]).

Definition on_open (jobAddress : string) (auth : Result (string * string)) (st : State)
    : State * list Output :=
  let st' :=
    {| ws := ws st; shouldReconnect := shouldReconnect st; retryCount := 0;
       maxRetries := maxRetries st; retryDelay := retryDelay st;
       authMode := authMode st; sockets := sockets st |} in
  match auth with
  | Ok (auth, walletAddress) =>
      let subscribeMessage :=
        obj [("path", Some (JStr "/log"));
             ("body", Some (obj [("jobAddress", Some (JStr jobAddress));
                                 ("address", Some (JStr walletAddress))]));
             ("header", Some (JStr auth))] in
      (st', match ws st with
            | Some _ => [Send subscribeMessage; Resolve]
            | None => [Resolve]
            end)
  | Throw err =>
      (st', [ConsoleError "[LogStreamer] Failed to send subscribe message:" err; Reject err])
  end.

Definition on_message (data : string) (st : State) : State * list Output :=
  let raw := [Emit (EmitLog (obj [("raw", Some (JStr data))]))] in
  (st,
   match JSON_parse data with
   | Ok message =>
       match prop "path" (Some message) with
       | Ok path =>
           if strict_eq_str path "log" then
             match prop "data" (Some message) with
             | Ok d =>
                 match JSON_parse (match d with Some (JStr s) => s | _ => js_toString d end) with
                 | Ok logData => [Emit (EmitLog logData)]
                 | Throw _ => raw
                 end
             | Throw _ => raw
             end
           else
             match prop "error" (Some message) with
             | Ok e => if truthy e then [Emit (EmitError (Error (js_toString e)))] else []
             | Throw _ => raw
             end
       | Throw _ => raw
       end
   | Throw _ => raw
   end).

Definition on_error (err : JsError) (st : State) : State * list Output :=
  (st, [ConsoleError "[LogStreamer] WebSocket error:" err; Emit (EmitError err)]).

(** The ['close'] handler.  The code only decides whether the closure is
    logged ([console.log], not recorded here). *)
Definition on_close (nodeAddress jobAddress : string) (code : Z) (reason : string) (st : State)
    : State * list Output :=
  if shouldReconnect st && (retryCount st <? maxRetries st)%nat then
    ({| ws := ws st; shouldReconnect := shouldReconnect st; retryCount := S (retryCount st);
        maxRetries := maxRetries st; retryDelay := retryDelay st;
        authMode := authMode st; sockets := sockets st |},
     [SetTimer (retryDelay st) (Reconnect nodeAddress jobAddress)])
  else (st, [Emit EmitClose]).

Definition on_timer (t : Timer) (connecting : bool) (st : State) : State * list Output :=
  match t with
  | Reconnect nodeAddress jobAddress => connect nodeAddress jobAddress st
  | ConnectTimeout =>
      match ws st with
      | Some _ => if connecting then (st, [Reject (Error "WebSocket connection timeout")])
                  else (st, [])
      | None => (st, [])
      end
  end.

(** [close()] *)
Definition close (st : State) : State * list Output :=
  ({| ws := None; shouldReconnect := false; retryCount := retryCount st;
      maxRetries := maxRetries st; retryDelay := retryDelay st;
      authMode := authMode st; sockets := sockets st |},
   match ws st with
   | Some id => [SocketClose id]
   | None => []
   end).

Definition step (st : State) (i : Input) : State * list Output :=
  match i with
  | CallConnect nodeAddress jobAddress => connect nodeAddress jobAddress st
  | CallClose => close st
  | OnOpen _ jobAddress auth => on_open jobAddress auth st
  | OnMessage data => on_message data st
  | OnError err => on_error err st
  | OnClose nodeAddress jobAddress code reason => on_close nodeAddress jobAddress code reason st
  | TimerFires t connecting => on_timer t connecting st
  end.

(** A history of events: the fields after it and, per event, what was done. *)
Fixpoint run (st : State) (inputs : list Input) : State * list (Input * list Output) :=
  match inputs with
  | [] => (st, [])
  | i :: rest =>
      let '(st1, out) := step st i in
      let '(st2, outs) := run st1 rest in
      (st2, (i, out) :: outs)
  end.

End Handlers.
End LogStreamer.

(** ** A scripted host

    A host whose answers are fixed by a small script; the closed examples
    below run the service against it. *)
Module Scripted.

Record Script : Type := {
  clock : Z;                          (* Date.now() *)
  job_answer : Result Job;            (* what client.jobs.get gives *)
  pin_answer : Result string;         (* what client.ipfs.pin gives *)
  fetch_statuses : list Z;            (* statuses of the next responses, then 200 *)
  echo_message : bool;                (* the signing reply repeats the message *)
  signed : nat                        (* signatures produced so far *)
}.

Definition a_job (state : Z) : Job :=
  {| job_address := "JOB1"; job_state := state; job_node := "NODE1";
     job_project := "OWNER"; job_price := 1; job_ipfsJob := None; job_ipfsResult := None |}.

Definition requested_message (req : HttpRequest) : string :=
  match body req with
  | Some (JsonBody (JObj fs)) =>
      match fs !! "message" with
      | Some (JStr m) => m
      | _ => ""
      end
  | _ => ""
  end.

Definition body_for (t : BodyTy) (req : HttpRequest) (s : Script) : El t :=
  match t with
  | BSign =>
      {| signature := "sig" +:+ pretty (signed s);
         sr_message := if echo_message s then requested_message req else "other";
         userAddress := "USER" |}
  | BJobTx =>
      {| tx := "TX"; job := "JOB2";
         credits := {| costUSD := 0%float; creditsUsed := 0%float; reservationId := "R" |} |}
  | BBalance =>
      {| assignedCredits := 100.5%float; reservedCredits := 20.25%float;
         settledCredits := 10%float |}
  | BAny => JNull
  end.

Definition after_fetch (t : BodyTy) (s : Script) : Script :=
  {| clock := clock s; job_answer := job_answer s; pin_answer := pin_answer s;
     fetch_statuses := tail (fetch_statuses s); echo_message := echo_message s;
     signed := match t with BSign => S (signed s) | _ => signed s end |}.

Definition after_wait (ms : Z) (s : Script) : Script :=
  {| clock := clock s + ms; job_answer := job_answer s; pin_answer := pin_answer s;
     fetch_statuses := fetch_statuses s; echo_message := echo_message s;
     signed := signed s |}.

Definition answer (c : ExtCall) : Script -> RespTy c * Script :=
  match c as c0 return Script -> RespTy c0 * Script with
  | DateNow => fun s => (clock s, s)
  | SetTimeout ms => fun s => (tt, after_wait ms s)
  | Fetch t req => fun s =>
      (Ok {| resp_status := hd 200 (fetch_statuses s); resp_text := "body";
             resp_json := Ok (body_for t req s) |}, after_fetch t s)
  | Address a => fun s => (Ok a, s)
  | IpfsPin _ => fun s => (pin_answer s, s)
  | IpfsRetrieve _ => fun s => (Ok None, s)
  | JobsGet _ => fun s => (job_answer s, s)
  | JobsPost _ _ _ => fun s => (Ok {| accounts := Some [{| acc_address := "JOB2" |}] |}, s)
  | JobsExtend _ _ => fun s => (Ok {| accounts := None |}, s)
  | BuildSignAndSend _ => fun s => (Ok "SIGNATURE", s)
  | DeploymentsCreate _ => fun s => (Ok {| dep_uuid := Some "DEP1"; dep_id := None |}, s)
  | DeploymentsGet _ => fun s => (Ok {| dep_jobs := None |}, s)
  | CreditsBalance => fun s => (Ok None, s)
  | SolBalance => fun s => (Ok 0, s)
  | NosBalance => fun s => (Ok 0, s)
  | GenerateHeaders _ => fun s => (Ok [("Authorization", "signed")], s)
  | GetJobExposedServices _ _ => fun s => (Ok None, s)
  end.

Definition host : Host :=
  {| Env := Script; respond := answer; process_env := fun _ => None;
     Number_toString := fun _ => "" |}.

Definition script (now : Z) (job : Result Job) : Script :=
  {| clock := now; job_answer := job; pin_answer := Ok "QmDummy"; fetch_statuses := [];
     echo_message := true; signed := 0 |}.

Definition api_service : Service := new_service None (Some "KEY").
Definition wallet_service : Service := new_service (Some "PRIVATE") None.

Definition world (s : Script) (service : Service) : @World host :=
  @Build_World host s [] service.

End Scripted.

(** A host whose job reads always fail with a rate-limit error; its state
    counts them. *)
Module Throttled.

Definition answer (c : ExtCall) : nat -> RespTy c * nat :=
  match c as c0 return nat -> RespTy c0 * nat with
  | JobsGet _ => fun n => (Throw (Error "Nosana API Error (429): Too Many Requests"), S n)
  | c0 => fun n => (fst (Scripted.answer c0 (Scripted.script 0 (Ok (Scripted.a_job 0)))), n)
  end.

Definition host : Host :=
  {| Env := nat; respond := answer; process_env := fun _ => None;
     Number_toString := fun _ => "" |}.

Definition world : @World host :=
  @Build_World host 0%nat [] Scripted.wallet_service.

End Throttled.

(** ** Reading a trace *)

Definition is_sleep (ev : Event) : option Z :=
  match ev with
  | Ext (SetTimeout ms) _ => Some ms
  | _ => None
  end.

(** The waits of a run, in order. *)
Definition waits (tr : list Event) : list Z := omap is_sleep tr.

Definition is_jobs_get (ev : Event) : bool :=
  match ev with
  | Ext (JobsGet _) _ => true
  | _ => false
  end.

(** * The other methods of [NosanaService] *)

(** ** SDK calls that [ExtCall] has no constructor for

    [client.jobs.end], [client.jobs.delist], [client.jobs.all] and the
    making of a signer from the private key ([bs58.decode] then
    [createKeyPairSignerFromBytes], the signer given by its address).  The
    host answers them from its state like the other calls; the trace, whose
    events are those of [ExtCall], does not record them. *)
Class HostSdk (H : Host) : Type := {
  sdk_jobs_end : string -> Env -> Result Instruction * Env;
  sdk_jobs_delist : string -> Env -> Result Instruction * Env;
  sdk_jobs_all : Env -> Result (list Job) * Env;
  sdk_signer_of_key : string -> Env -> Result string * Env
}.

Definition with_wallet (a : option string) (s : Service) : Service :=
  {| privateKey := privateKey s; apiKey := apiKey s; authMode := authMode s;
     wallet := a; watchedJobs := watchedJobs s; cachedApiAuth := cachedApiAuth s |}.

(** What [stopJob] returns: [{ status, txSignature, delisted }], the last
    one in API mode only. *)
Record StopResult : Type := {
  stop_status : string;
  stop_txSignature : jsval;
  stop_delisted : jsval
}.

(** What [getJobLogs] and [retrieveConfidentialResults] return. *)
Record JobLogs : Type := {
  logs_status : string;
  logs : option (list string);
  logs_ipfsHash : option string;
  logs_result : jsval;
  logs_isConfidential : option bool
}.

Definition logs_only (status line : string) : JobLogs :=
  {| logs_status := status; logs := Some [line]; logs_ipfsHash := None;
     logs_result := None; logs_isConfidential := None |}.

Section SdkCalls.
Context {H : Host} {HS : HostSdk H}.

Definition host_call {A} (f : Env -> A * Env) : World -> A * World :=
  fun w =>
    let '(r, e1) := f (env w) in
    (r, {| env := e1; trace := trace w; svc := svc w |}).

Definition jobs_end (addr : string) : M Instruction := host_call (sdk_jobs_end addr).
Definition jobs_delist (addr : string) : M Instruction := host_call (sdk_jobs_delist addr).
Definition jobs_all : M (list Job) := host_call sdk_jobs_all.
Definition signer_of_key (key : string) : M string := host_call (sdk_signer_of_key key).

(** [init()] *)
Definition init : M unit :=
  let* s := get_svc in
  match authMode s with
  | WalletMode =>
      if truthy (jstr_opt (privateKey s)) then
        try_catch
          (let* signer := signer_of_key (default "" (privateKey s)) in
           modify_svc (with_wallet (Some signer)))
          (fun e =>
             do console_error "Failed to initialize Nosana wallet:" (Some e) then
             throw e)
      else ret tt
  | ApiMode => ret tt
  end.

(** [stopJob(jobAddress)] *)
Definition stopJob (jobAddress : string) : M StopResult :=
  try_catch
    (let* s := get_svc in
     match authMode s with
     | ApiMode =>
         let* result := apiRequest BAny ("/jobs/" +:+ jobAddress +:+ "/stop") "POST" None in
         let* tx := lift (prop "tx" (Some result)) in
         let* delisted := lift (prop "delisted" (Some result)) in
         do sendAuditLog "JOB_STOPPED" jobAddress
              (Some (obj [("tx", tx); ("delisted", delisted);
                          ("manual_stop", Some (JBool true)); ("via", Some (JStr "api"))]))
              None then
         ret {| stop_status := "stopped"; stop_txSignature := tx; stop_delisted := delisted |}
     | WalletMode =>
         let* addr := address jobAddress in
         let* job := retry_default (jobs_get addr) in
         let* instruction :=
           if job_state job =? JobState.RUNNING then retry_default (jobs_end addr)
           else if job_state job =? JobState.QUEUED then retry_default (jobs_delist addr)
           else throw (Error ("Cannot stop job in state: " +:+ pretty (job_state job))) in
         let* signature := retry_default (buildSignAndSend instruction) in
         do sendAuditLog "JOB_STOPPED" jobAddress
              (Some (obj [("signature", Some (JStr signature));
                          ("manual_stop", Some (JBool true))]))
              None then
         ret {| stop_status := "stopped"; stop_txSignature := Some (JStr signature);
                stop_delisted := None |}
     end)
    (fun error =>
       do console_error "Stop Job Failed:" (Some error) then
       do sendAuditLog "JOB_STOP_FAILED" jobAddress
            (Some (obj [("error", jstr_opt (message error))])) (Some "error") then
       throw (Error ("Stop Error: " +:+ message_text error))).

End SdkCalls.

Section MoreService.
Context `{Host}.

(** [getJobFromApi(jobAddress)]: the job as the dashboard knows it, [null]
    in wallet mode and on any failure. *)
Definition getJobFromApi (jobAddress : string) : M json :=
  let* s := get_svc in
  match authMode s with
  | WalletMode => ret JNull
  | ApiMode =>
      try_catch
        (apiRequest BAny ("/jobs/" +:+ jobAddress) "GET" None)
        (fun error =>
           do console_warn "[API] Failed to get job details" (Some error) then
           ret JNull)
  end.

(** [getLogStreamer()] *)
Definition getLogStreamer : M LogStreamer.State :=
  let* s := get_svc in
  match authMode s with
  | ApiMode => ret (LogStreamer.create true)
  | WalletMode =>
      match wallet s with
      | None => throw (Error "Wallet not initialized")
      | Some _ => ret (LogStreamer.create false)
      end
  end.

(** [retrieveConfidentialResults(jobAddress)]: the results asked of the node
    itself. *)
Definition retrieveConfidentialResults (jobAddress : string) : M JobLogs :=
  try_catch
    (let* addr := address jobAddress in
     let* job := jobs_get addr in
     if negb (truthy (jstr_opt (job_ipfsJob job)))
     then ret (logs_only "pending" "Job has no IPFS hash.")
     else
       let dummyHash := default "" (job_ipfsJob job) in
       let* fetchHeaders := auth_headers [] dummyHash in
       let domain := str_or (process_env "NOSANA_INGRESS_DOMAIN") "node.k8s.prd.nos.ci" in
       let nodeUrl := "https://" +:+ job_node job +:+ "." +:+ domain +:+ "/job/"
                      +:+ jobAddress +:+ "/results" in
       let* response :=
         fetch BAny {| url := nodeUrl; method := "GET"; headers := fetchHeaders;
                       body := None |} in
       if negb (resp_ok response)
       then throw (Error ("Node rejected result fetch: " +:+ pretty (resp_status response)
                          +:+ " " +:+ resp_text response))
       else
         let* results := lift (resp_json response) in
         ret {| logs_status := "completed"; logs := None; logs_ipfsHash := None;
                logs_result := Some results; logs_isConfidential := Some true |})
    (fun e =>
       do console_error "[Confidential] Failed to retrieve results:" (Some e) then
       ret (logs_only "error"
              ("Failed to retrieve confidential results: " +:+ message_text e))).

(** [error.message && error.message.includes("IPFS")] *)
Definition mentions_IPFS (error : JsError) : bool :=
  match message error with
  | Some m => negb (String.eqb m "") && includes "IPFS" m
  | None => false
  end.

(** [getJobLogs(jobAddress)] *)
Definition getJobLogs (jobAddress : string) : M JobLogs :=
  try_catch
    (let* addr := address jobAddress in
     let* job := retry_default (jobs_get addr) in
     if negb (truthy (jstr_opt (job_ipfsResult job)))
     then ret (logs_only "pending" "Job is running or hasn't posted results yet.")
     else
       let* result := retry_default (ipfs_retrieve (default "" (job_ipfsResult job))) in
       ret {| logs_status := "completed"; logs := None;
              logs_ipfsHash := job_ipfsResult job; logs_result := result;
              logs_isConfidential := None |})
    (fun error =>
       if mentions_IPFS error then retrieveConfidentialResults jobAddress
       else
         do console_error "Get Logs Error:" (Some error) then
         throw (Error ("Get Logs Error: " +:+ message_text error))).

(** The loop of [recoverJobs] in API mode, over the addresses of the
    registry. *)
Fixpoint recover_watched (addresses : list string) : M unit :=
  match addresses with
  | [] => ret tt
  | jobAddress :: rest =>
      do try_catch
           (let* jobStatus := getJob jobAddress in
            if is_running (jobState jobStatus) then ret tt
            else modify_svc (fun s => with_watchedJobs (delete jobAddress (watchedJobs s)) s))
           (fun e => console_warn "[Recovery] Could not check job" (Some e)) then
      recover_watched rest
  end.

(** The loop of [recoverJobs] in wallet mode, over the wallet's own jobs:
    a watch is started, and not awaited, for each running job that has
    none. *)
Fixpoint recover_own (myJobs : list Job) : M unit :=
  match myJobs with
  | [] => ret tt
  | job :: rest =>
      let jobAddress := job_address job in
      let orchestratorUrl := str_or (process_env "ORCHESTRATOR_URL") "http://localhost:8080" in
      let* s := get_svc in
      do (if is_running (job_state job)
             && negb (bool_decide (is_Some (watchedJobs s !! jobAddress)))
          then
            do watchJob_start jobAddress orchestratorUrl
                 (Some {| opt_jobDefinition := None; opt_marketAddress := None;
                          opt_deploymentUuid := None; opt_isConfidential := Some true;
                          opt_resources_allocated :=
                            Some {| gpu_allocated := 1; vcpu_allocated := 8;
                                    ram_gb_allocated := 32 |} |}) then
            emit (Spawn (WatchLoopTask jobAddress orchestratorUrl))
          else ret tt) then
      recover_own rest
  end.

End MoreService.

Section Recovery.
Context {H : Host} {HS : HostSdk H}.

(** [recoverJobs()].  The registry is a [Map], which is gone through in the
    order of insertion; the finite map of the model keeps no such order, so
    the enumeration of its keys is a parameter. *)
Definition recoverJobs (entries : gmap string WatchedJobInfo -> list string) : M unit :=
  let* s := get_svc in
  match authMode s with
  | ApiMode =>
      try_catch
        (recover_watched (entries (watchedJobs s)))
        (fun e => console_error "[Job Recovery] Failed to recover jobs in API mode:" (Some e))
  | WalletMode =>
      match wallet s with
      | None => ret tt
      | Some myAddress =>
          try_catch
            (let* jobs := retry_default jobs_all in
             let myJobs := List.filter (fun j => String.eqb (job_project j) myAddress) jobs in
             recover_own myJobs)
            (fun e => console_error "Failed to recover jobs:" (Some e))
      end
  end.

End Recovery.

(** * Vocabulary of the statements *)

(** ** C4: the policy of [retry] *)

Section RetryTerms.
Context `{Host}.

(** World after one failed attempt of [fn] and the wait that follows it. *)
Definition after_attempt {T} (fn : M T) (w : World) (delay : Z) : World :=
  snd (sleep delay (snd (fn w))).

End RetryTerms.

(** ** What a computation adds to the trace *)

Section TraceTerms.
Context `{Host}.

(** [f] only appends events, each satisfying [P]. *)
Definition appends {B} (P : Event -> Prop) (f : World -> B * World) : Prop :=
  forall w, exists evs, trace (snd (f w)) = trace w ++ evs /\ Forall P evs.

End TraceTerms.

(** ** C1: what a confidential launch makes public *)

(** [jobDefinition.k], [undefined] when the read throws. *)
Definition field (k : string) (d : json) : jsval :=
  match prop k (Some d) with
  | Ok v => v
  | Throw _ => None
  end.

(** [jobDefinition.logistics.k] when [jobDefinition.logistics] is truthy. *)
Definition logistics_entry (k : string) (d : json) : jsval :=
  if truthy (field "logistics" d) then
    match prop k (field "logistics" d) with
    | Ok e => e
    | Throw _ => None
    end
  else None.

(** The entry the dummy definition shows for [k]: the real one when it has
    type ['api'], the default listener otherwise. *)
Definition shown_entry (k : string) (d : json) : json :=
  if is_api_entry (logistics_entry k d)
  then default api_listen (logistics_entry k d)
  else api_listen.

(** An event that hands a definition to the content store or to the
    marketplace hands over the dummy definition of [d]. *)
Definition publishes_dummy_of (d : json) (ev : Event) : Prop :=
  match ev with
  | Ext (IpfsPin x) _ => dummy_definition d = Ok x
  | Ext (DeploymentsCreate q) _ => dummy_definition d = Ok (dp_job_definition q)
  | _ => True
  end.

(** An event that hands something to the content store or the marketplace. *)
Definition is_publication (ev : Event) : bool :=
  match ev with
  | Ext (IpfsPin _) _ | Ext (DeploymentsCreate _) _ => true
  | _ => false
  end.

(** The fields of a definition that [dummy_definition] reads. *)
Definition read_by_dummy : list string := ["version"; "type"; "meta"; "logistics"].

(** ** C6: the cache of delegated signatures *)


Definition is_fetch (ev : Event) : bool :=
  match ev with
  | Ext (Fetch _ _) _ => true
  | _ => false
  end.

Section SigningTerms.
Context `{Host}.



(** The clock read that opens a call, and the world after it. *)
Definition clock_now (w : World) : Z := fst (respond DateNow (env w)).

Definition after_clock (w : World) : World := snd (Date_now w).

End SigningTerms.

(** ** C10: the balance in API mode *)

Section BalanceTerms.
Context `{Host}.

(** The request [getBalance] sends with API key [k]. *)
Definition balance_http_request (k : string) : HttpRequest :=
  {| url := NOSANA_API_BASE_URL +:+ "/credits/balance"; method := "GET";
     headers := [("Content-Type", "application/json"); ("Authorization", "Bearer " +:+ k)];
     body := None |}.

(** [x] is finite and below 1e21 in magnitude. *)
Definition plain_number (x : float) : bool :=
  match Prim2SF x with
  | S754_zero _ => true
  | S754_finite _ m e => negb (at_least_1e21 m e)
  | _ => false
  end.

End BalanceTerms.

(** ** C8: no push without RUNNING *)

(** The job a successful [client.jobs.get] showed. *)
Definition observed (ev : Event) : option Job :=
  match ev with
  | Ext (JobsGet _) (Ok j) => Some j
  | _ => None
  end.

(** The jobs a run has seen, in order. *)
Definition observations (evs : list Event) : list Job := omap observed evs.

(** The 3 s wait that closes a polling round. *)
Definition is_poll_wait (ev : Event) : bool :=
  match ev with
  | Ext (SetTimeout ms) _ => ms =? 3000
  | _ => false
  end.

Definition poll_waits (evs : list Event) : nat := length (List.filter is_poll_wait evs).

(** Neither RUNNING nor ended: the loop polls again. *)
Definition still_waiting (j : Job) : bool :=
  negb (is_running (job_state j)) && negb (has_ended (job_state j)).

(** An event of the push phase: it reads no job and is no polling wait. *)
Definition past_polling (ev : Event) : Prop := observed ev = None /\ is_poll_wait ev = false.

(** What C8 says of the events [evs] of one handoff. *)
Definition aborts_without_running (evs : list Event) : Prop :=
  (poll_waits evs <= 600)%nat
  /\ (forallb (fun j => negb (is_running (job_state j))) (observations evs) = true ->
      Forall (fun ev => is_fetch ev = false) evs)
  /\ (forall j, In j (observations evs) -> has_ended (job_state j) = true ->
      Forall (fun ev => is_fetch ev = false) evs)
  /\ (poll_waits evs = 600%nat -> Forall (fun ev => is_fetch ev = false) evs).

(** ** C7: one retry of the push after a 4xx *)

(** A request that carries a definition to a node. *)
Definition is_push (ev : Event) : bool :=
  match ev with
  | Ext (Fetch BAny _) _ => true
  | _ => false
  end.



(** The pushes among the events [evs]. *)
Definition pushes (evs : list Event) : nat := length (List.filter is_push evs).

Section PushTerms.
Context `{Host}.

(** [f] only appends events, at most [n] pushes among them. *)
Definition adds_pushes {B} (n : nat) (f : World -> B * World) : Prop :=
  forall w, exists evs, trace (snd (f w)) = trace w ++ evs /\ (pushes evs <= n)%nat.



(** The answer the host gives to [c] in [w], and the world after the call. *)
Definition answer_to (c : ExtCall) (w : World) : RespTy c := fst (respond c (env w)).

Definition after_ext (c : ExtCall) (w : World) : World := snd (ext c w).

End PushTerms.

Section PushPolicy.
Context `{Host}.


End PushPolicy.

(** ** C2, C3, C9: the watch loop at a terminal state *)

(** What a pass of the loop does that the orchestrator or the registry of
    tasks can notice. *)
Inductive Notable : Type :=
| NHeartbeat (p : Heartbeat)
| NLaunch (jobDefinition : json) (marketAddress : string) (isConfidential : bool)
| NLaunchReturned (result : Result LaunchResult)
| NWatch (jobAddress orchestratorUrl : string).

Definition notable (ev : Event) : option Notable :=
  match ev with
  | Ext (Fetch _ req) _ =>
      match body req with
      | Some (HeartbeatBody p) => Some (NHeartbeat p)
      | _ => None
      end
  | CallLaunchJob d m c => Some (NLaunch d m c)
  | LaunchJobReturned r => Some (NLaunchReturned r)
  | Spawn (WatchLoopTask a u) => Some (NWatch a u)
  | _ => None
  end.

(** The notable events of a run, in order. *)
Definition summary (evs : list Event) : list Notable := omap notable evs.

Definition unremarkable (ev : Event) : Prop := notable ev = None.

(** The provisioning heartbeat that links the old instance to the new one. *)
Definition provisioning_payload (jobAddress : string) (newJob : LaunchResult) (r : Resources)
    : Heartbeat :=
  {| provider := "nosana"; provider_instance_id := lr_jobAddress newJob;
     old_provider_instance_id := Some jobAddress;
     hb_gpu_allocated := gpu_allocated r; hb_vcpu_allocated := vcpu_allocated r;
     hb_ram_gb_allocated := ram_gb_allocated r;
     health_score := 50; hb_state := "provisioning"; expose_url := None |}.

(** What the termination block does, by the decision it takes. *)
Definition decision_notes (jobAddress orchestratorUrl : string) (runtime : Z)
    (i : WatchedJobInfo) (launched : Result LaunchResult) : list Notable :=
  if userStopped i then []
  else if runtime <? MIN_RUNTIME_FOR_REDEPLOY_MS then [NHeartbeat (gone_payload jobAddress "failed")]
  else if truthy (Some (jobDefinition i)) && truthy (Some (JStr (marketAddress i))) then
    NLaunch (jobDefinition i) (marketAddress i) (isConfidential i)
    :: NLaunchReturned launched
    :: match launched with
       | Ok newJob =>
           [NHeartbeat (provisioning_payload jobAddress newJob (resources i));
            NWatch (lr_jobAddress newJob) orchestratorUrl]
       | Throw _ => [NHeartbeat (gone_payload jobAddress "failed")]
       end
  else [].

Section WatchTerms.
Context `{Host}.

(** [m] run in [w] ends with [r] in [w'], having done [notes]. *)
Definition runs {A} (m : M A) (w : World) (r : Result A) (w' : World) (notes : list Notable)
    : Prop :=
  m w = (r, w') /\ exists evs, trace w' = trace w ++ evs /\ summary evs = notes.

End WatchTerms.

Section TerminationTerms.
Context `{Host}.

(** The options [redeploy] gives to the new watch. *)
Definition carried_options (i : WatchedJobInfo) (newJob : LaunchResult) : WatchOptions :=
  {| opt_jobDefinition := Some (jobDefinition i);
     opt_marketAddress := Some (marketAddress i);
     opt_deploymentUuid := lr_deploymentUuid newJob;
     opt_isConfidential := Some (isConfidential i);
     opt_resources_allocated := Some (resources i) |}.

(** The conditions under which the termination block redeploys. *)
Definition redeploys (runtime : Z) (i : WatchedJobInfo) : bool :=
  negb (userStopped i)
  && negb (runtime <? MIN_RUNTIME_FOR_REDEPLOY_MS)
  && truthy (Some (jobDefinition i)) && truthy (Some (JStr (marketAddress i))).

End TerminationTerms.

Section TerminalTerms.
Context `{Host}.

(** The pass that starts in [w] observes a terminal state: the clock is
    read, [getJob] answers [job] leaving the world [wj], the registry still
    holds the entry [i] of the address, and the state of [job] is terminal. *)
Definition observes_terminal (jobAddress : string) (w : World) (job : GetJobResult)
    (wj : World) (i : WatchedJobInfo) : Prop :=
  getJob jobAddress (after_clock w) = (Ok job, wj)
  /\ watchedJobs (svc wj) !! jobAddress = Some i
  /\ isTerminated (jobState job) = true.

End TerminalTerms.

(** ** C5: reconnection of the log streamer *)

Module LogStreamerTerms.
Import LogStreamer.


(** What the ['close'] handler did, for each close event of a history. *)
Definition close_reactions (log : list (Input * list Output)) : list (list Output) :=
  omap (fun io => match fst io with
                  | OnClose _ _ _ _ => Some (snd io)
                  | _ => None
                  end) log.


End LogStreamerTerms.

(** ** Worlds and data of the examples *)

(** A definition whose operations name an image and a command, whose meta
    has a trigger and system requirements, and whose send entry is an API
    listener. *)
Definition demo_definition : json :=
  obj [("version", Some (JStr "0.1"));
       ("type", Some (JStr "container"));
       ("meta", Some (obj [("trigger", Some (JStr "dashboard"));
                           ("system_requirements",
                            Some (obj [("required_vram", Some (jnum 24))]))]));
       ("logistics", Some (obj [("send", Some (obj [("type", Some (JStr "api"));
                                                   ("args", Some (obj [("endpoint", Some (JStr "/out"))]))]))]));
       ("ops", Some (JArr [obj [("type", Some (JStr "container/run"));
                                ("id", Some (JStr "llm"));
                                ("args", Some (obj [("image", Some (JStr "registry/private-model"));
                                                    ("cmd", Some (JStr "serve --key SECRET"))]))]]))].

Definition demo_dummy : json :=
  match dummy_definition demo_definition with
  | Ok p => p
  | Throw _ => JNull
  end.

Definition signing_world : @World Scripted.host :=
  Scripted.world (Scripted.script 1000 (Ok (Scripted.a_job 1))) Scripted.api_service.


Definition world_with_job (state : Z) (service : Service) : @World Scripted.host :=
  Scripted.world (Scripted.script 1000 (Ok (Scripted.a_job state))) service.

(** A node that answers the pushes with the given statuses: the responses
    alternate between the signing endpoint (200) and the node. *)
Definition node_answers (statuses : list Z) : @World Scripted.host :=
  Scripted.world
    {| Scripted.clock := 1000; Scripted.job_answer := Ok (Scripted.a_job JobState.RUNNING);
       Scripted.pin_answer := Ok "QmDummy";
       Scripted.fetch_statuses := flat_map (fun st => [200; st]) statuses;
       Scripted.echo_message := true; Scripted.signed := 0 |}
    Scripted.api_service.


Definition header_value (k : string) (hs : list (string * string)) : option string :=
  match List.find (fun kv => String.eqb (fst kv) k) hs with
  | Some kv => Some (snd kv)
  | None => None
  end.

(** The pushes of a run, by the statuses the node answers with: the
    authorization of each push and whether the run ended on the error log. *)
Definition push_summary (statuses : list Z) : list (option string) * bool :=
  let tr := trace (snd (push_definition "JOB1" demo_definition "QmDummy"
                                        (Scripted.a_job JobState.RUNNING)
                                        (node_answers statuses))) in
  (omap (fun ev => match ev with
                   | Ext (Fetch BAny req) _ => Some (header_value "Authorization" (headers req))
                   | _ => None
                   end) tr,
   match last tr with
   | Some (Console Err _ _) => true
   | _ => false
   end).

Definition watched_entry : WatchedJobInfo :=
  {| jobAddress := "JOB1"; deploymentUuid := None; startTime := 0; lastExtendTime := 0;
     jobDefinition := demo_definition; marketAddress := "MARKET"; isConfidential := true;
     resources := {| gpu_allocated := 2; vcpu_allocated := 16; ram_gb_allocated := 64 |};
     userStopped := false; serviceUrl := None |}.

(** The service watching JOB1, at clock [now], the job being COMPLETED;
    [pin] is what pinning a definition gives. *)
Definition watching (now : Z) (pin : Result string) : @World Scripted.host :=
  Scripted.world
    {| Scripted.clock := now; Scripted.job_answer := Ok (Scripted.a_job JobState.COMPLETED);
       Scripted.pin_answer := pin; Scripted.fetch_statuses := [];
       Scripted.echo_message := true; Scripted.signed := 0 |}
    (with_watchedJobs {[ "JOB1" := watched_entry ]} Scripted.api_service).

Definition seen_job : GetJobResult :=
  {| gj_status := "success"; jobState := JobState.COMPLETED; gj_jobAddress := "JOB1";
     runAddress := "OWNER"; nodeAddress := "NODE1"; price := "1"; ipfsResult := None;
     gj_serviceUrl := None |}.

Definition after_getJob (w : @World Scripted.host) : @World Scripted.host :=
  snd (getJob "JOB1" (after_clock w)).

Definition ten_minutes : Z := 10 * 60 * 1000.

Definition twenty_five_minutes : Z := 25 * 60 * 1000.

(** ** Terms for the other properties *)

(** The delays [delay], [2 * delay], [4 * delay], ... of [k] retries. *)
Definition doubling (delay : Z) (k : nat) : list Z :=
  map (fun i => delay * 2 ^ Z.of_nat i) (seq 0 k).

(** The action of an audit record, if the event sends one. *)
Definition audit_of (ev : Event) : option string :=
  match ev with
  | Ext (Fetch _ req) _ =>
      match body req with
      | Some (AuditBody p) => Some (action p)
      | _ => None
      end
  | _ => None
  end.

(** The audit records sent by the events [evs], in order. *)
Definition audits (evs : list Event) : list string := omap audit_of evs.

Definition is_spawn (ev : Event) : bool :=
  match ev with
  | Spawn _ => true
  | _ => false
  end.

Definition is_ipfs_read (ev : Event) : bool :=
  match ev with
  | Ext (IpfsRetrieve _) _ => true
  | _ => false
  end.

Section MoreTerms.
Context `{Host}.

(** [m] returns whatever the host answers: it never throws. *)
Definition never_throws {A} (m : M A) : Prop :=
  forall w, exists a, fst (m w) = Ok a.

(** Running [f] takes the fields of the service along [R]. *)
Definition keeps {B} (R : Service -> Service -> Prop) (f : World -> B * World) : Prop :=
  forall w, R (svc w) (svc (snd (f w))).

(** Run from [w], [m] appends events whose observations by [obs] are [xs]. *)
Definition yields {A X} (obs : Event -> option X) (m : M A) (w : World) (xs : list X) : Prop :=
  exists evs, trace (snd (m w)) = trace w ++ evs /\ omap obs evs = xs.

(** [f] only appends events, at most [n] of them satisfying [p]. *)
Definition adds_at_most {B} (p : Event -> bool) (n : nat) (f : World -> B * World) : Prop :=
  forall w, exists evs,
    trace (snd (f w)) = trace w ++ evs /\ (length (List.filter p evs) <= n)%nat.

End MoreTerms.

(** The API key as [getApiAuthHeader] accepts it: set and not empty. *)
Definition configured_key (s : Service) : option string :=
  match apiKey s with
  | Some k => if String.eqb k "" then None else Some k
  | None => None
  end.

Section ApiTerms.
Context `{Host}.

(** The request [apiRequest] sends with the key [k]. *)
Definition api_http_request (k path method : string) (body : option Body) : HttpRequest :=
  {| url := NOSANA_API_BASE_URL +:+ path; method := method;
     headers := [("Content-Type", "application/json"); ("Authorization", "Bearer " +:+ k)];
     body := if String.eqb method "GET" then None else body |}.

(** What [apiRequest] makes of the answer to its request. *)
Definition api_outcome {t : BodyTy} (r : Result (HttpResponse (El t))) : Result (El t) :=
  match r with
  | Ok response =>
      if resp_ok response then resp_json response
      else Throw (Error ("Nosana API Error (" +:+ pretty (resp_status response) +:+ "): "
                         +:+ resp_text response))
  | Throw e => Throw e
  end.

End ApiTerms.

(** The real definition a handoff task is started with, if the event starts
    one. *)
Definition handoff_of (ev : Event) : option json :=
  match ev with
  | Spawn (HandoffTask _ realJobDefinition _ _) => Some realJobDefinition
  | _ => None
  end.

Section ReportTerms.
Context `{Host}.

(** [m] only appends events, and what [obs] sees of them is [on_return]
    when [m] returns and [on_throw] when it throws. *)
Definition reports {A X} (obs : Event -> option X) (m : M A) (on_return on_throw : list X)
    : Prop :=
  forall w, exists evs,
    trace (snd (m w)) = trace w ++ evs
    /\ omap obs evs = match fst (m w) with
                      | Ok _ => on_return
                      | Throw _ => on_throw
                      end.

End ReportTerms.

(** A transaction is signed and sent. *)
Definition is_signing (ev : Event) : bool :=
  match ev with
  | Ext (BuildSignAndSend _) _ => true
  | _ => false
  end.

(** A job that [stopJob] can stop: RUNNING (ended) or QUEUED (delisted). *)
Definition stoppable (j : Job) : bool :=
  (job_state j =? JobState.RUNNING) || (job_state j =? JobState.QUEUED).

(** Whatever the event hands to the content store or to the marketplace is
    the definition [d]. *)
Definition hands_over (d : json) (ev : Event) : Prop :=
  match ev with
  | Ext (IpfsPin x) _ => x = d
  | Ext (DeploymentsCreate q) _ => dp_job_definition q = d
  | _ => True
  end.

Definition is_pin (ev : Event) : bool :=
  match ev with
  | Ext (IpfsPin _) _ => true
  | _ => false
  end.

Definition is_deployment_create (ev : Event) : bool :=
  match ev with
  | Ext (DeploymentsCreate _) _ => true
  | _ => false
  end.

Definition is_deployment_get (ev : Event) : bool :=
  match ev with
  | Ext (DeploymentsGet _) _ => true
  | _ => false
  end.

Definition is_wait (ev : Event) : bool :=
  match ev with
  | Ext (SetTimeout _) _ => true
  | _ => false
  end.

(** [cachedJob?.serviceUrl], when it is truthy: the service URL the registry
    holds for the address. *)
Definition cached_url (s : Service) (jobAddress : string) : option string :=
  match watchedJobs s !! jobAddress with
  | Some c => if truthy (jstr_opt (serviceUrl c)) then serviceUrl c else None
  | None => None
  end.

(** From [s] to [s'] nothing has changed but, possibly, the service URL of
    the registry entry of [jobAddress]. *)
Definition url_noted (jobAddress : string) (s s' : Service) : Prop :=
  s' = s
  \/ exists i u,
       watchedJobs s !! jobAddress = Some i
       /\ s' = with_watchedJobs (<[jobAddress := set_serviceUrl u i]> (watchedJobs s)) s.

(** The entry [i'] is [i], but for its service URL. *)
Definition same_watch (i i' : WatchedJobInfo) : Prop :=
  i' = i \/ exists u, i' = set_serviceUrl u i.


(** The configuration of the service: everything but the registry. *)
Definition same_configuration (s s' : Service) : Prop :=
  privateKey s' = privateKey s /\ apiKey s' = apiKey s /\ authMode s' = authMode s
  /\ wallet s' = wallet s /\ cachedApiAuth s' = cachedApiAuth s.

(** The address of the job a watch is started for, if the event starts one. *)
Definition watch_of (ev : Event) : option string :=
  match ev with
  | Spawn (WatchLoopTask a _) => Some a
  | _ => None
  end.

(** The options [recoverJobs] gives to the watches it starts. *)
Definition recovery_options : WatchOptions :=
  {| opt_jobDefinition := None; opt_marketAddress := None; opt_deploymentUuid := None;
     opt_isConfidential := Some true;
     opt_resources_allocated :=
       Some {| gpu_allocated := 1; vcpu_allocated := 8; ram_gb_allocated := 32 |} |}.

(** From the registry [m] to [m']: every entry of [m] is in [m'] as it was,
    and the entries that [m'] has more are those of recovered watches. *)
Definition registry_recovered (m m' : gmap string WatchedJobInfo) : Prop :=
  (forall k i, m !! k = Some i -> m' !! k = Some i)
  /\ (forall k i', m' !! k = Some i' ->
        m !! k = Some i'
        \/ (m !! k = None /\ exists now, i' = new_jobInfo k now (Some recovery_options))).

(** An event that starts a task starts a watch, for an address that [m] did
    not hold and [m'] holds. *)
Definition starts_recovered_watch (m m' : gmap string WatchedJobInfo) (ev : Event) : Prop :=
  match ev with
  | Spawn (WatchLoopTask a _) => m !! a = None /\ m' !! a <> None
  | Spawn _ => False
  | _ => True
  end.

(** The answers of [getJobLogs] that do not come from the node. *)
Definition results_not_posted : JobLogs :=
  logs_only "pending" "Job is running or hasn't posted results yet.".

Definition is_store_access (ev : Event) : bool := is_ipfs_read ev || is_pin ev.

(** The balance is asked of the SDK ([client.api.credits.balance]). *)
Definition is_credits_read (ev : Event) : bool :=
  match ev with
  | Ext CreditsBalance _ => true
  | _ => false
  end.

(** The heartbeat of a running job: the resources of the entry, health 100,
    the service URL that [getJob] gave. *)
Definition ready_payload (jobAddress : string) (i : WatchedJobInfo) (job : GetJobResult)
    : Heartbeat :=
  {| provider := "nosana"; provider_instance_id := jobAddress;
     old_provider_instance_id := None;
     hb_gpu_allocated := gpu_allocated (resources i);
     hb_vcpu_allocated := vcpu_allocated (resources i);
     hb_ram_gb_allocated := ram_gb_allocated (resources i);
     health_score := 100; hb_state := "ready"; expose_url := gj_serviceUrl job |}.

(** The extension of a job is due: its time runs out within the threshold,
    and has not run out. *)
Definition extension_due (now : Z) (i : WatchedJobInfo) : bool :=
  let timeUntilTimeout := JOB_TIMEOUT_MS - (now - lastExtendTime i) in
  (timeUntilTimeout <=? EXTEND_THRESHOLD_MS) && (0 <? timeUntilTimeout).

(** A heartbeat is due: more than 30 s since the last one that was sent. *)
Definition heartbeat_due (now lastHeartbeat : Z) : bool := 30000 <? now - lastHeartbeat.

(** ** What a log streamer may do in reaction to an event *)

Module LogStreamerRules.
Import LogStreamer.

(** The output [o] is one that the handler of the input [i] may produce:
    a socket is opened only by [connect], called or fired by the
    reconnection timer, and to the node's address; a reconnection is
    scheduled only by a close event, 3000 ms later and for the same node and
    job; the connection check is set only by [connect], for 10 s; a socket
    is closed only by [close()]; a message is sent and the promise resolved
    only when a socket opens, and ['close'] is emitted only by a close
    event. *)
Definition allowed (i : Input) (o : Output) : Prop :=
  match o with
  | NewSocket _ url =>
      exists nodeAddress jobAddress,
        (i = CallConnect nodeAddress jobAddress
         \/ exists connecting, i = TimerFires (Reconnect nodeAddress jobAddress) connecting)
        /\ url = "wss://" +:+ nodeAddress +:+ ".node.k8s.prd.nos.ci"
  | SetTimer ms (Reconnect nodeAddress jobAddress) =>
      ms = 3000 /\ exists code reason, i = OnClose nodeAddress jobAddress code reason
  | SetTimer ms ConnectTimeout =>
      ms = 10000
      /\ exists nodeAddress jobAddress,
           i = CallConnect nodeAddress jobAddress
           \/ exists connecting, i = TimerFires (Reconnect nodeAddress jobAddress) connecting
  | SocketClose _ => i = CallClose
  | Send _ => exists nodeAddress jobAddress auth, i = OnOpen nodeAddress jobAddress (Ok auth)
  | Resolve => exists nodeAddress jobAddress auth, i = OnOpen nodeAddress jobAddress (Ok auth)
  | Emit EmitClose => exists nodeAddress jobAddress code reason,
                        i = OnClose nodeAddress jobAddress code reason
  | Emit (EmitLog _) => exists data, i = OnMessage data
  | _ => True
  end.

(** The fields that hold after every history. *)
Definition sound (st : State) : Prop :=
  maxRetries st = 10%nat /\ retryDelay st = 3000 /\ (retryCount st <= 10)%nat
  /\ match ws st with
     | Some id => (id < sockets st)%nat
     | None => True
     end.

End LogStreamerRules.

(** ** Worlds of the other examples *)

(** The SDK calls of the scripted host: the jobs of the market are the one
    job of the script; the signer made from a key has the address of the
    owner of that job. *)
Definition scripted_sdk : HostSdk Scripted.host :=
  @Build_HostSdk Scripted.host
    (fun _ (s : Scripted.Script) => (Ok {| accounts := None |}, s))
    (fun _ (s : Scripted.Script) => (Ok {| accounts := None |}, s))
    (fun s : Scripted.Script =>
       (match Scripted.job_answer s with
        | Ok j => Ok [j]
        | Throw e => Throw e
        end, s))
    (fun _ (s : Scripted.Script) => (Ok "OWNER", s)).

(** A wallet-mode service whose wallet is the owner of the scripted job, and
    a running job that nobody watches. *)
Definition owner_world : @World Scripted.host :=
  world_with_job JobState.RUNNING (with_wallet (Some "OWNER") Scripted.wallet_service).

(** An API-mode service whose requests to the dashboard are answered 500. *)
Definition failing_api_world : @World Scripted.host :=
  Scripted.world
    {| Scripted.clock := 1000; Scripted.job_answer := Ok (Scripted.a_job JobState.RUNNING);
       Scripted.pin_answer := Ok "QmDummy"; Scripted.fetch_statuses := [500];
       Scripted.echo_message := true; Scripted.signed := 0 |}
    Scripted.api_service.

(** The watched job of [watching], still running at the time [now]. *)
Definition watching_running (now : Z) : @World Scripted.host :=
  Scripted.world (Scripted.script now (Ok (Scripted.a_job JobState.RUNNING)))
                 (with_watchedJobs {[ "JOB1" := watched_entry ]} Scripted.api_service).

Definition seen_running : GetJobResult :=
  {| gj_status := "success"; jobState := JobState.RUNNING; gj_jobAddress := "JOB1";
     runAddress := "OWNER"; nodeAddress := "NODE1"; price := "1"; ipfsResult := None;
     gj_serviceUrl := None |}.

(** The watched job of [watching], when the job cannot be read. *)
Definition watching_unreadable : @World Scripted.host :=
  Scripted.world (Scripted.script 1000 (Throw (Error "connection refused")))
                 (with_watchedJobs {[ "JOB1" := watched_entry ]} Scripted.api_service).

Definition twenty_seven_minutes : Z := 27 * 60 * 1000.

(** * Properties *)

(** ** C4: the policy of [retry] *)

Section RetryFacts.
Context `{Host}.

Lemma retry_ok {T} (fn : M T) retries delay w v w1 :
  fn w = (Ok v, w1) -> retry fn retries delay w = (Ok v, w1).
Proof. intros E. destruct retries; simpl; unfold try_catch; rewrite E; reflexivity. Qed.

Lemma retry_other_failure {T} (fn : M T) retries delay w e w1 :
  fn w = (Throw e, w1) -> rate_limited e = false ->
  retry fn retries delay w = (Throw e, w1).
Proof.
  intros E R. destruct retries; simpl; unfold try_catch; rewrite E; [reflexivity|].
  rewrite R. reflexivity.
Qed.

Lemma retry_exhausted {T} (fn : M T) delay w : retry fn 0 delay w = fn w.
Proof. simpl. unfold try_catch. destruct (fn w) as [[v|e] w1]; reflexivity. Qed.

Lemma retry_rate_limited {T} (fn : M T) retries delay w e w1 :
  fn w = (Throw e, w1) -> rate_limited e = true ->
  retry fn (S retries) delay w = retry fn retries (delay * 2) (after_attempt fn w delay).
Proof.
  intros E R. simpl. unfold try_catch at 1. rewrite E, R.
  unfold bind, after_attempt. rewrite E. simpl.
  unfold sleep, ext_ok. destruct (ext (SetTimeout delay) w1) as [u w2]. reflexivity.
Qed.

(** C4, as the code has it.  With the default arguments: a failure whose
    message has neither "429" nor "Too Many Requests" is propagated from the
    first attempt, nothing else being done; an operation that fails with a
    rate-limit message every time is attempted six times (the first call and
    five retries) with waits of 500, 1000, 2000, 4000 and 8000 ms between the
    attempts, and the outcome is that of the sixth attempt. *)
Theorem retry_policy {T} (fn : M T) (w : World) :
  (forall e w1, fn w = (Throw e, w1) -> rate_limited e = false ->
     retry fn 5 500 w = (Throw e, w1))
  /\ ((forall w', exists e w1, fn w' = (Throw e, w1) /\ rate_limited e = true) ->
      retry fn 5 500 w
      = fn (fold_left (after_attempt fn) [500; 1000; 2000; 4000; 8000] w)).
Proof.
  split.
  - intros e w1 E R. apply retry_other_failure; assumption.
  - intros P. simpl fold_left.
    repeat match goal with
    | |- retry fn (S _) _ ?w0 = _ =>
        let e := fresh "e" in let w1 := fresh "w" in let E := fresh "E" in let R := fresh "R" in
        destruct (P w0) as (e & w1 & E & R);
        rewrite (retry_rate_limited fn _ _ w0 e w1 E R); clear e w1 E R
    end.
    apply retry_exhausted.
Qed.

End RetryFacts.

Lemma retry_policy_witness :
  retry (jobs_get "JOB1") 5 500 Throttled.world
  = jobs_get "JOB1"
      (fold_left (after_attempt (jobs_get "JOB1")) [500; 1000; 2000; 4000; 8000]
                 Throttled.world).
Proof.
  apply (proj2 (retry_policy (jobs_get "JOB1") Throttled.world)).
  intros w'. eexists _, _. split; [reflexivity | vm_compute; reflexivity].
Defined.

(** C4 as stated fails: a persistently rate-limited operation is attempted
    six times, not five, before the failure is propagated. *)
Lemma retry_five_attempts_counterexample :
  let w' := snd (retry (jobs_get "JOB1") 5 500 Throttled.world) in
  env w' = 6%nat
  /\ length (List.filter is_jobs_get (trace w')) = 6%nat
  /\ waits (trace w') = [500; 1000; 2000; 4000; 8000]
  /\ length (List.filter is_jobs_get (trace w')) <> 5%nat.
Proof. vm_compute. repeat split. discriminate. Qed.

(** ** What a computation adds to the trace *)

Section TraceFacts.
Context `{Host}.

Lemma appends_weaken {B} (P Q : Event -> Prop) (f : World -> B * World) :
  (forall ev, P ev -> Q ev) -> appends P f -> appends Q f.
Proof.
  intros PQ Hf w. destruct (Hf w) as (evs & E & F). exists evs. split; [exact E|].
  eapply Forall_impl; eauto.
Qed.

Lemma appends_ret {A} P (a : A) : appends P (ret a).
Proof. intros w. exists []. simpl. rewrite app_nil_r. auto. Qed.

Lemma appends_throw {A} P e : appends P (@throw _ A e).
Proof. intros w. exists []. simpl. rewrite app_nil_r. auto. Qed.

Lemma appends_lift {A} P (r : Result A) : appends P (lift r).
Proof. intros w. exists []. simpl. rewrite app_nil_r. auto. Qed.

Lemma appends_get_svc P : appends P get_svc.
Proof. intros w. exists []. simpl. rewrite app_nil_r. auto. Qed.

Lemma appends_modify_svc P f : appends P (modify_svc f).
Proof. intros w. exists []. simpl. rewrite app_nil_r. auto. Qed.

Lemma appends_emit (P : Event -> Prop) ev : P ev -> appends P (emit ev).
Proof. intros Pev w. exists [ev]. simpl. auto. Qed.

Lemma appends_ext (P : Event -> Prop) c : (forall r, P (Ext c r)) -> appends P (ext c).
Proof.
  intros Pc w. unfold ext. destruct (respond c (env w)) as [r e1]. exists [Ext c r].
  simpl. auto.
Qed.

Lemma appends_ext_ok (P : Event -> Prop) c : (forall r, P (Ext c r)) -> appends P (ext_ok c).
Proof.
  intros Pc w. unfold ext_ok. destruct (appends_ext P c Pc w) as (evs & E & F).
  destruct (ext c w) as [r w1]. exists evs. auto.
Qed.

Lemma appends_bind {A B} P (m : M A) (k : A -> M B) :
  appends P m -> (forall a, appends P (k a)) -> appends P (bind m k).
Proof.
  intros Hm Hk w. unfold bind. destruct (Hm w) as (evs & E & F).
  destruct (m w) as [[a|e] w1]; simpl in *.
  - destruct (Hk a w1) as (evs' & E' & F'). exists (evs ++ evs').
    rewrite E', E, app_assoc. split; [reflexivity | apply Forall_app; auto].
  - exists evs. auto.
Qed.

Lemma appends_try_catch {A} P (m : M A) (h : JsError -> M A) :
  appends P m -> (forall e, appends P (h e)) -> appends P (try_catch m h).
Proof.
  intros Hm Hh w. unfold try_catch. destruct (Hm w) as (evs & E & F).
  destruct (m w) as [[a|e] w1]; simpl in *.
  - exists evs. auto.
  - destruct (Hh e w1) as (evs' & E' & F'). exists (evs ++ evs').
    rewrite E', E, app_assoc. split; [reflexivity | apply Forall_app; auto].
Qed.

Lemma appends_noting {A} (P : Event -> Prop) (m : M A) note :
  appends P m -> (forall r, P (note r)) -> appends P (noting m note).
Proof.
  intros Hm Hn w. unfold noting. destruct (Hm w) as (evs & E & F).
  destruct (m w) as [r w1]. cbn [snd trace] in *. exists (evs ++ [note r]).
  rewrite E, app_assoc. split; [reflexivity|]. apply Forall_app. auto.
Qed.

Lemma appends_bind_lift_ok {A B} P (a : A) (k : A -> M B) :
  appends P (k a) -> appends P (bind (lift (Ok a)) k).
Proof. intros Hk w. exact (Hk w). Qed.

Lemma appends_bind_lift_throw {A B} P (e : JsError) (k : A -> M B) :
  appends P (bind (lift (Throw e)) k).
Proof. intros w. exists []. simpl. rewrite app_nil_r. auto. Qed.

Lemma appends_retry {T} P (fn : M T) retries delay :
  appends P fn -> (forall ms r, P (Ext (SetTimeout ms) r)) -> appends P (retry fn retries delay).
Proof.
  intros Hfn Hs. revert delay. induction retries as [|n IH]; intros delay; simpl.
  - apply appends_try_catch; [exact Hfn | intros; apply appends_throw].
  - apply appends_try_catch; [exact Hfn |]. intros e.
    destruct (rate_limited e); [| apply appends_throw].
    apply appends_bind; [| intros; apply IH].
    apply (appends_ext_ok P (SetTimeout delay)); auto.
Qed.

End TraceFacts.

(** Breaks a goal [appends P m] along the structure of [m]. *)
Ltac appends_step :=
  match goal with
  | |- appends _ (bind _ _) => apply appends_bind; [| intros ?]
  | |- appends _ (try_catch _ _) => apply appends_try_catch; [| intros ?]
  | |- appends _ (noting _ _) => apply appends_noting; [| intros ?]
  | |- appends _ (ret _) => apply appends_ret
  | |- appends _ (throw _) => apply appends_throw
  | |- appends _ (lift _) => apply appends_lift
  | |- appends _ get_svc => apply appends_get_svc
  | |- appends _ (modify_svc _) => apply appends_modify_svc
  | |- appends _ (emit _) => apply appends_emit
  | |- appends _ (console_warn _ _) => apply appends_emit
  | |- appends _ (console_error _ _) => apply appends_emit
  | |- appends ?P (ext ?c) => apply (appends_ext P c); intros ?
  | |- appends ?P (ext_ok ?c) => apply (appends_ext_ok P c); intros ?
  | |- appends _ (retry _ _ _) => apply appends_retry; [| intros ? ?]
  | |- appends _ (sleep _) => unfold sleep
  | |- appends _ Date_now => unfold Date_now
  | |- appends _ (fetch _ _) => unfold fetch
  | |- appends _ (address _) => unfold address
  | |- appends _ (ipfs_pin _) => unfold ipfs_pin
  | |- appends _ (ipfs_retrieve _) => unfold ipfs_retrieve
  | |- appends _ (jobs_get _) => unfold jobs_get
  | |- appends _ (jobs_post _ _ _) => unfold jobs_post
  | |- appends _ (jobs_extend _ _) => unfold jobs_extend
  | |- appends _ (buildSignAndSend _) => unfold buildSignAndSend
  | |- appends _ (deployments_create _) => unfold deployments_create
  | |- appends _ (deployments_get _) => unfold deployments_get
  | |- appends _ credits_balance => unfold credits_balance
  | |- appends _ (generateHeaders _) => unfold generateHeaders
  | |- appends _ (getJobExposedServices _ _) => unfold getJobExposedServices
  | |- appends _ (match ?x with _ => _ end) => destruct x
  | |- appends _ (if ?b then _ else _) => destruct b
  | |- appends _ (let (_, _) := ?x in _) => destruct x
  end.

(** ** C1: what a confidential launch makes public *)

Section LaunchFacts.
Context `{Host}.

Lemma js_or_some (v : jsval) (x : json) : exists y, js_or v (Some x) = Some y.
Proof.
  unfold js_or. destruct (truthy v) eqn:E; [| eauto].
  destruct v; [eauto | discriminate].
Qed.

Lemma shown_entry_some (k : string) (d : json) (l : jsval) :
  truthy l = true ->
  field "logistics" d = l ->
  (match prop k l with
   | Ok s => if is_api_entry s then s else Some api_listen
   | Throw _ => Some api_listen
   end) = Some (shown_entry k d).
Proof.
  intros T F. unfold shown_entry, logistics_entry. rewrite F, T.
  destruct (prop k l) as [s|e]; [| reflexivity].
  destruct (is_api_entry s) eqn:A; [| reflexivity].
  destruct s; [reflexivity | discriminate].
Qed.

Lemma dummy_definition_fields (d p : json) :
  dummy_definition d = Ok p ->
  exists version type,
    js_or (field "version" d) (Some (JStr "0.1")) = Some version /\
    js_or (field "type" d) (Some (JStr "container")) = Some type /\
    p = JObj (<["version" := version]> (<["type" := type]>
          (<["meta" := JObj (<["trigger" := JStr "cli"]> (spread (field "meta" d)))]>
          (<["logistics" := JObj (<["send" := shown_entry "send" d]>
                                 (<["receive" := shown_entry "receive" d]> ∅))]>
          (<["ops" := JArr []]> ∅))))).
Proof.
  unfold dummy_definition, field.
  destruct (prop "version" (Some d)) as [version|] eqn:Ev; [| destruct d; discriminate].
  destruct (prop "type" (Some d)) as [type|] eqn:Et; [| destruct d; discriminate].
  destruct (prop "meta" (Some d)) as [meta|] eqn:Em; [| destruct d; discriminate].
  destruct (prop "logistics" (Some d)) as [logistics|] eqn:El; [| destruct d; discriminate].
  intros E. injection E as <-.
  destruct (js_or_some version (JStr "0.1")) as [v Hv].
  destruct (js_or_some type (JStr "container")) as [t Ht].
  exists v, t. split; [exact Hv|]. split; [exact Ht|].
  assert (Fl : field "logistics" d = logistics) by (unfold field; rewrite El; reflexivity).
  assert (S1 : (if truthy logistics
                then match prop "send" logistics with
                     | Ok s => if is_api_entry s then s else Some api_listen
                     | Throw _ => Some api_listen
                     end
                else Some api_listen) = Some (shown_entry "send" d)).
  { destruct (truthy logistics) eqn:T; [apply shown_entry_some; assumption|].
    unfold shown_entry, logistics_entry. rewrite Fl, T. reflexivity. }
  assert (S2 : (if truthy logistics
                then match prop "receive" logistics with
                     | Ok s => if is_api_entry s then s else Some api_listen
                     | Throw _ => Some api_listen
                     end
                else Some api_listen) = Some (shown_entry "receive" d)).
  { destruct (truthy logistics) eqn:T; [apply shown_entry_some; assumption|].
    unfold shown_entry, logistics_entry. rewrite Fl, T. reflexivity. }
  rewrite S1, S2, Hv, Ht. reflexivity.
Qed.

End LaunchFacts.

Section LaunchTheorem.
Context `{Host}.

Lemma poll_job_address_appends (P : Event -> Prop) n u a h :
  (forall u' r, P (Ext (DeploymentsGet u') r)) -> (forall ms r, P (Ext (SetTimeout ms) r)) ->
  appends P (poll_job_address n u a h).
Proof.
  intros Pg Ps. revert a h. induction n as [|n IH]; intros a h; simpl.
  - apply appends_ret.
  - repeat appends_step; auto.
Qed.

Lemma poll_job_address_publishes d n u a h :
  appends (publishes_dummy_of d) (poll_job_address n u a h).
Proof. apply poll_job_address_appends; intros; exact I. Qed.

Lemma launchJob_publishes d market :
  appends (publishes_dummy_of d) (launchJob d market true).
Proof.
  unfold launchJob. apply appends_bind; [apply appends_emit; exact I | intros _].
  apply appends_noting; [| intros; exact I]. unfold launch_body.
  apply appends_try_catch; [| intros e; repeat appends_step; exact I].
  destruct (dummy_definition d) as [p|e] eqn:D.
  - apply appends_bind_lift_ok.
    unfold launch_api, launch_wallet, apiRequest, getApiAuthHeader, sendAuditLog.
    repeat first [ apply poll_job_address_publishes | appends_step ]; simpl; auto.
  - apply appends_bind_lift_throw.
Qed.

(** C1, as the code has it.  A launch with [isConfidential = true] hands to
    the content store (and, on the SDK fallback, to the deployments API) only
    the dummy definition.  That definition has exactly the fields version,
    type, meta, logistics and ops; its ops list is empty and it has no
    command or image; its version and type are the real ones or the defaults
    "0.1" and "container"; its meta is the whole real meta with the trigger
    set to "cli"; its logistics send and receive entries are the real ones
    when those have type 'api' and the 'api-listen' default with empty args
    otherwise.  Nothing of the real definition outside version, type, meta
    and logistics has any influence on it. *)
Theorem confidential_launch_publishes_placeholder
    (jobDefinition : json) (marketAddress : string) (w : World) :
  (exists evs,
      trace (snd (launchJob jobDefinition marketAddress true w)) = trace w ++ evs
      /\ Forall (publishes_dummy_of jobDefinition) evs)
  /\ (forall p, dummy_definition jobDefinition = Ok p ->
       exists fs, p = JObj fs
         /\ dom fs = {[ "version"; "type"; "meta"; "logistics"; "ops" ]}
         /\ fs !! "ops" = Some (JArr [])
         /\ fs !! "command" = None
         /\ fs !! "image" = None
         /\ fs !! "meta"
            = Some (JObj (<["trigger" := JStr "cli"]> (spread (field "meta" jobDefinition))))
         /\ fs !! "logistics"
            = Some (JObj (<["send" := shown_entry "send" jobDefinition]>
                         (<["receive" := shown_entry "receive" jobDefinition]> ∅)))
         /\ fs !! "version" = js_or (field "version" jobDefinition) (Some (JStr "0.1"))
         /\ fs !! "type" = js_or (field "type" jobDefinition) (Some (JStr "container")))
  /\ (forall d',
       (forall k, In k read_by_dummy -> prop k (Some d') = prop k (Some jobDefinition)) ->
       dummy_definition d' = dummy_definition jobDefinition).
Proof.
  split; [apply launchJob_publishes |]. split.
  - intros p D. destruct (dummy_definition_fields _ _ D) as (version & type & Hv & Ht & ->).
    eexists. split; [reflexivity |].
    rewrite Hv, Ht.
    split; [rewrite !dom_insert_L, dom_empty_L; set_solver |].
    repeat split; simplify_map_eq; reflexivity.
  - intros d' A. unfold dummy_definition.
    rewrite (A "version"), (A "type"), (A "meta"), (A "logistics");
      unfold read_by_dummy; simpl; auto.
Qed.

(** The handoff task that the launch starts, which holds the real
    definition, hands nothing to the content store or the marketplace. *)
Remark handoff_publishes_nothing jobAddress realJobDefinition dummyIpfsHash deploymentUuid :
  appends (fun ev => is_publication ev = false)
          (run_handoff jobAddress realJobDefinition dummyIpfsHash deploymentUuid).
Proof.
  assert (Poll : forall n addr job,
             appends (fun ev => is_publication ev = false) (poll_running n addr job)).
  { induction n as [|n IH]; intros addr job; simpl; [apply appends_ret|].
    apply appends_bind.
    - repeat appends_step; reflexivity.
    - intros [job' [c|]]; [apply appends_ret|].
      apply appends_bind; [| intros _; apply IH].
      unfold sleep. apply (appends_ext_ok _ (SetTimeout 3000)). reflexivity. }
  unfold run_handoff, waitForRunningAndSendDefinition.
  apply appends_try_catch; [| intros e; apply appends_emit; reflexivity].
  apply appends_bind; [repeat appends_step; reflexivity | intros addr].
  apply appends_bind; [apply Poll | intros [job how]].
  assert (Push : forall j, appends (fun ev => is_publication ev = false)
                                   (push_definition jobAddress realJobDefinition dummyIpfsHash j)).
  { intros j.
    unfold push_definition, resend_after_rejection, auth_headers, sendDef, record_service_url,
      generateApiNodeAuthHeader, signMessageExternal, sign_request, apiRequest,
      getApiAuthHeader.
    repeat appends_step; reflexivity. }
  destruct how; [| apply appends_ret |];
    (destruct job as [j|]; [| apply appends_emit; reflexivity]);
    (destruct (is_running (job_state j)); [apply Push | apply appends_emit; reflexivity]).
Qed.

End LaunchTheorem.

Lemma confidential_launch_publishes_placeholder_witness :
  exists fs, demo_dummy = JObj fs
    /\ fs !! "ops" = Some (JArr [])
    /\ fs !! "logistics"
       = Some (JObj (<["send" := shown_entry "send" demo_definition]>
                    (<["receive" := api_listen]> ∅))).
Proof.
  destruct (proj1 (proj2 (confidential_launch_publishes_placeholder
                            (H := Scripted.host) demo_definition "MARKET"
                            (Scripted.world (Scripted.script 0 (Ok (Scripted.a_job 1)))
                                            Scripted.api_service)))
                  demo_dummy) as (fs & E & _ & Hops & _ & _ & _ & Hlog & _).
  - vm_compute. reflexivity.
  - exists fs. split; [exact E |]. split; [exact Hops | exact Hlog].
Defined.

(** C1 as stated fails where it says that of the real meta only the trigger
    is retained: the dummy definition of [demo_definition] carries the real
    system requirements, and its trigger is "cli", not the real one. *)
Lemma placeholder_keeps_whole_meta_counterexample :
  exists fs meta,
    dummy_definition demo_definition = Ok (JObj fs)
    /\ fs !! "meta" = Some (JObj meta)
    /\ meta !! "system_requirements" = Some (obj [("required_vram", Some (jnum 24))])
    /\ meta !! "trigger" = Some (JStr "cli")
    /\ (exists real, field "meta" demo_definition = Some (JObj real)
                     /\ real !! "trigger" = Some (JStr "dashboard")
                     /\ real !! "system_requirements" = meta !! "system_requirements").
Proof.
  eexists _, _. split; [vm_compute; reflexivity|].
  split; [vm_compute; reflexivity|].
  split; [vm_compute; reflexivity|].
  split; [vm_compute; reflexivity|].
  eexists. split; [vm_compute; reflexivity|]. split; vm_compute; reflexivity.
Qed.

(** ** C6: the cache of delegated signatures *)

Section SigningFacts.
Context `{Host}.

Lemma Date_now_eq w : Date_now w = (Ok (clock_now w), after_clock w).
Proof.
  unfold after_clock, clock_now, Date_now, ext_ok, ext.
  destruct (respond DateNow (env w)); reflexivity.
Qed.

Lemma after_clock_svc w : svc (after_clock w) = svc w.
Proof.
  unfold after_clock, Date_now, ext_ok, ext. destruct (respond DateNow (env w)); reflexivity.
Qed.

Lemma after_clock_trace w : trace (after_clock w) = trace w ++ [Ext DateNow (clock_now w)].
Proof.
  unfold after_clock, clock_now, Date_now, ext_ok, ext.
  destruct (respond DateNow (env w)); reflexivity.
Qed.



End SigningFacts.

Section SigningTheorem.
Context `{Host}.






End SigningTheorem.


(** The cache is keyed by the [message] field of the reply: against an
    endpoint that answers with another message than the one it was asked to
    sign, a second call at the same instant sends a second request. *)
Remark cache_keyed_by_reply_message :
  let w0 := Scripted.world
              {| Scripted.clock := 1000; Scripted.job_answer := Ok (Scripted.a_job 1);
                 Scripted.pin_answer := Ok "QmDummy"; Scripted.fetch_statuses := [];
                 Scripted.echo_message := false; Scripted.signed := 0 |}
              Scripted.api_service in
  let w1 := snd (signMessageExternal SIGN_MESSAGE w0) in
  let w2 := snd (signMessageExternal SIGN_MESSAGE w1) in
  length (List.filter is_fetch (trace w1)) = 1%nat /\ length (List.filter is_fetch (trace w2)) = 2%nat.
Proof. vm_compute. split; reflexivity. Qed.

(** ** C10: the balance in API mode *)

Lemma length_append (a b : string) :
  String.length (a +:+ b) = (String.length a + String.length b)%nat.
Proof. induction a as [|c a IH]; simpl; [reflexivity | rewrite IH; reflexivity]. Qed.

Lemma length_zeros (k : nat) : String.length (zeros k) = k.
Proof. induction k as [|k IH]; simpl; [reflexivity | rewrite IH; reflexivity]. Qed.

Lemma length_substring (s : string) (n m : nat) :
  (n + m <= String.length s)%nat -> String.length (substring n m s) = m.
Proof.
  revert n m. induction s as [|c s IH]; intros n m L; simpl in *.
  - destruct n, m; simpl; lia.
  - destruct n as [|n].
    + destruct m as [|m]; simpl; [reflexivity|]. rewrite (IH 0%nat m); [reflexivity | lia].
    + apply IH. lia.
Qed.

(** The digits [toFixed] produces end in a point and [f] digits. *)
Lemma fixed_digits_shape (n : Z) (f : nat) :
  (0 < f)%nat ->
  exists a b, fixed_digits n f = a +:+ "." +:+ b /\ String.length b = f.
Proof.
  intros F. unfold fixed_digits. destruct (Nat.eqb_spec f 0); [lia|].
  eexists _, _. split; [reflexivity|]. apply length_substring.
  destruct (Nat.leb_spec (String.length (pretty n)) f).
  - rewrite length_append, length_zeros. lia.
  - lia.
Qed.

Section BalanceTheorem.
Context `{Host}.

Lemma toFixed_two_decimals (x : float) :
  plain_number x = true ->
  exists a b, toFixed x 2 = a +:+ "." +:+ b /\ String.length b = 2%nat.
Proof.
  unfold plain_number, toFixed. destruct (Prim2SF x) as [s|s| |s m e]; try discriminate.
  - intros _. apply fixed_digits_shape. lia.
  - intros P. apply negb_true_iff in P. rewrite P.
    destruct (fixed_digits_shape (nearest_scaled m e 2) 2) as (a & b & E & L); [lia|].
    rewrite E. exists ((if s then "-" else "") +:+ a), b. split; [| exact L].
    destruct s; reflexivity.
Qed.

(** C10.  In API mode, when the credits-balance endpoint answers with
    assigned, reserved and settled credits, [getBalance] returns sol = 0,
    address = "API_ACCOUNT" and nos = (assigned - reserved - settled)
    formatted by [toFixed(2)]; for a finite difference below 1e21 that text
    ends in a point and two digits. *)
Theorem api_balance (k : string) (w : World) (r : HttpResponse BalanceReply)
    (balance : BalanceReply) :
  authMode (svc w) = ApiMode -> apiKey (svc w) = Some k -> k <> "" ->
  fst (respond (Fetch BBalance (balance_http_request k)) (env w)) = Ok r ->
  resp_ok r = true -> resp_json r = Ok balance ->
  let availableCredits :=
    PrimFloat.sub (PrimFloat.sub (assignedCredits balance) (reservedCredits balance))
                  (settledCredits balance) in
  fst (getBalance w)
  = Ok {| sol := 0; nos := Some (JStr (toFixed availableCredits 2));
          bal_assignedCredits := Some (assignedCredits balance);
          bal_reservedCredits := Some (reservedCredits balance);
          bal_settledCredits := Some (settledCredits balance);
          bal_address := "API_ACCOUNT" |}
  /\ (plain_number availableCredits = true ->
      exists a b, toFixed availableCredits 2 = a +:+ "." +:+ b /\ String.length b = 2%nat).
Proof.
  intros A K Kne R O J availableCredits. split; [| apply toFixed_two_decimals].
  assert (T : truthy (jstr_opt (Some k)) = true).
  { simpl. destruct (String.eqb_spec k ""); [contradiction | reflexivity]. }
  unfold getBalance, bind at 1, get_svc. rewrite A.
  unfold try_catch, bind at 1, apiRequest, getApiAuthHeader, bind, get_svc, fetch, ext.
  rewrite K, T. simpl. fold (balance_http_request k).
  destruct (respond (Fetch BBalance (balance_http_request k)) (env w)) as [resp e1].
  simpl in R. subst resp. cbn [El] in *. rewrite O. simpl. unfold lift. rewrite J. reflexivity.
Qed.

End BalanceTheorem.

Lemma api_balance_witness :
  fst (getBalance signing_world)
  = Ok {| sol := 0; nos := Some (JStr "70.25");
          bal_assignedCredits := Some 100.5%float;
          bal_reservedCredits := Some 20.25%float;
          bal_settledCredits := Some 10%float;
          bal_address := "API_ACCOUNT" |}.
Proof.
  exact (proj1 (api_balance (H := Scripted.host) "KEY" signing_world
           {| resp_status := 200; resp_text := "body";
              resp_json := Ok {| assignedCredits := 100.5%float;
                                 reservedCredits := 20.25%float;
                                 settledCredits := 10%float |} |}
           {| assignedCredits := 100.5%float; reservedCredits := 20.25%float;
              settledCredits := 10%float |}
           eq_refl eq_refl ltac:(discriminate) eq_refl eq_refl eq_refl)).
Defined.

(** ** C5: reconnection of the log streamer *)

Module LogStreamerFacts.
Import LogStreamer LogStreamerTerms.

Section Facts.
Variable JSON_parse : string -> Result json.
Variable js_toString : jsval -> string.

Abbreviation step := (LogStreamer.step JSON_parse js_toString).
Abbreviation run := (LogStreamer.run JSON_parse js_toString).







End Facts.


(** The handler does not look at the code to decide: a closure with the
    normal code 1000 is rescheduled like any other. *)
Remark normal_close_reconnects_too :
  let st := fst (run (fun _ => Ok JNull) (fun _ => "")
                     (create true)
                     [CallConnect "NODE1" "JOB1"; OnOpen "NODE1" "JOB1" (Ok ("auth", "USER"))]) in
  snd (step (fun _ => Ok JNull) (fun _ => "") st (OnClose "NODE1" "JOB1" 1000 ""))
  = [SetTimer 3000 (Reconnect "NODE1" "JOB1")].
Proof. reflexivity. Qed.

(** Every ['open'] resets the count: eleven closures, each followed by a
    reconnection that opens, are all rescheduled and 'close' is never
    emitted. *)
Remark open_resets_the_budget :
  let outage := [OnClose "NODE1" "JOB1" 1006 "";
                 TimerFires (Reconnect "NODE1" "JOB1") true;
                 OnOpen "NODE1" "JOB1" (Ok ("auth", "USER"))] in
  close_reactions
    (snd (run (fun _ => Ok JNull) (fun _ => "") (create true)
              (CallConnect "NODE1" "JOB1" :: OnOpen "NODE1" "JOB1" (Ok ("auth", "USER"))
               :: concat (replicate 11 outage))))
  = replicate 11 [SetTimer 3000 (Reconnect "NODE1" "JOB1")].
Proof. vm_compute. reflexivity. Qed.

End LogStreamerFacts.

(** ** C8: no push without RUNNING *)

Lemma running_not_ended st : is_running st = true -> has_ended st = false.
Proof.
  unfold is_running, has_ended, JobState.RUNNING, JobState.COMPLETED, JobState.STOPPED.
  intros R. apply orb_true_iff in R. destruct R as [R|R]; apply Z.eqb_eq in R; subst; reflexivity.
Qed.

Lemma observations_app a b : observations (a ++ b) = observations a ++ observations b.
Proof. unfold observations. apply omap_app. Qed.

Lemma poll_waits_app a b : poll_waits (a ++ b) = (poll_waits a + poll_waits b)%nat.
Proof. unfold poll_waits. rewrite List.filter_app, List.length_app. reflexivity. Qed.

Section HandoffFacts.
Context `{Host}.

(** One guarded job read: no request, no 3 s wait, and the job it returns,
    if any, is the only one it saw. *)
Lemma retry_jobs_get_spec addr n d w :
  d mod 2000 = 0 ->
  exists evs,
    trace (snd (retry (jobs_get addr) n d w)) = trace w ++ evs
    /\ Forall (fun ev => is_fetch ev = false) evs
    /\ poll_waits evs = 0%nat
    /\ observations evs = match fst (retry (jobs_get addr) n d w) with
                          | Ok j => [j]
                          | Throw _ => []
                          end.
Proof.
  assert (One : forall w0 : World, exists r w1,
             jobs_get addr w0 = (r, w1)
             /\ trace w1 = trace w0 ++ [Ext (JobsGet addr) r]).
  { intros w0. unfold jobs_get, ext. destruct (respond (JobsGet addr) (env w0)) as [r e1].
    eexists _, _. split; reflexivity. }
  assert (Last : forall (w0 : World) r w1,
             trace w1 = trace w0 ++ [Ext (JobsGet addr) r] ->
             exists evs, trace w1 = trace w0 ++ evs
               /\ Forall (fun ev => is_fetch ev = false) evs
               /\ poll_waits evs = 0%nat
               /\ observations evs = match r with Ok j => [j] | Throw _ => [] end).
  { intros w0 r w1 T. exists [Ext (JobsGet addr) r]. split; [exact T|].
    split; [repeat constructor|]. split; [reflexivity|]. destruct r; reflexivity. }
  revert d w. induction n as [|n IH]; intros d w D; simpl; unfold try_catch;
    destruct (One w) as (r & w1 & E & T); rewrite E.
  - destruct r as [j|e]; simpl; apply (Last w _ w1 T).
  - destruct r as [j|e]; simpl; [apply (Last w _ w1 T) |].
    destruct (rate_limited e); [| apply (Last w _ w1 T)].
    unfold bind, sleep, ext_ok, ext.
    destruct (respond (SetTimeout d) (env w1)) as [u e2].
    match goal with
    | |- context [retry _ n _ ?w0] => destruct (IH (d * 2) w0) as (evs & T' & F & W & O)
    end.
    { rewrite Z.mul_comm, Z.mul_mod by lia. rewrite D. reflexivity. }
    exists (Ext (JobsGet addr) (Throw e) :: Ext (SetTimeout d) u :: evs).
    split; [rewrite T'; cbn [trace]; rewrite T, <- !app_assoc; reflexivity |].
    split; [repeat constructor; assumption|].
    split; [| exact O].
    unfold poll_waits in *. cbn [List.filter is_poll_wait].
    destruct (Z.eqb_spec d 3000) as [->|]; [discriminate D | exact W].
Qed.

End HandoffFacts.

Section PollFacts.
Context `{Host}.

Lemma sleep_run ms w :
  exists u, sleep ms w = (Ok tt, snd (sleep ms w))
            /\ trace (snd (sleep ms w)) = trace w ++ [Ext (SetTimeout ms) u]
            /\ svc (snd (sleep ms w)) = svc w.
Proof.
  unfold sleep, ext_ok, ext. destruct (respond (SetTimeout ms) (env w)) as [u e1].
  exists u. destruct u. repeat split.
Qed.

Lemma poll_running_step n addr job w :
  poll_running (S n) addr job w =
    match retry (jobs_get addr) 3 2000 w with
    | (Ok j, w1) =>
        if is_running (job_state j) then (Ok (Some j, PollBreak), w1)
        else if has_ended (job_state j) then
          (Ok (Some j, PollReturn),
           snd (console_warn "[Confidential] Job ended before we could send definition." None w1))
        else poll_running n addr (Some j) (snd (sleep 3000 w1))
    | (Throw _, w1) => poll_running n addr job (snd (sleep 3000 w1))
    end.
Proof.
  cbn [poll_running]. unfold bind at 1, try_catch, bind at 1.
  destruct (retry (jobs_get addr) 3 2000 w) as [[j|e] w1].
  - destruct (is_running (job_state j)); [reflexivity|].
    destruct (has_ended (job_state j)); [reflexivity|].
    cbn [ret]. unfold bind. destruct (sleep_run 3000 w1) as (u & -> & _). reflexivity.
  - cbn [ret]. unfold bind. destruct (sleep_run 3000 w1) as (u & -> & _). reflexivity.
Qed.

(** The polling loop sends nothing, waits at most [n] times, and leaves by
    [break] only on the first job it sees RUNNING, every job seen before
    being neither RUNNING nor ended. *)
Lemma poll_running_spec n addr job w :
  exists evs,
    trace (snd (poll_running n addr job w)) = trace w ++ evs
    /\ Forall (fun ev => is_fetch ev = false) evs
    /\ (poll_waits evs <= n)%nat
    /\ match fst (poll_running n addr job w) with
       | Ok (job', PollBreak) =>
           exists j pre, job' = Some j /\ is_running (job_state j) = true
                         /\ observations evs = pre ++ [j]
                         /\ forallb still_waiting pre = true
                         /\ (poll_waits evs < n)%nat
       | Ok (job', PollReturn) => True
       | Ok (job', PollExhausted) =>
           forallb still_waiting (observations evs) = true
           /\ (job' = job \/ exists j, job' = Some j /\ In j (observations evs))
           /\ poll_waits evs = n
       | Throw _ => False
       end.
Proof.
  revert job w. induction n as [|n IH]; intros job w.
  - exists []. simpl. rewrite app_nil_r. repeat split; auto.
  - rewrite poll_running_step.
    destruct (retry_jobs_get_spec addr 3 2000 w eq_refl) as (evs1 & T1 & F1 & W1 & O1).
    destruct (retry (jobs_get addr) 3 2000 w) as [[j|e] w1]; cbn [fst snd] in *.
    + destruct (is_running (job_state j)) eqn:R; [| destruct (has_ended (job_state j)) eqn:E].
      * exists evs1. cbn [fst snd]. split; [exact T1|]. split; [exact F1|].
        split; [lia|]. exists j, []. rewrite O1, W1. repeat split; auto; lia.
      * exists (evs1 ++ [Console Warn "[Confidential] Job ended before we could send definition." None]).
        cbn [fst snd console_warn emit trace]. rewrite T1, app_assoc.
        split; [reflexivity|]. split; [apply Forall_app; split; [exact F1 | repeat constructor]|].
        split; [| exact I]. rewrite poll_waits_app, W1. unfold poll_waits. simpl. lia.
      * destruct (sleep_run 3000 w1) as (u & _ & Ts & _).
        destruct (IH (Some j) (snd (sleep 3000 w1))) as (evs2 & T2 & F2 & W2 & P2).
        exists (evs1 ++ Ext (SetTimeout 3000) u :: evs2).
        split; [rewrite T2, Ts, T1, <- !app_assoc; reflexivity|].
        split; [apply Forall_app; split; [exact F1 | constructor; [reflexivity | exact F2]]|].
        assert (Wt : poll_waits (evs1 ++ Ext (SetTimeout 3000) u :: evs2) = S (poll_waits evs2)).
        { rewrite poll_waits_app, W1. reflexivity. }
        assert (Ot : observations (evs1 ++ Ext (SetTimeout 3000) u :: evs2)
                     = j :: observations evs2).
        { rewrite observations_app, O1. reflexivity. }
        assert (Sj : still_waiting j = true) by (unfold still_waiting; rewrite R, E; reflexivity).
        split; [lia|]. rewrite Ot, Wt.
        destruct (fst (poll_running n addr (Some j) (snd (sleep 3000 w1)))) as [[job' how]|];
          [destruct how | exact P2].
        -- destruct P2 as (j' & pre & -> & R' & O2 & S2 & L2).
           exists j', (j :: pre). rewrite O2. cbn [forallb]. rewrite Sj, S2.
           repeat split; auto; lia.
        -- exact I.
        -- destruct P2 as (S2 & J2 & W2').
           cbn [forallb]. rewrite Sj, S2, W2'. repeat split.
           right. destruct J2 as [-> | (j' & -> & I')]; [exists j | exists j']; simpl; auto.
    + destruct (sleep_run 3000 w1) as (u & _ & Ts & _).
      destruct (IH job (snd (sleep 3000 w1))) as (evs2 & T2 & F2 & W2 & P2).
      exists (evs1 ++ Ext (SetTimeout 3000) u :: evs2).
      split; [rewrite T2, Ts, T1, <- !app_assoc; reflexivity|].
      split; [apply Forall_app; split; [exact F1 | constructor; [reflexivity | exact F2]]|].
      assert (Wt : poll_waits (evs1 ++ Ext (SetTimeout 3000) u :: evs2) = S (poll_waits evs2)).
      { rewrite poll_waits_app, W1. reflexivity. }
      assert (Ot : observations (evs1 ++ Ext (SetTimeout 3000) u :: evs2) = observations evs2).
      { rewrite observations_app, O1. reflexivity. }
      split; [lia|]. rewrite Ot, Wt.
      destruct (fst (poll_running n addr job (snd (sleep 3000 w1)))) as [[job' how]|];
        [destruct how | exact P2]; auto.
      * destruct P2 as (j' & pre & -> & R' & O2 & S2 & L2).
        exists j', pre. repeat split; auto; lia.
      * destruct P2 as (S2 & J2 & W2'). rewrite W2'. auto.
Qed.

End PollFacts.

Lemma past_polling_observations evs : Forall past_polling evs -> observations evs = [].
Proof.
  induction 1 as [|ev evs [O _] _ IH]; [reflexivity|].
  unfold observations in *. simpl. rewrite O. exact IH.
Qed.

Lemma past_polling_waits evs : Forall past_polling evs -> poll_waits evs = 0%nat.
Proof.
  induction 1 as [|ev evs [_ W] _ IH]; [reflexivity|].
  unfold poll_waits in *. simpl. rewrite W. exact IH.
Qed.

Lemma no_fetch_aborts evs :
  (poll_waits evs <= 600)%nat -> Forall (fun ev => is_fetch ev = false) evs ->
  aborts_without_running evs.
Proof. intros W F. repeat split; auto. Qed.

Section HandoffTheorem.
Context `{Host}.

Lemma push_definition_past_polling jobAddress realJobDefinition dummyIpfsHash job :
  appends past_polling (push_definition jobAddress realJobDefinition dummyIpfsHash job).
Proof.
  unfold push_definition, resend_after_rejection, auth_headers, sendDef, record_service_url,
    generateApiNodeAuthHeader, signMessageExternal, sign_request, apiRequest, getApiAuthHeader.
  repeat appends_step; split; reflexivity.
Qed.

(** C8.  In one confidential handoff the polling loop waits 3 s at most 600
    times, and no request at all is sent (so the real definition reaches no
    node) when no job read of the handoff showed RUNNING, when some job read
    showed COMPLETED or STOPPED, or when all 600 waits were used. *)
Theorem handoff_aborts_without_running
    (jobAddress : string) (realJobDefinition : json) (dummyIpfsHash : string)
    (deploymentUuid : option string) (w : World) :
  exists evs,
    trace (snd (run_handoff jobAddress realJobDefinition dummyIpfsHash deploymentUuid w))
    = trace w ++ evs
    /\ aborts_without_running evs.
Proof.
  unfold run_handoff, waitForRunningAndSendDefinition, try_catch, bind at 1, address, ext.
  destruct (respond (Address jobAddress) (env w)) as [[addr|e] e1].
  - set (w1 := {| env := e1; trace := trace w ++ [Ext (Address jobAddress) (Ok addr)];
                  svc := svc w |}).
    unfold bind at 1.
    destruct (poll_running_spec 600 addr None w1) as (evs & T & F & W & P).
    destruct (poll_running 600 addr None w1) as [[[job' how]|e] w2]; cbn [fst snd] in *;
      [| contradiction].
    assert (Quiet : forall (w3 : World) tail,
              trace w3 = trace w2 ++ tail ->
              Forall (fun ev => is_fetch ev = false) tail -> poll_waits tail = 0%nat ->
              exists evs', trace w3 = trace w ++ evs' /\ aborts_without_running evs').
    { intros w3 tail T3 F3 W3. exists (Ext (Address jobAddress) (Ok addr) :: evs ++ tail).
      split; [rewrite T3, T; subst w1; cbn [trace]; rewrite <- !app_assoc; reflexivity|].
      apply no_fetch_aborts.
      - change (poll_waits (evs ++ tail) <= 600)%nat. rewrite poll_waits_app, W3. lia.
      - constructor; [reflexivity|]. apply Forall_app. auto. }
    assert (Timeout : forall w3 : World,
              w3 = snd (console_error "[Confidential] Timeout waiting for job to run." None w2) ->
              exists evs', trace w3 = trace w ++ evs' /\ aborts_without_running evs').
    { intros w3 ->. eapply Quiet; [reflexivity | repeat constructor | reflexivity]. }
    destruct how.
    + destruct P as (j & pre & -> & R & O & S & L).
      rewrite R.
      assert (Pushed : forall (w3 : World) tail,
                trace w3 = trace w2 ++ tail -> Forall past_polling tail ->
                exists evs', trace w3 = trace w ++ evs' /\ aborts_without_running evs').
      { intros w3 tail T3 P3. exists (Ext (Address jobAddress) (Ok addr) :: evs ++ tail).
        split; [rewrite T3, T; subst w1; cbn [trace]; rewrite <- !app_assoc; reflexivity|].
        assert (Obs : observations (Ext (Address jobAddress) (Ok addr) :: evs ++ tail)
                      = pre ++ [j]).
        { change (observations (evs ++ tail) = pre ++ [j]).
          rewrite observations_app, O, (past_polling_observations _ P3), app_nil_r.
          reflexivity. }
        assert (Wt : poll_waits (Ext (Address jobAddress) (Ok addr) :: evs ++ tail)
                     = poll_waits evs).
        { change (poll_waits (evs ++ tail) = poll_waits evs).
          rewrite poll_waits_app, (past_polling_waits _ P3). lia. }
        unfold aborts_without_running. rewrite Obs, Wt.
        split; [lia|]. split; [| split].
        - intros N. rewrite forallb_app in N. cbn [forallb] in N. rewrite R in N.
          rewrite andb_false_r in N. discriminate N.
        - intros j' I E. apply in_app_or in I. destruct I as [I | [<- | []]].
          + rewrite forallb_forall in S. specialize (S j' I).
            unfold still_waiting in S. rewrite E in S.
            rewrite andb_false_r in S. discriminate S.
          + rewrite (running_not_ended _ R) in E. discriminate E.
        - intros; lia. }
      destruct (push_definition_past_polling jobAddress realJobDefinition dummyIpfsHash j w2)
        as (tail & T3 & P3).
      destruct (push_definition jobAddress realJobDefinition dummyIpfsHash j w2)
        as [[u|e] w3]; cbn [fst snd] in *.
      * apply (Pushed w3 tail T3 P3).
      * apply (Pushed _ (tail ++ [Console Err "[Confidential] Failed to handoff definition"
                                          (Some e)])).
        -- unfold console_error, emit. cbn [snd trace]. rewrite T3, <- app_assoc. reflexivity.
        -- apply Forall_app. split; [exact P3 | repeat constructor].
    + cbn [ret fst snd]. apply (Quiet w2 []); [symmetry; apply app_nil_r | constructor | reflexivity].
    + destruct P as (S & J & _).
      destruct job' as [j|]; [| apply Timeout; reflexivity].
      destruct J as [J | (j' & J & I)]; [discriminate J|]. injection J as <-.
      rewrite forallb_forall in S. specialize (S j I). unfold still_waiting in S.
      apply andb_true_iff in S. destruct S as [S _]. apply negb_true_iff in S. rewrite S.
      apply Timeout; reflexivity.
  - exists [Ext (Address jobAddress) (Throw e);
            Console Err "[Confidential] Failed to handoff definition" (Some e)].
    cbn [snd console_error emit trace]. rewrite <- app_assoc.
    split; [reflexivity|]. apply no_fetch_aborts; [unfold poll_waits; simpl; lia|].
    repeat constructor.
Qed.

End HandoffTheorem.

Lemma handoff_aborts_without_running_witness :
  Forall (fun ev => is_fetch ev = false)
         (trace (snd (run_handoff "JOB1" demo_definition "QmDummy" None
                                  (world_with_job JobState.COMPLETED Scripted.api_service)))).
Proof.
  destruct (handoff_aborts_without_running (H := Scripted.host) "JOB1" demo_definition
              "QmDummy" None (world_with_job JobState.COMPLETED Scripted.api_service))
    as (evs & T & _ & _ & Ended & _).
  rewrite T. apply (Ended (Scripted.a_job JobState.COMPLETED)); [| reflexivity].
  vm_compute in T. subst evs. left. reflexivity.
Defined.

(** The same handoff for a job that is RUNNING signs, and posts the real
    definition to the node once. *)
Example handoff_pushes_when_running :
  let w' := snd (run_handoff "JOB1" demo_definition "QmDummy" None
                             (world_with_job JobState.RUNNING Scripted.api_service)) in
  omap (fun ev => match ev with
                  | Ext (Fetch _ req) _ => Some (url req, body req)
                  | _ => None
                  end) (trace w')
  = [("https://dashboard.k8s.prd.nos.ci/api/auth/sign-message/external",
      Some (JsonBody (obj [("message", Some (JStr SIGN_MESSAGE))])));
     ("https://NODE1.node.k8s.prd.nos.ci/job/JOB1/job-definition",
      Some (JsonBody demo_definition))].
Proof. vm_compute. reflexivity. Qed.

(** ** C7: one retry of the push after a 4xx *)

Section PushFacts.
Context `{Host}.

Lemma ext_eq c w : ext c w = (answer_to c w, after_ext c w).
Proof. unfold answer_to, after_ext, ext. destruct (respond c (env w)); reflexivity. Qed.

Lemma after_ext_trace c w : trace (after_ext c w) = trace w ++ [Ext c (answer_to c w)].
Proof. unfold answer_to, after_ext, ext. destruct (respond c (env w)); reflexivity. Qed.

Lemma after_ext_svc c w : svc (after_ext c w) = svc w.
Proof. unfold after_ext, ext. destruct (respond c (env w)); reflexivity. Qed.




End PushFacts.

Section PushTheorem.
Context `{Host}.


Lemma record_service_url_quiet jobAddress canonical domain d :
  appends (fun ev => is_push ev = false) (record_service_url jobAddress canonical domain d).
Proof. unfold record_service_url. repeat appends_step; reflexivity. Qed.



End PushTheorem.

Section PushCount.
Context `{Host}.

Lemma pushes_app a b : pushes (a ++ b) = (pushes a + pushes b)%nat.
Proof. unfold pushes. rewrite List.filter_app, List.length_app. reflexivity. Qed.

Lemma adds_quiet {B} (f : World -> B * World) :
  appends (fun ev => is_push ev = false) f -> adds_pushes 0 f.
Proof.
  intros Q w. destruct (Q w) as (evs & E & F). exists evs. split; [exact E|].
  clear E. induction F as [|ev evs P _ IH]; [reflexivity|].
  unfold pushes in *. simpl. rewrite P. exact IH.
Qed.

Lemma adds_weaken {B} a b (f : World -> B * World) :
  (a <= b)%nat -> adds_pushes a f -> adds_pushes b f.
Proof. intros L Hf w. destruct (Hf w) as (evs & E & C). exists evs. split; [exact E | lia]. Qed.

Lemma adds_bind {A B} a b (m : M A) (k : A -> M B) :
  adds_pushes a m -> (forall x, adds_pushes b (k x)) -> adds_pushes (a + b) (bind m k).
Proof.
  intros Hm Hk w. unfold bind. destruct (Hm w) as (evs & E & C).
  destruct (m w) as [[x|e] w1]; simpl in *.
  - destruct (Hk x w1) as (evs' & E' & C'). exists (evs ++ evs').
    rewrite E', E, app_assoc, pushes_app. split; [reflexivity | lia].
  - exists evs. split; [exact E | lia].
Qed.

Lemma adds_try_catch {A} a b (m : M A) (h : JsError -> M A) :
  adds_pushes a m -> (forall e, adds_pushes b (h e)) -> adds_pushes (a + b) (try_catch m h).
Proof.
  intros Hm Hh w. unfold try_catch. destruct (Hm w) as (evs & E & C).
  destruct (m w) as [[x|e] w1]; simpl in *.
  - exists evs. split; [exact E | lia].
  - destruct (Hh e w1) as (evs' & E' & C'). exists (evs ++ evs').
    rewrite E', E, app_assoc, pushes_app. split; [reflexivity | lia].
Qed.

Lemma adds_sendDef nodeUrl d hs : adds_pushes 1 (sendDef nodeUrl d hs).
Proof.
  unfold sendDef. apply (adds_bind 1 0).
  - intros w. unfold fetch, ext_ok, ext.
    destruct (respond _ (env w)) as [r env']. eexists [_]. split; reflexivity.
  - intros resp. apply adds_quiet. repeat appends_step.
Qed.

(** In either mode a handoff pushes the definition at most twice. *)
Remark at_most_two_pushes jobAddress realJobDefinition dummyIpfsHash job :
  adds_pushes 2 (push_definition jobAddress realJobDefinition dummyIpfsHash job).
Proof.
  unfold push_definition.
  apply (adds_try_catch 2 0); [| intros e; apply adds_quiet, appends_emit; reflexivity].
  apply (adds_bind 0 2).
  { apply adds_quiet. unfold auth_headers, generateApiNodeAuthHeader, signMessageExternal,
      sign_request, apiRequest, getApiAuthHeader.
    repeat appends_step; reflexivity. }
  intros hs. apply (adds_bind 2 0); [| intros _; apply adds_quiet, record_service_url_quiet].
  apply (adds_try_catch 1 1); [apply adds_sendDef | intros e].
  unfold resend_after_rejection.
  destruct (is_4xx e); [| apply (adds_weaken 0 1); [lia | apply adds_quiet, appends_throw]].
  apply (adds_bind 0 1); [apply adds_quiet, appends_emit; reflexivity | intros _].
  apply (adds_bind 0 1);
    [apply adds_quiet; unfold sleep; apply (appends_ext_ok _ (SetTimeout 5000)); reflexivity
    | intros _].
  apply (adds_bind 0 1); [apply adds_quiet, appends_get_svc | intros s0].
  apply (adds_bind 0 1); [| intros hs'; apply adds_sendDef].
  apply adds_quiet.
  unfold generateApiNodeAuthHeader, signMessageExternal, sign_request, apiRequest,
    getApiAuthHeader.
  repeat appends_step; reflexivity.
Qed.

End PushCount.


Example push_rejected_then_accepted :
  push_summary [403; 200]
  = ([Some "Hello Nosana Node!:sig0"; Some "Hello Nosana Node!:sig1"], false).
Proof. vm_compute. reflexivity. Qed.

Example push_rejected_twice :
  push_summary [403; 403; 200]
  = ([Some "Hello Nosana Node!:sig0"; Some "Hello Nosana Node!:sig1"], true).
Proof. vm_compute. reflexivity. Qed.

Example push_server_error :
  push_summary [500; 200] = ([Some "Hello Nosana Node!:sig0"], true).
Proof. vm_compute. reflexivity. Qed.

(** ** C2, C3, C9: the watch loop at a terminal state *)

Lemma summary_app a b : summary (a ++ b) = summary a ++ summary b.
Proof. unfold summary. apply omap_app. Qed.

Lemma summary_unremarkable evs : Forall unremarkable evs -> summary evs = [].
Proof.
  induction 1 as [|ev evs U _ IH]; [reflexivity|].
  unfold summary in *. simpl. rewrite U. exact IH.
Qed.

Section WatchFacts.
Context `{Host}.

Lemma runs_bind {A B} (m : M A) (k : A -> M B) w a w1 n1 r w2 n2 :
  runs m w (Ok a) w1 n1 -> runs (k a) w1 r w2 n2 -> runs (bind m k) w r w2 (n1 ++ n2).
Proof.
  intros (E1 & evs1 & T1 & S1) (E2 & evs2 & T2 & S2). split.
  - unfold bind. rewrite E1. exact E2.
  - exists (evs1 ++ evs2). rewrite T2, T1, app_assoc, summary_app, S1, S2. auto.
Qed.

Lemma runs_bind_throw {A B} (m : M A) (k : A -> M B) w e w1 n1 :
  runs m w (Throw e) w1 n1 -> runs (bind m k) w (Throw e) w1 n1.
Proof.
  intros (E1 & evs1 & T1 & S1). split; [unfold bind; rewrite E1; reflexivity | eauto].
Qed.

Lemma runs_try_ok {A} (m : M A) h w a w1 n1 :
  runs m w (Ok a) w1 n1 -> runs (try_catch m h) w (Ok a) w1 n1.
Proof.
  intros (E1 & evs1 & T1 & S1). split; [unfold try_catch; rewrite E1; reflexivity | eauto].
Qed.

Lemma runs_try_throw {A} (m : M A) h w e w1 n1 r w2 n2 :
  runs m w (Throw e) w1 n1 -> runs (h e) w1 r w2 n2 -> runs (try_catch m h) w r w2 (n1 ++ n2).
Proof.
  intros (E1 & evs1 & T1 & S1) (E2 & evs2 & T2 & S2). split.
  - unfold try_catch. rewrite E1. exact E2.
  - exists (evs1 ++ evs2). rewrite T2, T1, app_assoc, summary_app, S1, S2. auto.
Qed.

Lemma runs_ret {A} (a : A) w : runs (ret a) w (Ok a) w [].
Proof. split; [reflexivity|]. exists []. rewrite app_nil_r. auto. Qed.

(** A computation that appends only unremarkable events runs without notes. *)
Lemma runs_unremarkable {A} (m : M A) w :
  appends unremarkable m -> runs m w (fst (m w)) (snd (m w)) [].
Proof.
  intros Hm. split; [destruct (m w); reflexivity|].
  destruct (Hm w) as (evs & T & F). exists evs. split; [exact T|].
  apply summary_unremarkable. exact F.
Qed.

Lemma sendAuditLog_unremarkable action jobAddress details status :
  appends unremarkable (sendAuditLog action jobAddress details status).
Proof. unfold sendAuditLog. repeat appends_step; reflexivity. Qed.

Lemma sendAuditLog_total action jobAddress details status w :
  fst (sendAuditLog action jobAddress details status w) = Ok tt.
Proof.
  unfold sendAuditLog, try_catch, bind, fetch, ext.
  destruct (respond _ (env w)) as [[r|e] e1]; reflexivity.
Qed.

Lemma sendAuditLog_svc action jobAddress details status w :
  svc (snd (sendAuditLog action jobAddress details status w)) = svc w.
Proof.
  unfold sendAuditLog, try_catch, bind, fetch, ext.
  destruct (respond _ (env w)) as [[r|e] e1]; reflexivity.
Qed.

Lemma runs_sendAuditLog action jobAddress details status w :
  runs (sendAuditLog action jobAddress details status) w (Ok tt)
       (snd (sendAuditLog action jobAddress details status w)) [].
Proof.
  rewrite <- (sendAuditLog_total action jobAddress details status w).
  apply runs_unremarkable. apply sendAuditLog_unremarkable.
Qed.

Lemma runs_post_heartbeat_quiet orchestratorUrl payload w :
  runs (post_heartbeat_quiet orchestratorUrl payload) w (Ok tt)
       (snd (post_heartbeat_quiet orchestratorUrl payload w)) [NHeartbeat payload]
  /\ svc (snd (post_heartbeat_quiet orchestratorUrl payload w)) = svc w.
Proof.
  unfold runs, post_heartbeat_quiet, try_catch, bind, fetch, ext.
  destruct (respond _ (env w)) as [[r|e] e1]; cbn [ret fst snd trace svc];
    (split; [split; [reflexivity | eexists [_]; split; reflexivity] | reflexivity]).
Qed.

(** The heartbeat is one request, whatever becomes of it. *)
Lemma post_heartbeat_quiet_trace orchestratorUrl payload w :
  exists r,
    trace (snd (post_heartbeat_quiet orchestratorUrl payload w))
    = trace w ++ [Ext (Fetch BAny (heartbeat_request orchestratorUrl payload)) r].
Proof.
  unfold post_heartbeat_quiet, try_catch, bind, fetch, ext.
  destruct (respond _ (env w)) as [[r|e] e1]; eexists; reflexivity.
Qed.

End WatchFacts.

Section TerminationFacts.
Context `{Host}.

Lemma launch_body_unremarkable d market c : appends unremarkable (launch_body d market c).
Proof.
  unfold launch_body, launch_api, launch_wallet, apiRequest, getApiAuthHeader.
  repeat first [ apply sendAuditLog_unremarkable
               | apply poll_job_address_appends; intros; reflexivity
               | appends_step ]; reflexivity.
Qed.

(** A launch notes its call and its outcome, and nothing else notable. *)
Lemma runs_launchJob d market c w :
  runs (launchJob d market c) w (fst (launchJob d market c w)) (snd (launchJob d market c w))
       [NLaunch d market c; NLaunchReturned (fst (launchJob d market c w))].
Proof.
  set (w0 := {| env := env w; trace := trace w ++ [CallLaunchJob d market c]; svc := svc w |}).
  assert (E : launchJob d market c w = noting (launch_body d market c) LaunchJobReturned w0)
    by reflexivity.
  unfold runs. rewrite E. unfold noting.
  destruct (launch_body_unremarkable d market c w0) as (evs & T & F).
  destruct (launch_body d market c w0) as [r w1]. cbn [fst snd trace] in *.
  split; [reflexivity|].
  exists ([CallLaunchJob d market c] ++ evs ++ [LaunchJobReturned r]).
  split; [rewrite T; subst w0; cbn [trace]; rewrite <- !app_assoc; reflexivity|].
  rewrite !summary_app, (summary_unremarkable _ F). reflexivity.
Qed.

Lemma runs_watchJob_start jobAddress orchestratorUrl options w :
  runs (watchJob_start jobAddress orchestratorUrl options) w (Ok tt)
       (snd (watchJob_start jobAddress orchestratorUrl options w)) []
  /\ watchedJobs (svc (snd (watchJob_start jobAddress orchestratorUrl options w)))
     = <[jobAddress := new_jobInfo jobAddress (clock_now w) options]> (watchedJobs (svc w)).
Proof.
  set (jobInfo := new_jobInfo jobAddress (clock_now w) options).
  set (w0 := {| env := env (after_clock w); trace := trace (after_clock w);
                svc := with_watchedJobs (<[jobAddress := jobInfo]> (watchedJobs (svc w)))
                                        (svc w) |}).
  assert (E : watchJob_start jobAddress orchestratorUrl options w
              = sendAuditLog "WATCHDOG_STARTED" jobAddress
                  (Some (obj [("resources", Some (jresources (resources jobInfo)));
                              ("deploymentUuid", jstr_opt (options ≫= opt_deploymentUuid))]))
                  None w0).
  { unfold watchJob_start, bind at 1. rewrite Date_now_eq.
    unfold bind, modify_svc. cbn [svc env trace]. rewrite after_clock_svc. reflexivity. }
  unfold runs. rewrite E.
  match goal with
  | |- context [sendAuditLog ?a ?j ?d ?s w0] =>
      pose proof (runs_sendAuditLog a j d s w0) as (E' & evs & T & S);
      pose proof (sendAuditLog_svc a j d s w0) as Sv
  end.
  split.
  - split; [exact E'|].
    exists (Ext DateNow (clock_now w) :: evs). rewrite T. subst w0. cbn [trace].
    rewrite after_clock_trace, <- app_assoc. split; [reflexivity | exact S].
  - rewrite Sv. reflexivity.
Qed.

End TerminationFacts.

Section TerminationBlock.
Context `{Host}.

Lemma runs_emit ev w :
  runs (emit ev) w (Ok tt) (snd (emit ev w)) (summary [ev]) /\ svc (snd (emit ev w)) = svc w.
Proof. split; [split; [reflexivity | exists [ev]; split; reflexivity] | reflexivity]. Qed.

Lemma runs_notes {A} (m : M A) w r w' n n' : runs m w r w' n -> n = n' -> runs m w r w' n'.
Proof. intros R <-. exact R. Qed.

Lemma runs_redeploy jobAddress orchestratorUrl i w :
  let launched := fst (launchJob (jobDefinition i) (marketAddress i) (isConfidential i) w) in
  exists w',
    runs (redeploy jobAddress orchestratorUrl i) w (Ok tt) w'
         (NLaunch (jobDefinition i) (marketAddress i) (isConfidential i)
          :: NLaunchReturned launched
          :: match launched with
             | Ok newJob =>
                 [NHeartbeat (provisioning_payload jobAddress newJob (resources i));
                  NWatch (lr_jobAddress newJob) orchestratorUrl]
             | Throw _ => [NHeartbeat (gone_payload jobAddress "failed")]
             end)
    /\ match launched with
       | Ok newJob =>
           exists now,
             watchedJobs (svc w')
             = <[lr_jobAddress newJob :=
                   new_jobInfo (lr_jobAddress newJob) now (Some (carried_options i newJob))]>
                 (watchedJobs
                    (svc (snd (launchJob (jobDefinition i) (marketAddress i)
                                         (isConfidential i) w))))
       | Throw _ => True
       end.
Proof.
  intros launched. subst launched.
  pose proof (runs_launchJob (jobDefinition i) (marketAddress i) (isConfidential i) w) as L.
  destruct (launchJob (jobDefinition i) (marketAddress i) (isConfidential i) w)
    as [[newJob|e] wl] eqn:EL; cbn [fst snd] in *.
  - destruct (runs_post_heartbeat_quiet orchestratorUrl
                (provisioning_payload jobAddress newJob (resources i)) wl) as [Hb Sb].
    set (wh := snd (post_heartbeat_quiet orchestratorUrl
                      (provisioning_payload jobAddress newJob (resources i)) wl)) in *.
    destruct (runs_watchJob_start (lr_jobAddress newJob) orchestratorUrl
                (Some (carried_options i newJob)) wh) as [Ws Wr].
    set (ws := snd (watchJob_start (lr_jobAddress newJob) orchestratorUrl
                      (Some (carried_options i newJob)) wh)) in *.
    destruct (runs_emit (Spawn (WatchLoopTask (lr_jobAddress newJob) orchestratorUrl)) ws)
      as [Sp Ss].
    eexists. split.
    + unfold redeploy. apply runs_try_ok.
      eapply runs_notes;
        [eapply runs_bind; [exact L |
           eapply runs_bind; [exact Hb | eapply runs_bind; [exact Ws | exact Sp]]] |].
      reflexivity.
    + exists (clock_now wh). rewrite Ss, Wr, Sb. reflexivity.
  - destruct (runs_emit (Console Err "[auto-redeploy] Failed:" (Some e)) wl) as [Ce _].
    set (wc := snd (emit (Console Err "[auto-redeploy] Failed:" (Some e)) wl)) in *.
    destruct (runs_post_heartbeat_quiet orchestratorUrl (gone_payload jobAddress "failed") wc)
      as [Hb _].
    eexists. split; [| exact I].
    unfold redeploy.
    eapply runs_notes;
      [eapply runs_try_throw;
         [eapply runs_bind_throw; exact L |
          unfold console_error; eapply runs_bind; [exact Ce | exact Hb]] |].
    reflexivity.
Qed.

(** The termination block: it never throws, its notable events are those of
    the decision followed by the terminated heartbeat, the entry of the
    address is gone when it ends, and after a redeploy that succeeded for
    another address the registry holds the entry of the new watch. *)
Lemma runs_on_terminated jobAddress orchestratorUrl currentTime state i w :
  exists launched w',
    runs (on_terminated jobAddress orchestratorUrl currentTime state i) w (Ok tt) w'
         (decision_notes jobAddress orchestratorUrl (currentTime - startTime i) i launched
          ++ [NHeartbeat (gone_payload jobAddress "terminated")])
    /\ watchedJobs (svc w') !! jobAddress = None
    /\ (forall newJob,
          redeploys (currentTime - startTime i) i = true -> launched = Ok newJob ->
          lr_jobAddress newJob <> jobAddress ->
          exists now,
            watchedJobs (svc w') !! lr_jobAddress newJob
            = Some (new_jobInfo (lr_jobAddress newJob) now (Some (carried_options i newJob))))
    /\ (exists pre r,
          trace w'
          = trace w ++ pre
            ++ [Ext (Fetch BAny (heartbeat_request orchestratorUrl
                                   (gone_payload jobAddress "terminated"))) r]).
Proof.
  unfold on_terminated.
  match goal with
  | |- context [sendAuditLog ?a ?j ?d ?s] => pose proof (runs_sendAuditLog a j d s w) as Au;
      set (wa := snd (sendAuditLog a j d s w)) in *
  end.
  set (runtime := currentTime - startTime i).
  assert (Decide : exists launched wd,
            runs (if userStopped i then ret tt
                  else if runtime <? MIN_RUNTIME_FOR_REDEPLOY_MS
                  then post_heartbeat_quiet orchestratorUrl (gone_payload jobAddress "failed")
                  else if negb (userStopped i) && truthy (Some (jobDefinition i))
                          && truthy (Some (JStr (marketAddress i)))
                          && (MIN_RUNTIME_FOR_REDEPLOY_MS <=? runtime)
                  then redeploy jobAddress orchestratorUrl i
                  else ret tt) wa (Ok tt) wd
                 (decision_notes jobAddress orchestratorUrl runtime i launched)
            /\ (forall newJob,
                  redeploys runtime i = true -> launched = Ok newJob ->
                  exists now,
                    watchedJobs (svc wd) !! lr_jobAddress newJob
                    = Some (new_jobInfo (lr_jobAddress newJob) now
                                        (Some (carried_options i newJob))))).
  { unfold decision_notes, redeploys. destruct (userStopped i) eqn:U.
    - exists (Throw (Error "")), wa. split; [apply runs_ret | discriminate].
    - destruct (Z.ltb_spec runtime MIN_RUNTIME_FOR_REDEPLOY_MS) as [Short|Long].
      + exists (Throw (Error "")). eexists. split; [| discriminate].
        apply (runs_post_heartbeat_quiet orchestratorUrl (gone_payload jobAddress "failed") wa).
      + cbn [negb andb].
        destruct (Z.leb_spec MIN_RUNTIME_FOR_REDEPLOY_MS runtime) as [_|Bad]; [| lia].
        rewrite andb_true_r.
        destruct (truthy (Some (jobDefinition i)) && truthy (Some (JStr (marketAddress i)))).
        * destruct (runs_redeploy jobAddress orchestratorUrl i wa) as (wd & R & G).
          eexists _, wd. split; [exact R|]. intros newJob _ E. rewrite E in G.
          destruct G as (now & G). exists now. rewrite G. apply lookup_insert_eq.
        * exists (Throw (Error "")), wa. split; [apply runs_ret | discriminate]. }
  destruct Decide as (launched & wd & D & G).
  destruct (runs_post_heartbeat_quiet orchestratorUrl (gone_payload jobAddress "terminated") wd)
    as [Hb Sb].
  set (wh := snd (post_heartbeat_quiet orchestratorUrl
                    (gone_payload jobAddress "terminated") wd)) in *.
  exists launched. eexists. split; [| split; [| split]].
  - eapply runs_notes;
      [eapply runs_bind; [exact Au |
         eapply runs_bind; [exact D |
           eapply runs_bind; [exact Hb | ]]] |].
    + split; [reflexivity|]. exists []. rewrite app_nil_r. split; reflexivity.
    + cbn [app]. reflexivity.
  - cbn [snd svc with_watchedJobs watchedJobs]. apply lookup_delete_eq.
  - intros newJob Rd E Ne. destruct (G newJob Rd E) as (now & G').
    exists now. cbn [snd svc with_watchedJobs watchedJobs].
    rewrite lookup_delete_ne by congruence. rewrite Sb. exact G'.
  - destruct Au as (_ & evs1 & T1 & _). destruct D as (_ & evs2 & T2 & _).
    destruct (post_heartbeat_quiet_trace orchestratorUrl
                (gone_payload jobAddress "terminated") wd) as (r & T3).
    exists (evs1 ++ evs2), r. cbn [snd trace]. unfold wh. rewrite T3, T2, T1.
    rewrite <- !app_assoc. reflexivity.
Qed.

End TerminationBlock.

Lemma terminated_not_running state : isTerminated state = true -> is_running state = false.
Proof.
  unfold isTerminated, is_running, JobState.COMPLETED, JobState.STOPPED, JobState.RUNNING.
  intros T. repeat (apply orb_true_iff in T; destruct T as [T|T]);
    apply Z.eqb_eq in T; subst; reflexivity.
Qed.

Section TerminalTick.
Context `{Host}.

(** What a pass that observes a terminal state does. *)
Lemma terminal_tick jobAddress orchestratorUrl lastState lastHeartbeat w job wj i :
  observes_terminal jobAddress w job wj i ->
  exists launched w' evs,
    watch_tick jobAddress orchestratorUrl lastState lastHeartbeat w = (Ok Returned, w')
    /\ trace w' = trace wj ++ evs
    /\ summary evs
       = decision_notes jobAddress orchestratorUrl (clock_now w - startTime i) i launched
         ++ [NHeartbeat (gone_payload jobAddress "terminated")]
    /\ watchedJobs (svc w') !! jobAddress = None
    /\ (forall newJob,
          redeploys (clock_now w - startTime i) i = true -> launched = Ok newJob ->
          lr_jobAddress newJob <> jobAddress ->
          exists now,
            watchedJobs (svc w') !! lr_jobAddress newJob
            = Some (new_jobInfo (lr_jobAddress newJob) now (Some (carried_options i newJob))))
    /\ (exists pre r,
          evs = pre ++ [Ext (Fetch BAny (heartbeat_request orchestratorUrl
                                           (gone_payload jobAddress "terminated"))) r]).
Proof.
  intros (G & L & T).
  (* the audit of a state change, if any *)
  set (changed := negb (bool_decide (lastState = Some (jobState job)))).
  set (note_change :=
         if changed then
           do sendAuditLog "JOB_STATE_CHANGED" jobAddress
                (Some (obj [("old_state", Some (match lastState with
                                                | Some st => jnum st
                                                | None => JNull
                                                end));
                            ("new_state", Some (jnum (jobState job)))])) None then
           ret (Some (jobState job))
         else ret lastState).
  assert (Ch : exists ls wc evs0,
            note_change wj = (Ok ls, wc) /\ trace wc = trace wj ++ evs0
            /\ summary evs0 = [] /\ svc wc = svc wj).
  { subst note_change. destruct changed.
    - match goal with
      | |- context [sendAuditLog ?a ?j ?d ?s] =>
          pose proof (runs_sendAuditLog a j d s wj) as (E & evs0 & T0 & S0);
          pose proof (sendAuditLog_svc a j d s wj) as Sv
      end.
      eexists _, _, evs0. unfold bind. rewrite E. split; [reflexivity|]. auto.
    - exists lastState, wj, []. rewrite app_nil_r. auto. }
  destruct Ch as (ls & wc & evs0 & Ec & Tc & Sc & Svc).
  destruct (runs_on_terminated jobAddress orchestratorUrl (clock_now w) (jobState job) i wc)
    as (launched & w' & (Et & evs & Tt & St) & Gone & New & pre & r & Last).
  exists launched, w', (evs0 ++ evs).
  split; [| split; [| split; [| split; [| split]]]].
  - unfold watch_tick, try_catch, bind at 1. rewrite Date_now_eq.
    unfold bind at 1. rewrite G. unfold tick_with_job, bind at 1, get_svc. rewrite L.
    fold changed. fold note_change. unfold bind at 1. rewrite Ec.
    rewrite (terminated_not_running _ T). unfold bind at 1. cbn [ret]. rewrite T.
    unfold bind. rewrite Et. reflexivity.
  - rewrite Tt, Tc, app_assoc. reflexivity.
  - rewrite summary_app, Sc, St. reflexivity.
  - exact Gone.
  - exact New.
  - exists (evs0 ++ pre), r. rewrite Tt in Last. apply app_inv_head in Last.
    rewrite Last, <- app_assoc. reflexivity.
Qed.

(** C3.  When a pass observes a terminal state of a job that the user did
    not stop and whose runtime (the pass's clock read minus the start time)
    is below 20 minutes, the pass sends the "failed" heartbeat once, then
    the "terminated" heartbeat, calls [launchJob] not at all and starts no
    watch; the entry of the address is removed and the loop returns. *)
Theorem short_run_is_reported_failed
    (jobAddress orchestratorUrl : string) (lastState : option Z) (lastHeartbeat : Z)
    (w : World) (job : GetJobResult) (wj : World) (i : WatchedJobInfo) :
  observes_terminal jobAddress w job wj i ->
  userStopped i = false ->
  clock_now w - startTime i < MIN_RUNTIME_FOR_REDEPLOY_MS ->
  exists w' evs,
    watch_tick jobAddress orchestratorUrl lastState lastHeartbeat w = (Ok Returned, w')
    /\ trace w' = trace wj ++ evs
    /\ summary evs = [NHeartbeat (gone_payload jobAddress "failed");
                      NHeartbeat (gone_payload jobAddress "terminated")]
    /\ watchedJobs (svc w') !! jobAddress = None.
Proof.
  intros O U Short.
  destruct (terminal_tick jobAddress orchestratorUrl lastState lastHeartbeat w job wj i O)
    as (launched & w' & evs & E & T & S & Gone & _).
  exists w', evs. repeat split; try assumption.
  rewrite S. unfold decision_notes. rewrite U.
  destruct (Z.ltb_spec (clock_now w - startTime i) MIN_RUNTIME_FOR_REDEPLOY_MS); [reflexivity | lia].
Qed.

(** C9.  Every pass that observes a terminal state ends with the heartbeat
    "terminated" for the watched address, carrying 0 GPUs, 0 vCPUs, 0 GB of
    RAM and health 0; that request is the last thing the pass does outside,
    no other heartbeat of the pass says "terminated", the entry of the
    address is removed and the loop returns. *)
Theorem terminal_state_is_reported_terminated
    (jobAddress orchestratorUrl : string) (lastState : option Z) (lastHeartbeat : Z)
    (w : World) (job : GetJobResult) (wj : World) (i : WatchedJobInfo) :
  observes_terminal jobAddress w job wj i ->
  exists w' pre r final,
    watch_tick jobAddress orchestratorUrl lastState lastHeartbeat w = (Ok Returned, w')
    /\ trace w' = trace wj ++ pre ++ [Ext (Fetch BAny (heartbeat_request orchestratorUrl final)) r]
    /\ provider_instance_id final = jobAddress
    /\ hb_state final = "terminated"
    /\ hb_gpu_allocated final = 0 /\ hb_vcpu_allocated final = 0
    /\ hb_ram_gb_allocated final = 0 /\ health_score final = 0
    /\ Forall (fun n => match n with
                        | NHeartbeat p => hb_state p <> "terminated"
                        | _ => True
                        end) (summary pre)
    /\ watchedJobs (svc w') !! jobAddress = None.
Proof.
  intros O.
  destruct (terminal_tick jobAddress orchestratorUrl lastState lastHeartbeat w job wj i O)
    as (launched & w' & evs & E & T & S & Gone & _ & pre & r & Last).
  exists w', pre, r, (gone_payload jobAddress "terminated").
  split; [exact E|]. split; [rewrite T, Last; reflexivity|].
  repeat (split; [reflexivity|]). split; [| exact Gone].
  subst evs. rewrite summary_app in S. cbn in S. apply app_inj_tail in S. destruct S as [S _].
  rewrite S. unfold decision_notes.
  destruct (userStopped i); [constructor|].
  destruct (_ <? _); [repeat constructor; discriminate|].
  destruct (_ && _); [| constructor].
  destruct launched; repeat constructor; discriminate.
Qed.

(** C2, as the code has it.  When a pass observes a terminal state of a job
    that the user did not stop, whose definition and market are non-empty
    and whose runtime is 20 minutes or more, the pass calls [launchJob] once,
    with the same definition, market and confidentiality flag.  If the call
    returns a new job, the pass sends one "provisioning" heartbeat for the new
    address that names the old one and carries the entry's resources, starts
    one watch for the new address - registered with the same definition,
    market, flag and resources - and then reports "terminated".  If the call
    throws, the pass reports "failed" then "terminated" and starts no watch.
    Either way the old entry is removed and the loop returns. *)
Theorem long_run_is_redeployed
    (jobAddress orchestratorUrl : string) (lastState : option Z) (lastHeartbeat : Z)
    (w : World) (job : GetJobResult) (wj : World) (i : WatchedJobInfo) :
  observes_terminal jobAddress w job wj i ->
  userStopped i = false ->
  truthy (Some (jobDefinition i)) = true ->
  marketAddress i <> "" ->
  MIN_RUNTIME_FOR_REDEPLOY_MS <= clock_now w - startTime i ->
  exists launched w' evs,
    watch_tick jobAddress orchestratorUrl lastState lastHeartbeat w = (Ok Returned, w')
    /\ trace w' = trace wj ++ evs
    /\ summary evs
       = NLaunch (jobDefinition i) (marketAddress i) (isConfidential i)
         :: NLaunchReturned launched
         :: match launched with
            | Ok newJob =>
                [NHeartbeat (provisioning_payload jobAddress newJob (resources i));
                 NWatch (lr_jobAddress newJob) orchestratorUrl;
                 NHeartbeat (gone_payload jobAddress "terminated")]
            | Throw _ =>
                [NHeartbeat (gone_payload jobAddress "failed");
                 NHeartbeat (gone_payload jobAddress "terminated")]
            end
    /\ watchedJobs (svc w') !! jobAddress = None
    /\ (forall newJob,
          launched = Ok newJob -> lr_jobAddress newJob <> jobAddress ->
          exists entry,
            watchedJobs (svc w') !! lr_jobAddress newJob = Some entry
            /\ resources entry = resources i
            /\ jobDefinition entry = jobDefinition i
            /\ marketAddress entry = marketAddress i
            /\ isConfidential entry = isConfidential i
            /\ userStopped entry = false).
Proof.
  intros O U D M Long.
  assert (Mt : truthy (Some (JStr (marketAddress i))) = true).
  { simpl. destruct (String.eqb_spec (marketAddress i) ""); [contradiction | reflexivity]. }
  assert (Rd : redeploys (clock_now w - startTime i) i = true).
  { unfold redeploys. rewrite U, D, Mt.
    destruct (Z.ltb_spec (clock_now w - startTime i) MIN_RUNTIME_FOR_REDEPLOY_MS);
      [lia | reflexivity]. }
  destruct (terminal_tick jobAddress orchestratorUrl lastState lastHeartbeat w job wj i O)
    as (launched & w' & evs & E & T & S & Gone & New & _).
  exists launched, w', evs. split; [exact E|]. split; [exact T|]. split; [| split].
  - rewrite S. unfold decision_notes. rewrite U, D, Mt.
    destruct (Z.ltb_spec (clock_now w - startTime i) MIN_RUNTIME_FOR_REDEPLOY_MS); [lia|].
    destruct launched; reflexivity.
  - exact Gone.
  - intros newJob L Ne. destruct (New newJob Rd L Ne) as (now & R).
    eexists. split; [exact R|]. unfold new_jobInfo, carried_options. cbn.
    repeat split.
    + unfold js_or. rewrite D. reflexivity.
    + unfold str_or. destruct (String.eqb_spec (marketAddress i) ""); [contradiction | reflexivity].
Qed.

End TerminalTick.

(** ** C2, C3, C9 in the scripted host *)

Lemma watching_observes_terminal now pin :
  observes_terminal "JOB1" (watching now pin) seen_job (after_getJob (watching now pin))
                    watched_entry.
Proof. split; [| split]; reflexivity. Qed.

Lemma short_run_is_reported_failed_witness :
  let w := watching ten_minutes (Ok "QmDummy") in
  exists w' evs,
    watch_tick "JOB1" "http://orchestrator" (Some JobState.RUNNING) 0 w = (Ok Returned, w')
    /\ trace w' = trace (after_getJob w) ++ evs
    /\ summary evs = [NHeartbeat (gone_payload "JOB1" "failed");
                      NHeartbeat (gone_payload "JOB1" "terminated")]
    /\ watchedJobs (svc w') !! "JOB1" = None.
Proof.
  intros w.
  apply (short_run_is_reported_failed (H := Scripted.host) "JOB1" "http://orchestrator"
           (Some JobState.RUNNING) 0 w seen_job (after_getJob w) watched_entry).
  - split; [| split]; reflexivity.
  - reflexivity.
  - vm_compute. reflexivity.
Defined.

Lemma terminal_state_is_reported_terminated_witness :
  let w := watching twenty_five_minutes (Ok "QmDummy") in
  exists w' pre r final,
    watch_tick "JOB1" "http://orchestrator" (Some JobState.RUNNING) 0 w = (Ok Returned, w')
    /\ trace w' = trace (after_getJob w)
                  ++ pre ++ [Ext (Fetch BAny (heartbeat_request "http://orchestrator" final)) r]
    /\ provider_instance_id final = "JOB1"
    /\ hb_state final = "terminated"
    /\ hb_gpu_allocated final = 0 /\ hb_vcpu_allocated final = 0
    /\ hb_ram_gb_allocated final = 0 /\ health_score final = 0
    /\ Forall (fun n => match n with
                        | NHeartbeat p => hb_state p <> "terminated"
                        | _ => True
                        end) (summary pre)
    /\ watchedJobs (svc w') !! "JOB1" = None.
Proof.
  intros w.
  apply (terminal_state_is_reported_terminated (H := Scripted.host) "JOB1"
           "http://orchestrator" (Some JobState.RUNNING) 0 w seen_job (after_getJob w)
           watched_entry).
  split; [| split]; reflexivity.
Defined.

Lemma long_run_is_redeployed_witness :
  let w := watching twenty_five_minutes (Ok "QmDummy") in
  exists (launched : Result LaunchResult) w' evs,
    watch_tick "JOB1" "http://orchestrator" (Some JobState.RUNNING) 0 w = (Ok Returned, w')
    /\ trace w' = trace (after_getJob w) ++ evs
    /\ List.hd_error (summary evs) = Some (NLaunch demo_definition "MARKET" true)
    /\ watchedJobs (svc w') !! "JOB1" = None.
Proof.
  intros w.
  destruct (long_run_is_redeployed (H := Scripted.host) "JOB1" "http://orchestrator"
              (Some JobState.RUNNING) 0 w seen_job (after_getJob w) watched_entry)
    as (launched & w' & evs & E & T & S & Gone & _).
  - split; [| split]; reflexivity.
  - reflexivity.
  - reflexivity.
  - discriminate.
  - vm_compute. discriminate.
  - exists launched, w', evs. rewrite S. repeat split; assumption.
Defined.

(** The same pass when the redeploy goes well: one launch, the provisioning
    heartbeat from JOB1 to JOB2 with the entry's resources, one new watch,
    the terminated heartbeat. *)
Example redeploy_that_succeeds :
  summary (trace (snd (watch_tick "JOB1" "http://orchestrator" (Some JobState.RUNNING) 0
                                  (watching twenty_five_minutes (Ok "QmDummy")))))
  = [NLaunch demo_definition "MARKET" true;
     NLaunchReturned (Ok {| lr_status := "success"; lr_jobAddress := "JOB2";
                            lr_deploymentUuid := None; lr_ipfsHash := "QmDummy" |});
     NHeartbeat {| provider := "nosana"; provider_instance_id := "JOB2";
                   old_provider_instance_id := Some "JOB1";
                   hb_gpu_allocated := 2; hb_vcpu_allocated := 16; hb_ram_gb_allocated := 64;
                   health_score := 50; hb_state := "provisioning"; expose_url := None |};
     NWatch "JOB2" "http://orchestrator";
     NHeartbeat (gone_payload "JOB1" "terminated")].
Proof. vm_compute. reflexivity. Qed.

(** C2 as stated fails: with everything it asks for (terminal state, not
    stopped by the user, a definition and a market, 25 minutes of runtime)
    a redeploy whose [launchJob] throws sends no "provisioning" heartbeat and
    starts no watch; the pass reports "failed" instead. *)
Lemma failed_redeploy_starts_no_watch_counterexample :
  let w := watching twenty_five_minutes (Throw (Error "IPFS unavailable")) in
  observes_terminal "JOB1" w seen_job (after_getJob w) watched_entry
  /\ userStopped watched_entry = false
  /\ truthy (Some (jobDefinition watched_entry)) = true
  /\ marketAddress watched_entry <> ""
  /\ MIN_RUNTIME_FOR_REDEPLOY_MS <= clock_now w - startTime watched_entry
  /\ summary (trace (snd (watch_tick "JOB1" "http://orchestrator"
                                     (Some JobState.RUNNING) 0 w)))
     = [NLaunch demo_definition "MARKET" true;
        NLaunchReturned (Throw (Error "Nosana SDK Error: IPFS unavailable"));
        NHeartbeat (gone_payload "JOB1" "failed");
        NHeartbeat (gone_payload "JOB1" "terminated")].
Proof.
  intros w. split; [apply watching_observes_terminal|].
  split; [reflexivity|]. split; [reflexivity|]. split; [discriminate|].
  split; [vm_compute; discriminate | vm_compute; reflexivity].
Qed.

(** * Properties of the rest of the code *)

(** ** Tools *)

Section MoreTraceFacts.
Context `{Host}.

Lemma appends_host_call {HS : HostSdk H} {A} (P : Event -> Prop) (f : Env -> A * Env) :
  appends P (host_call f).
Proof.
  intros w. exists []. unfold host_call. destruct (f (env w)). simpl.
  rewrite app_nil_r. auto.
Qed.

(** *** Observations of a run *)

Lemma yields_quiet {A X} (obs : Event -> option X) (m : M A) w :
  appends (fun ev => obs ev = None) m -> yields obs m w [].
Proof.
  intros Q. destruct (Q w) as (evs & E & F). exists evs. split; [exact E|].
  clear E. induction F as [|ev evs P _ IH]; [reflexivity|]. simpl. rewrite P. exact IH.
Qed.

Lemma yields_sendAuditLog action jobAddress details status w :
  yields audit_of (sendAuditLog action jobAddress details status) w [action].
Proof.
  unfold yields, sendAuditLog, try_catch, bind, fetch, ext, console_error, emit.
  destruct (respond _ (env w)) as [[r|e] e1]; cbn [ret fst snd trace].
  - eexists [_]. split; reflexivity.
  - eexists [_; _]. rewrite <- app_assoc. split; reflexivity.
Qed.

(** *** Never throwing *)

Lemma never_throws_ret {A} (a : A) : never_throws (ret a).
Proof. intros w. exists a. reflexivity. Qed.

Lemma never_throws_bind {A B} (m : M A) (k : A -> M B) :
  never_throws m -> (forall a, never_throws (k a)) -> never_throws (bind m k).
Proof.
  intros Hm Hk w. unfold bind. destruct (Hm w) as (a & E).
  destruct (m w) as [r w1]. simpl in E. subst r. apply Hk.
Qed.

Lemma never_throws_try_catch {A} (m : M A) (h : JsError -> M A) :
  (forall e, never_throws (h e)) -> never_throws (try_catch m h).
Proof.
  intros Hh w. unfold try_catch. destruct (m w) as [[a|e] w1]; [exists a; reflexivity | apply Hh].
Qed.

Lemma never_throws_emit ev : never_throws (emit ev).
Proof. intros w. exists tt. reflexivity. Qed.

Lemma never_throws_sendAuditLog action jobAddress details status :
  never_throws (sendAuditLog action jobAddress details status).
Proof. intros w. exists tt. apply sendAuditLog_total. Qed.

(** *** What is kept of the service fields *)

Section Keeps.
Context (R : relation Service) `{!PreOrder R}.

Lemma keeps_same {B} (f : World -> B * World) :
  (forall w, svc (snd (f w)) = svc w) -> keeps R f.
Proof. intros E w. rewrite E. reflexivity. Qed.

Lemma keeps_ret {A} (a : A) : keeps R (ret a).
Proof. apply keeps_same. reflexivity. Qed.

Lemma keeps_throw {A} e : keeps R (@throw _ A e).
Proof. apply keeps_same. reflexivity. Qed.

Lemma keeps_lift {A} (r : Result A) : keeps R (lift r).
Proof. apply keeps_same. reflexivity. Qed.

Lemma keeps_get_svc : keeps R get_svc.
Proof. apply keeps_same. reflexivity. Qed.

Lemma keeps_emit ev : keeps R (emit ev).
Proof. apply keeps_same. reflexivity. Qed.

Lemma keeps_ext c : keeps R (ext c).
Proof. apply keeps_same. intros w. unfold ext. destruct (respond c (env w)). reflexivity. Qed.

Lemma keeps_ext_ok c : keeps R (ext_ok c).
Proof.
  apply keeps_same. intros w. unfold ext_ok, ext. destruct (respond c (env w)). reflexivity.
Qed.

Lemma keeps_host_call {HS : HostSdk H} {A} (f : Env -> A * Env) : keeps R (host_call f).
Proof. apply keeps_same. intros w. unfold host_call. destruct (f (env w)). reflexivity. Qed.

Lemma keeps_bind {A B} (m : M A) (k : A -> M B) :
  keeps R m -> (forall a, keeps R (k a)) -> keeps R (bind m k).
Proof.
  intros Hm Hk w. unfold bind. specialize (Hm w).
  destruct (m w) as [[a|e] w1]; simpl in *; [| exact Hm].
  etransitivity; [exact Hm | apply Hk].
Qed.

Lemma keeps_try_catch {A} (m : M A) (h : JsError -> M A) :
  keeps R m -> (forall e, keeps R (h e)) -> keeps R (try_catch m h).
Proof.
  intros Hm Hh w. unfold try_catch. specialize (Hm w).
  destruct (m w) as [[a|e] w1]; simpl in *; [exact Hm|].
  etransitivity; [exact Hm | apply Hh].
Qed.

Lemma keeps_noting {A} (m : M A) note : keeps R m -> keeps R (noting m note).
Proof. intros Hm w. unfold noting. specialize (Hm w). destruct (m w). exact Hm. Qed.

Lemma keeps_retry {T} (fn : M T) retries delay : keeps R fn -> keeps R (retry fn retries delay).
Proof.
  intros Hfn. revert delay. induction retries as [|n IH]; intros delay; simpl.
  - apply keeps_try_catch; [exact Hfn | intros; apply keeps_throw].
  - apply keeps_try_catch; [exact Hfn |]. intros e.
    destruct (rate_limited e); [| apply keeps_throw].
    apply keeps_bind; [apply (keeps_ext_ok (SetTimeout delay)) | intros; apply IH].
Qed.

End Keeps.

(** *** Counting events *)

Lemma adds_none {B} (p : Event -> bool) (f : World -> B * World) :
  appends (fun ev => p ev = false) f -> adds_at_most p 0 f.
Proof.
  intros Q w. destruct (Q w) as (evs & E & F). exists evs. split; [exact E|].
  clear E. induction F as [|ev evs P _ IH]; [reflexivity|]. simpl. rewrite P. exact IH.
Qed.

Lemma adds_more {B} (p : Event -> bool) a b (f : World -> B * World) :
  (a <= b)%nat -> adds_at_most p a f -> adds_at_most p b f.
Proof. intros L Hf w. destruct (Hf w) as (evs & E & C). exists evs. split; [exact E | lia]. Qed.

Lemma adds_in_bind {A B} (p : Event -> bool) a b (m : M A) (k : A -> M B) :
  adds_at_most p a m -> (forall x, adds_at_most p b (k x)) -> adds_at_most p (a + b) (bind m k).
Proof.
  intros Hm Hk w. unfold bind. destruct (Hm w) as (evs & E & C).
  destruct (m w) as [[x|e] w1]; simpl in *.
  - destruct (Hk x w1) as (evs' & E' & C'). exists (evs ++ evs').
    rewrite E', E, app_assoc, List.filter_app, List.length_app. split; [reflexivity | lia].
  - exists evs. split; [exact E | lia].
Qed.

Lemma adds_in_try_catch {A} (p : Event -> bool) a b (m : M A) (h : JsError -> M A) :
  adds_at_most p a m -> (forall e, adds_at_most p b (h e)) ->
  adds_at_most p (a + b) (try_catch m h).
Proof.
  intros Hm Hh w. unfold try_catch. destruct (Hm w) as (evs & E & C).
  destruct (m w) as [[x|e] w1]; simpl in *.
  - exists evs. split; [exact E | lia].
  - destruct (Hh e w1) as (evs' & E' & C'). exists (evs ++ evs').
    rewrite E', E, app_assoc, List.filter_app, List.length_app. split; [reflexivity | lia].
Qed.

Lemma adds_one_ext_ok (p : Event -> bool) c : adds_at_most p 1 (ext_ok c).
Proof.
  intros w. unfold ext_ok, ext. destruct (respond c (env w)) as [r e1]. exists [Ext c r].
  split; [reflexivity|]. simpl. destruct (p _); simpl; lia.
Qed.

Lemma adds_one_ext (p : Event -> bool) c : adds_at_most p 1 (ext c).
Proof.
  intros w. unfold ext. destruct (respond c (env w)) as [r e1]. exists [Ext c r].
  split; [reflexivity|]. simpl. destruct (p _); simpl; lia.
Qed.

End MoreTraceFacts.

(** Breaks a goal [keeps R m] along the structure of [m]. *)
Ltac keeps_step :=
  match goal with
  | |- keeps ?R (bind _ _) => apply (keeps_bind R); [| intros ?]
  | |- keeps ?R (try_catch _ _) => apply (keeps_try_catch R); [| intros ?]
  | |- keeps ?R (noting _ _) => apply (keeps_noting R)
  | |- keeps ?R (ret _) => apply (keeps_ret R)
  | |- keeps ?R (throw _) => apply (keeps_throw R)
  | |- keeps ?R (lift _) => apply (keeps_lift R)
  | |- keeps ?R get_svc => apply (keeps_get_svc R)
  | |- keeps ?R (emit _) => apply (keeps_emit R)
  | |- keeps ?R (console_warn _ _) => apply (keeps_emit R)
  | |- keeps ?R (console_error _ _) => apply (keeps_emit R)
  | |- keeps ?R (ext ?c) => apply (keeps_ext R c)
  | |- keeps ?R (ext_ok ?c) => apply (keeps_ext_ok R c)
  | |- keeps ?R (host_call _) => apply (keeps_host_call R)
  | |- keeps ?R (retry _ _ _) => apply (keeps_retry R)
  | |- keeps _ (retry_default _) => unfold retry_default
  | |- keeps _ (sleep _) => unfold sleep
  | |- keeps _ Date_now => unfold Date_now
  | |- keeps _ (fetch _ _) => unfold fetch
  | |- keeps _ (address _) => unfold address
  | |- keeps _ (ipfs_pin _) => unfold ipfs_pin
  | |- keeps _ (ipfs_retrieve _) => unfold ipfs_retrieve
  | |- keeps _ (jobs_get _) => unfold jobs_get
  | |- keeps _ (jobs_post _ _ _) => unfold jobs_post
  | |- keeps _ (jobs_extend _ _) => unfold jobs_extend
  | |- keeps _ (buildSignAndSend _) => unfold buildSignAndSend
  | |- keeps _ (deployments_create _) => unfold deployments_create
  | |- keeps _ (deployments_get _) => unfold deployments_get
  | |- keeps _ credits_balance => unfold credits_balance
  | |- keeps _ (generateHeaders _) => unfold generateHeaders
  | |- keeps _ (getJobExposedServices _ _) => unfold getJobExposedServices
  | |- keeps _ (jobs_end _) => unfold jobs_end
  | |- keeps _ (jobs_delist _) => unfold jobs_delist
  | |- keeps _ jobs_all => unfold jobs_all
  | |- keeps _ (signer_of_key _) => unfold signer_of_key
  | |- keeps _ (match ?x with _ => _ end) => destruct x
  | |- keeps _ (if ?b then _ else _) => destruct b
  | |- keeps _ (let (_, _) := ?x in _) => destruct x
  end.

(** [appends_step], and the calls answered through [HostSdk]. *)
Ltac appends_step' :=
  first [ appends_step
        | match goal with
          | |- appends _ (host_call _) => apply appends_host_call
          | |- appends _ (jobs_end _) => apply appends_host_call
          | |- appends _ (jobs_delist _) => apply appends_host_call
          | |- appends _ jobs_all => apply appends_host_call
          | |- appends _ (signer_of_key _) => apply appends_host_call
          | |- appends _ (retry_default _) => unfold retry_default
          end ].

(** ** [retry] *)

Section RetrySettles.
Context `{Host}.

Lemma doubling_S delay k : doubling delay (S k) = delay :: doubling (delay * 2) k.
Proof.
  unfold doubling. simpl. f_equal; [lia|].
  rewrite <- seq_shift, map_map. apply map_ext. intros i.
  rewrite Nat2Z.inj_succ, Z.pow_succ_r by lia. lia.
Qed.

(** X1.  [retry] goes on exactly as long as the attempts fail with a
    rate-limit message and retries are left: its outcome is that of attempt [k
    + 1] for some [k <= retries], made after waits of delay, 2 delay, ..., the
    [k] attempts before it all failed with a rate-limit message, and when
    retries were left ([k < retries]) that outcome is a success or a failure
    of another kind. *)
Theorem retry_settles {T} (fn : M T) (retries : nat) (delay : Z) (w : World) :
  exists k, (k <= retries)%nat
    /\ retry fn retries delay w = fn (fold_left (after_attempt fn) (doubling delay k) w)
    /\ (forall j, (j < k)%nat ->
          exists e, fst (fn (fold_left (after_attempt fn) (doubling delay j) w)) = Throw e
                    /\ rate_limited e = true)
    /\ ((k < retries)%nat ->
          match fst (retry fn retries delay w) with
          | Ok _ => True
          | Throw e => rate_limited e = false
          end).
Proof.
  revert delay w. induction retries as [|n IH]; intros delay w.
  - exists 0%nat. split; [lia|]. split; [apply retry_exhausted|]. split; intros; lia.
  - destruct (fn w) as [[v|e] w1] eqn:E.
    + exists 0%nat. split; [lia|]. rewrite (retry_ok fn _ _ w v w1 E).
      split; [simpl; congruence|]. split; [intros; lia | intros _; exact I].
    + destruct (rate_limited e) eqn:R.
      * rewrite (retry_rate_limited fn _ _ w e w1 E R).
        destruct (IH (delay * 2) (after_attempt fn w delay)) as (k & Le & Eq & Before & Settled).
        exists (S k). split; [lia|]. rewrite doubling_S. simpl fold_left.
        split; [exact Eq|]. split.
        -- intros [|j] Lt.
           ++ exists e. simpl. rewrite E. auto.
           ++ rewrite doubling_S. simpl fold_left. apply Before. lia.
        -- intros Lt. apply Settled. lia.
      * exists 0%nat. split; [lia|]. rewrite (retry_other_failure fn _ _ w e w1 E R).
        split; [simpl; congruence|]. split; [intros; lia | intros _; exact R].
Qed.

End RetrySettles.

(** ** [apiRequest], [getJobFromApi] *)

Section ApiFacts.
Context `{Host}.

Lemma getApiAuthHeader_eq w :
  getApiAuthHeader w
  = (match configured_key (svc w) with
     | Some k => Ok ("Bearer " +:+ k)
     | None => Throw (Error "API key not configured")
     end, w).
Proof.
  unfold getApiAuthHeader, configured_key, bind, get_svc.
  destruct (apiKey (svc w)) as [k|]; simpl; [| reflexivity].
  destruct (String.eqb k ""); reflexivity.
Qed.

Lemma apiRequest_eq t path method body w :
  apiRequest t path method body w
  = match configured_key (svc w) with
    | Some k =>
        (api_outcome (answer_to (Fetch t (api_http_request k path method body)) w),
         after_ext (Fetch t (api_http_request k path method body)) w)
    | None => (Throw (Error "API key not configured"), w)
    end.
Proof.
  unfold apiRequest. unfold bind at 1. rewrite getApiAuthHeader_eq.
  destruct (configured_key (svc w)) as [k|]; [| reflexivity].
  unfold bind, fetch.
  replace {| url := NOSANA_API_BASE_URL +:+ path; method := method;
             headers := [("Content-Type", "application/json"); ("Authorization", "Bearer " +:+ k)];
             body := if negb (String.eqb method "GET") then body else None |}
    with (api_http_request k path method body)
    by (unfold api_http_request; destruct (String.eqb method "GET"); reflexivity).
  rewrite ext_eq. unfold api_outcome.
  destruct (answer_to _ w) as [response|e]; [| reflexivity].
  destruct (resp_ok response); reflexivity.
Qed.

(** X2.  Without an API key [apiRequest] throws and sends nothing. With a key
    it sends one request: to the base URL and the path, with the JSON content
    type and the key as Bearer token, and without a body when the method is
    GET; the fields of the service stay as they are, and an answer outside
    200-299 is thrown as "Nosana API Error (status): text". *)
Theorem apiRequest_sends_one_authorized_request
    (t : BodyTy) (path method : string) (payload : option Body) (w : World) :
  match configured_key (svc w) with
  | None => apiRequest t path method payload w = (Throw (Error "API key not configured"), w)
  | Some k =>
      let c := Fetch t (api_http_request k path method payload) in
      fst (apiRequest t path method payload w) = api_outcome (answer_to c w)
      /\ trace (snd (apiRequest t path method payload w)) = trace w ++ [Ext c (answer_to c w)]
      /\ svc (snd (apiRequest t path method payload w)) = svc w
      /\ (method = "GET" -> body (api_http_request k path method payload) = None)
  end.
Proof.
  rewrite apiRequest_eq. destruct (configured_key (svc w)) as [k|]; [| reflexivity].
  cbn zeta. cbn [fst snd]. split; [reflexivity|].
  split; [apply after_ext_trace|]. split; [apply after_ext_svc|].
  intros ->. reflexivity.
Qed.

(** X3.  [getJobFromApi] never throws. In wallet mode it answers [null] and
    does nothing. In API mode whatever it answers other than [null] is the
    JSON body of a 2xx answer to the one request it sent, a GET of
    [/jobs/{address}] without a body; it leaves the service as it was. *)
Theorem getJobFromApi_answers_or_null (jobAddress : string) (w : World) :
  exists j,
    fst (getJobFromApi jobAddress w) = Ok j
    /\ svc (snd (getJobFromApi jobAddress w)) = svc w
    /\ (authMode (svc w) = WalletMode -> getJobFromApi jobAddress w = (Ok JNull, w))
    /\ (j = JNull
        \/ exists k response,
             configured_key (svc w) = Some k
             /\ trace (snd (getJobFromApi jobAddress w))
                = trace w ++ [Ext (Fetch BAny (api_http_request k ("/jobs/" +:+ jobAddress)
                                                                 "GET" None))
                                  (Ok response)]
             /\ resp_ok response = true
             /\ resp_json response = Ok j).
Proof.
  assert (Eq : getJobFromApi jobAddress w
               = match authMode (svc w) with
                 | WalletMode => (Ok JNull, w)
                 | ApiMode =>
                     try_catch (apiRequest BAny ("/jobs/" +:+ jobAddress) "GET" None)
                       (fun error =>
                          do console_warn "[API] Failed to get job details" (Some error) then
                          ret JNull) w
                 end).
  { unfold getJobFromApi, bind at 1, get_svc. destruct (authMode (svc w)); reflexivity. }
  rewrite Eq. clear Eq.
  destruct (authMode (svc w)) eqn:Mode.
  - exists JNull. split; [reflexivity|]. split; [reflexivity|]. split; [reflexivity | auto].
  - unfold try_catch. rewrite apiRequest_eq.
    destruct (configured_key (svc w)) as [k|] eqn:K.
    + set (c := Fetch BAny (api_http_request k ("/jobs/" +:+ jobAddress) "GET" None)).
      assert (T := after_ext_trace c w). assert (S := after_ext_svc c w).
      unfold api_outcome. destruct (answer_to c w) as [response|e] eqn:A.
      * destruct (resp_ok response) eqn:Okr.
        -- destruct (resp_json response) as [j|e] eqn:J.
           ++ exists j. split; [reflexivity|]. split; [exact S|]. split; [discriminate|].
              right. exists k, response. cbn [snd].
              split; [reflexivity|]. split; [exact T|]. split; assumption.
           ++ exists JNull. cbn. split; [reflexivity|]. split; [exact S|].
              split; [discriminate | auto].
        -- exists JNull. cbn. split; [reflexivity|]. split; [exact S|].
           split; [discriminate | auto].
      * exists JNull. cbn. split; [reflexivity|]. split; [exact S|].
        split; [discriminate | auto].
    + exists JNull. cbn. split; [reflexivity|]. split; [reflexivity|].
      split; [discriminate | auto].
Qed.

End ApiFacts.

(** ** What [extendJob], [stopJob] and [launchJob] report *)

Section ReportFacts.
Context `{Host}.

Section Reports.
Context {X : Type} (obs : Event -> option X).

Lemma reports_quiet {A} (m : M A) :
  appends (fun ev => obs ev = None) m -> reports obs m [] [].
Proof.
  intros Q w. destruct (yields_quiet obs m w Q) as (evs & E & O). exists evs.
  split; [exact E|]. rewrite O. destruct (fst (m w)); reflexivity.
Qed.

(** A step that [obs] sees nothing of, then the rest. *)
Lemma reports_after_quiet {A B} (m : M A) (k : A -> M B) xs :
  reports obs m [] [] -> (forall a, reports obs (k a) xs []) -> reports obs (bind m k) xs [].
Proof.
  intros Hm Hk w. unfold bind. destruct (Hm w) as (evs1 & T1 & A1).
  destruct (m w) as [[a|e] w1]; simpl in *.
  - destruct (Hk a w1) as (evs2 & T2 & A2).
    exists (evs1 ++ evs2). rewrite T2, T1, app_assoc, omap_app, A1, A2. auto.
  - exists evs1. auto.
Qed.

(** A step that always returns, then the rest. *)
Lemma reports_after_sure {A B} (m : M A) (k : A -> M B) xs ys zs :
  never_throws m -> reports obs m xs xs -> (forall a, reports obs (k a) ys zs) ->
  reports obs (bind m k) (xs ++ ys) (xs ++ zs).
Proof.
  intros N Hm Hk w. unfold bind. destruct (Hm w) as (evs1 & T1 & A1).
  destruct (N w) as (a & E). destruct (m w) as [r w1]. simpl in *. subst r.
  destruct (Hk a w1) as (evs2 & T2 & A2).
  exists (evs1 ++ evs2). rewrite T2, T1, app_assoc, omap_app, A1, A2.
  split; [reflexivity|]. destruct (fst (k a w1)); reflexivity.
Qed.

(** A [try] whose [catch] always throws. *)
Lemma reports_try_rethrow {A} (m : M A) (h : JsError -> M A) xs zs :
  reports obs m xs [] ->
  (forall e, reports obs (h e) zs zs) -> (forall e w, exists e', fst (h e w) = Throw e') ->
  reports obs (try_catch m h) xs zs.
Proof.
  intros Hm Hh Th w. unfold try_catch. destruct (Hm w) as (evs1 & T1 & A1).
  destruct (m w) as [[a|e] w1]; simpl in *.
  - exists evs1. auto.
  - destruct (Hh e w1) as (evs2 & T2 & A2). destruct (Th e w1) as (e' & E').
    exists (evs1 ++ evs2). rewrite T2, T1, app_assoc, omap_app, A1, A2, E'. auto.
Qed.

Lemma reports_sure {A} (m : M A) xs ys zs :
  never_throws m -> reports obs m xs ys -> reports obs m xs zs.
Proof.
  intros N Hm w. destruct (Hm w) as (evs & T & O). destruct (N w) as (a & E).
  exists evs. split; [exact T|]. rewrite O, E. reflexivity.
Qed.

Lemma reports_ret {A} (a : A) ys : reports obs (ret a) [] ys.
Proof. intros w. exists []. rewrite app_nil_r. auto. Qed.

Lemma reports_emit ev ys : reports obs (emit ev) (omap obs [ev]) ys.
Proof. intros w. exists [ev]. split; reflexivity. Qed.

Lemma reports_noting {A} (m : M A) note xs ys :
  (forall r, obs (note r) = None) -> reports obs m xs ys -> reports obs (noting m note) xs ys.
Proof.
  intros Q Hm w. unfold noting. destruct (Hm w) as (evs & T & O).
  destruct (m w) as [r w1]. simpl in *. exists (evs ++ [note r]).
  rewrite T, app_assoc, omap_app, O. simpl. rewrite Q, app_nil_r. auto.
Qed.

End Reports.

Lemma never_throws_console_error tag e : never_throws (console_error tag e).
Proof. apply never_throws_emit. Qed.

Lemma reports_sendAuditLog action jobAddress details status :
  reports audit_of (sendAuditLog action jobAddress details status) [action] [action].
Proof.
  intros w.
  destruct (yields_sendAuditLog action jobAddress details status w) as (evs & T & O).
  exists evs. split; [exact T|]. rewrite O. destruct (fst _); reflexivity.
Qed.

Lemma reports_record_then_return {A} action jobAddress details status (r : A) ys :
  reports audit_of (do sendAuditLog action jobAddress details status then ret r) [action] ys.
Proof.
  apply (reports_sure _ _ _ [action]).
  - apply never_throws_bind; [apply never_throws_sendAuditLog | intros; apply never_throws_ret].
  - apply (reports_after_sure _ _ _ [action] [] []).
    + apply never_throws_sendAuditLog.
    + apply reports_sendAuditLog.
    + intros _. apply reports_ret.
Qed.

(** The [catch] blocks of [extendJob] and [stopJob]. *)
Lemma reports_log_record_throw {A} tag action jobAddress details status e e' :
  reports audit_of
    (do console_error tag e then
     do sendAuditLog action jobAddress details status then @throw _ A e')
    [action] [action].
Proof.
  apply (reports_after_sure _ _ _ [] [action] [action]).
  - apply never_throws_console_error.
  - apply reports_quiet. apply appends_emit. reflexivity.
  - intros _. apply (reports_after_sure _ _ _ [action] [] []).
    + apply never_throws_sendAuditLog.
    + apply reports_sendAuditLog.
    + intros _. intros w. exists []. rewrite app_nil_r. auto.
Qed.

Lemma log_record_throw_throws {A} tag action jobAddress details status e e' w :
  fst ((do console_error tag e then
        do sendAuditLog action jobAddress details status then @throw _ A e') w) = Throw e'.
Proof.
  unfold bind, console_error, emit.
  destruct (sendAuditLog _ _ _ _ _) as [r w1] eqn:E.
  assert (T := sendAuditLog_total action jobAddress details status
                 {| env := env w; trace := trace w ++ [Console Err tag e]; svc := svc w |}).
  rewrite E in T. simpl in T. subst r. reflexivity.
Qed.

Lemma try_catch_throw_inv {A} (m : M A) (h : JsError -> M A) w e :
  fst (try_catch m h w) = Throw e ->
  exists e0 w1, m w = (Throw e0, w1) /\ fst (h e0 w1) = Throw e.
Proof.
  unfold try_catch. destruct (m w) as [[a|e0] w1]; [discriminate | eauto].
Qed.

Lemma apiRequest_no_audit t path method payload :
  match payload with Some (AuditBody _) => False | _ => True end ->
  appends (fun ev => audit_of ev = None) (apiRequest t path method payload).
Proof.
  intros NA. unfold apiRequest, getApiAuthHeader. repeat appends_step.
  simpl. destruct (negb _); [destruct payload as [[]|]|]; (reflexivity || contradiction).
Qed.

Lemma extendJob_reports jobAddress duration :
  reports audit_of (extendJob jobAddress duration) ["JOB_EXTENDED"] ["JOB_EXTEND_FAILED"].
Proof.
  unfold extendJob. apply reports_try_rethrow.
  - apply reports_after_quiet; [apply reports_quiet; repeat appends_step; reflexivity|].
    intros addr. apply reports_after_quiet; [apply reports_quiet, appends_get_svc|].
    intros s. destruct (authMode s).
    + apply reports_after_quiet; [apply reports_quiet; repeat appends_step; reflexivity|].
      intros instruction.
      apply reports_after_quiet; [apply reports_quiet; repeat appends_step; reflexivity|].
      intros signature. apply reports_record_then_return.
    + apply reports_after_quiet; [apply reports_quiet, apiRequest_no_audit; exact I|].
      intros result. apply reports_record_then_return.
  - intros e. apply reports_log_record_throw.
  - intros e w. eexists. apply log_record_throw_throws.
Qed.

Lemma extendJob_keeps jobAddress duration : keeps eq (extendJob jobAddress duration).
Proof. unfold extendJob, apiRequest, getApiAuthHeader, sendAuditLog. repeat keeps_step. Qed.

(** X4.  [extendJob] leaves the fields of the service as they are (it is the
    watch loop that notes the time of an extension); it sends exactly one
    audit record, JOB_EXTENDED when it returns and JOB_EXTEND_FAILED when it
    throws; and what it throws is "Nosana SDK Error: " and the message of the
    failure. *)
Theorem extendJob_is_audited (jobAddress : string) (duration : Z) :
  reports audit_of (extendJob jobAddress duration) ["JOB_EXTENDED"] ["JOB_EXTEND_FAILED"]
  /\ keeps eq (extendJob jobAddress duration)
  /\ (forall w e, fst (extendJob jobAddress duration w) = Throw e ->
        exists m, message e = Some ("Nosana SDK Error: " +:+ m)).
Proof.
  split; [apply extendJob_reports | split; [apply extendJob_keeps|]].
  intros w e E. apply try_catch_throw_inv in E. destruct E as (e0 & w1 & _ & E).
  rewrite log_record_throw_throws in E. injection E as <-. eexists. reflexivity.
Qed.

End ReportFacts.

(** ** [stopJob] *)

Section StopFacts.
Context {H : Host} {HS : HostSdk H}.

(** A guarded job read only reads the job and waits, and the job it
    returns, if any, is the only one it saw. *)
Lemma retry_jobs_get_observed (P : Event -> Prop) addr n d w :
  (forall a r, P (Ext (JobsGet a) r)) -> (forall ms r, P (Ext (SetTimeout ms) r)) ->
  exists evs,
    trace (snd (retry (jobs_get addr) n d w)) = trace w ++ evs
    /\ Forall P evs
    /\ observations evs = match fst (retry (jobs_get addr) n d w) with
                          | Ok j => [j]
                          | Throw _ => []
                          end.
Proof.
  intros Pg Ps.
  assert (One : forall w0 : World, exists r w1,
             jobs_get addr w0 = (r, w1)
             /\ trace w1 = trace w0 ++ [Ext (JobsGet addr) r]).
  { intros w0. unfold jobs_get, ext. destruct (respond (JobsGet addr) (env w0)) as [r e1].
    eexists _, _. split; reflexivity. }
  assert (Last : forall (w0 : World) r w1,
             trace w1 = trace w0 ++ [Ext (JobsGet addr) r] ->
             exists evs, trace w1 = trace w0 ++ evs
               /\ Forall P evs
               /\ observations evs = match r with Ok j => [j] | Throw _ => [] end).
  { intros w0 r w1 T. exists [Ext (JobsGet addr) r]. split; [exact T|].
    split; [repeat constructor; apply Pg|]. destruct r; reflexivity. }
  revert d w. induction n as [|n IH]; intros d w; simpl; unfold try_catch;
    destruct (One w) as (r & w1 & E & T); rewrite E.
  - destruct r as [j|e]; simpl; apply (Last w _ w1 T).
  - destruct r as [j|e]; simpl; [apply (Last w _ w1 T) |].
    destruct (rate_limited e); [| apply (Last w _ w1 T)].
    unfold bind, sleep, ext_ok, ext.
    destruct (respond (SetTimeout d) (env w1)) as [u e2].
    match goal with
    | |- context [retry _ n _ ?w0] => destruct (IH (d * 2) w0) as (evs & T' & F & O)
    end.
    exists (Ext (JobsGet addr) (Throw e) :: Ext (SetTimeout d) u :: evs).
    split; [rewrite T'; cbn [trace]; rewrite T, <- !app_assoc; reflexivity |].
    split; [repeat constructor; auto | exact O].
Qed.

(** X5.  [stopJob] leaves the fields of the service as they are - it does not
    mark the job as stopped by the user -; it sends exactly one audit record,
    JOB_STOPPED when it returns and JOB_STOP_FAILED when it throws; and what
    it throws is "Stop Error: " and the message of the failure. *)
Theorem stopJob_is_audited (jobAddress : string) :
  reports audit_of (stopJob jobAddress) ["JOB_STOPPED"] ["JOB_STOP_FAILED"]
  /\ keeps eq (stopJob jobAddress)
  /\ (forall w e, fst (stopJob jobAddress w) = Throw e ->
        exists m, message e = Some ("Stop Error: " +:+ m)).
Proof.
  split; [| split].
  - unfold stopJob. apply reports_try_rethrow.
    + apply reports_after_quiet; [apply reports_quiet, appends_get_svc|].
      intros s. destruct (authMode s).
      * apply reports_after_quiet; [apply reports_quiet; repeat appends_step'; reflexivity|].
        intros addr.
        apply reports_after_quiet; [apply reports_quiet; repeat appends_step'; reflexivity|].
        intros job.
        apply reports_after_quiet; [apply reports_quiet; repeat appends_step'; reflexivity|].
        intros instruction.
        apply reports_after_quiet; [apply reports_quiet; repeat appends_step'; reflexivity|].
        intros signature. apply reports_record_then_return.
      * apply reports_after_quiet; [apply reports_quiet, apiRequest_no_audit; exact I|].
        intros result.
        apply reports_after_quiet; [apply reports_quiet, appends_lift|]. intros tx.
        apply reports_after_quiet; [apply reports_quiet, appends_lift|]. intros delisted.
        apply reports_record_then_return.
    + intros e. apply reports_log_record_throw.
    + intros e w. eexists. apply log_record_throw_throws.
  - unfold stopJob, apiRequest, getApiAuthHeader, sendAuditLog. repeat keeps_step.
  - intros w e E. apply try_catch_throw_inv in E. destruct E as (e0 & w1 & _ & E).
    rewrite log_record_throw_throws in E. injection E as <-. eexists. reflexivity.
Qed.

Lemma In_observations_app_l j a b : In j (observations a) -> In j (observations (a ++ b)).
Proof. intros I. rewrite observations_app. apply in_or_app. auto. Qed.

Lemma In_observations_app_r j a b : In j (observations b) -> In j (observations (a ++ b)).
Proof. intros I. rewrite observations_app. apply in_or_app. auto. Qed.

(** X6.  [stopJob] signs and sends a transaction only after a read of the job
    has shown it RUNNING or QUEUED; in API mode it signs none. *)
Theorem stopJob_signs_only_when_stoppable (jobAddress : string) (w : World) :
  exists evs,
    trace (snd (stopJob jobAddress w)) = trace w ++ evs
    /\ ((exists ev, In ev evs /\ is_signing ev = true) ->
        exists j, In j (observations evs) /\ stoppable j = true)
    /\ (authMode (svc w) = ApiMode -> Forall (fun ev => is_signing ev = false) evs).
Proof.
  set (quiet := fun ev : Event => is_signing ev = false).
  assert (Good : exists evs,
             trace (snd (stopJob jobAddress w)) = trace w ++ evs
             /\ (Forall quiet evs \/ exists j, In j (observations evs) /\ stoppable j = true)
             /\ (authMode (svc w) = ApiMode -> Forall quiet evs)).
  2:{ destruct Good as (evs & T & G & A). exists evs. split; [exact T|]. split; [| exact A].
      intros (ev & I & S). destruct G as [F|G]; [| exact G].
      rewrite List.Forall_forall in F. specialize (F ev I). unfold quiet in F. congruence. }
  unfold stopJob.
  match goal with |- context [try_catch ?m ?h] => set (body := m); set (handler := h) end.
  assert (Hh : forall e, appends quiet (handler e)).
  { intros e. subst handler. unfold sendAuditLog. repeat appends_step'; reflexivity. }
  assert (Hb : exists evs,
             trace (snd (body w)) = trace w ++ evs
             /\ (Forall quiet evs \/ exists j, In j (observations evs) /\ stoppable j = true)
             /\ (authMode (svc w) = ApiMode -> Forall quiet evs)).
  { subst body. unfold bind at 1, get_svc. destruct (authMode (svc w)) eqn:Mode.
    - (* wallet *)
      unfold bind at 1, address. rewrite ext_eq.
      assert (T1 := after_ext_trace (Address jobAddress) w).
      destruct (answer_to (Address jobAddress) w) as [addr|e].
      2:{ exists [Ext (Address jobAddress) (Throw e)]. split; [exact T1|].
          split; [left; repeat constructor | discriminate]. }
      set (w1 := after_ext (Address jobAddress) w) in *.
      unfold bind at 1, retry_default.
      destruct (retry_jobs_get_observed quiet addr 5 500 w1) as (evs2 & T2 & F2 & O2);
        [reflexivity | reflexivity |].
      destruct (retry (jobs_get addr) 5 500 w1) as [[job|e] w2]; cbn [fst snd] in *.
      2:{ exists (Ext (Address jobAddress) (Ok addr) :: evs2).
          split; [rewrite T2, T1, <- app_assoc; reflexivity|].
          split; [left; constructor; [reflexivity | exact F2] | discriminate]. }
      destruct (stoppable job) eqn:St.
      + (* whatever follows, the job was seen stoppable *)
        match goal with
        | |- context [trace (snd (?rest w2))] =>
            assert (A : appends (fun _ => True) rest)
        end.
        { unfold sendAuditLog. repeat appends_step'; exact I. }
        destruct (A w2) as (evs3 & T3 & _).
        exists (Ext (Address jobAddress) (Ok addr) :: evs2 ++ evs3).
        split; [rewrite T3, T2, T1, <- !app_assoc; reflexivity|].
        split; [| discriminate]. right. exists job. split; [| exact St].
        apply (In_observations_app_r _ [_]), In_observations_app_l.
        rewrite O2. left. reflexivity.
      + unfold stoppable in St. apply orb_false_iff in St. destruct St as [S1 S2].
        rewrite S1, S2. unfold bind, throw. cbn [fst snd].
        exists (Ext (Address jobAddress) (Ok addr) :: evs2).
        split; [rewrite T2, T1, <- app_assoc; reflexivity|].
        split; [left; constructor; [reflexivity | exact F2] | discriminate].
    - (* API *)
      match goal with
      | |- context [trace (snd (?rest w))] => assert (A : appends quiet rest)
      end.
      { unfold apiRequest, getApiAuthHeader, sendAuditLog. repeat appends_step'; reflexivity. }
      destruct (A w) as (evs & T & F). exists evs. split; [exact T|].
      split; [left; exact F | auto]. }
  destruct Hb as (evs1 & T1 & G1 & A1).
  unfold try_catch. destruct (body w) as [[r|e] w1]; cbn [fst snd] in *.
  - exists evs1. auto.
  - destruct (Hh e w1) as (evs2 & T2 & F2). exists (evs1 ++ evs2).
    split; [rewrite T2, T1, app_assoc; reflexivity|]. split.
    + destruct G1 as [F1|(j & I & S)].
      * left. apply Forall_app. auto.
      * right. exists j. split; [apply In_observations_app_l; exact I | exact S].
    + intros Mode. apply Forall_app. auto.
Qed.

End StopFacts.

(** ** [launchJob] *)

Section LaunchReports.
Context `{Host}.

Lemma appends_bind_ret {A B} (P : Event -> Prop) (a : A) (k : A -> M B) :
  appends P (k a) -> appends P (bind (ret a) k).
Proof. intros Hk w. exact (Hk w). Qed.

Lemma launch_api_appends (P : Event -> Prop) definitionToPin marketAddress :
  (forall ev, is_spawn ev = false -> audit_of ev = None ->
              match ev with
              | Ext (IpfsPin x) _ => x = definitionToPin
              | Ext (DeploymentsCreate q) _ => dp_job_definition q = definitionToPin
              | _ => True
              end -> P ev) ->
  appends P (launch_api definitionToPin marketAddress)
  /\ appends P (launch_wallet definitionToPin marketAddress).
Proof.
  intros HP. split.
  - unfold launch_api, apiRequest, getApiAuthHeader.
    repeat first [ apply poll_job_address_appends; intros; apply HP; reflexivity
                 | appends_step ]; apply HP; reflexivity.
  - unfold launch_wallet. repeat appends_step; apply HP; reflexivity.
Qed.

Lemma launch_step_quiet {X} (obs : Event -> option X) definitionToPin marketAddress mode :
  (forall ev, is_spawn ev = false -> audit_of ev = None -> obs ev = None) ->
  reports obs (match mode with
               | ApiMode => launch_api definitionToPin marketAddress
               | WalletMode => launch_wallet definitionToPin marketAddress
               end) [] [].
Proof.
  intros Q. apply reports_quiet.
  destruct (launch_api_appends (fun ev => obs ev = None) definitionToPin marketAddress) as [A W].
  { intros ev S A _. auto. }
  destruct mode; assumption.
Qed.

(** X7.  [launchJob] sends the JOB_LAUNCHED audit record exactly when it
    returns and none when it throws; it starts a handoff task exactly when it
    returns from a confidential launch, and gives it the real definition; it
    leaves the fields of the service as they are; and what it throws is
    "Nosana SDK Error: " and the message of the failure. *)
Theorem launchJob_reports (jobDefinition : json) (marketAddress : string) (isConfidential : bool) :
  reports audit_of (launchJob jobDefinition marketAddress isConfidential) ["JOB_LAUNCHED"] []
  /\ reports handoff_of (launchJob jobDefinition marketAddress isConfidential)
             (if isConfidential then [jobDefinition] else []) []
  /\ keeps eq (launchJob jobDefinition marketAddress isConfidential)
  /\ (forall w e, fst (launchJob jobDefinition marketAddress isConfidential w) = Throw e ->
        exists m, message e = Some ("Nosana SDK Error: " +:+ m)).
Proof.
  assert (Sure : forall (a h : string) (u : option string),
             never_throws (if isConfidential
                           then emit (Spawn (HandoffTask a jobDefinition h u))
                           else ret tt)).
  { intros. destruct isConfidential; [apply never_throws_emit | apply never_throws_ret]. }
  assert (Frame : forall {X} (obs : Event -> option X) xs,
             (forall ev, is_spawn ev = false -> audit_of ev = None -> obs ev = None) ->
             obs (CallLaunchJob jobDefinition marketAddress isConfidential) = None ->
             (forall r, obs (LaunchJobReturned r) = None) ->
             (forall tag e, obs (Console Err tag e) = None) ->
             (forall s (a h : string) (u : option string) (r : LaunchResult),
                reports obs
                  (do (if isConfidential
                       then emit (Spawn (HandoffTask a jobDefinition h u)) else ret tt) then
                   do sendAuditLog "JOB_LAUNCHED" a
                        (Some (obj [("ipfsHash", Some (JStr h));
                                    ("marketAddress", Some (JStr marketAddress));
                                    ("isConfidential", Some (JBool isConfidential));
                                    ("authMode", Some (JStr match authMode s with
                                                             | ApiMode => "api"
                                                             | WalletMode => "wallet"
                                                             end));
                                    ("deploymentUuid", jstr_opt u)])) None then
                   ret r) xs []) ->
             reports obs (launchJob jobDefinition marketAddress isConfidential) xs []).
  { intros X obs xs Q Qc Qr Qe Tail. unfold launchJob.
    replace xs with ([] ++ xs) by reflexivity.
    replace (@nil X) with ([] ++ @nil X) at 2 by reflexivity.
    apply reports_after_sure; [apply never_throws_emit | |].
    { apply reports_quiet, appends_emit. exact Qc. }
    intros _. apply reports_noting; [exact Qr|]. unfold launch_body.
    apply reports_try_rethrow.
    - apply reports_after_quiet.
      { apply reports_quiet. destruct isConfidential; [apply appends_lift | apply appends_ret]. }
      intros definitionToPin. apply reports_after_quiet; [apply reports_quiet, appends_get_svc|].
      intros s. apply reports_after_quiet; [apply launch_step_quiet; exact Q|].
      intros [[a u] h]. apply Tail.
    - intros e. apply reports_quiet. repeat appends_step. apply Qe.
    - intros e w. eexists. reflexivity. }
  split; [| split; [| split]].
  - apply Frame; try reflexivity; [intros; assumption|].
    intros s a h u r.
    apply (reports_after_sure _ _ _ [] ["JOB_LAUNCHED"] []); [apply Sure | |].
    + apply reports_quiet. destruct isConfidential; [apply appends_emit | apply appends_ret];
        reflexivity.
    + intros _. apply reports_record_then_return.
  - apply Frame; try reflexivity.
    + intros ev S _. destruct ev as [| | [] | |]; try reflexivity; discriminate S.
    + intros s a h u r.
      assert (Rest : forall ys, reports handoff_of
                (do sendAuditLog "JOB_LAUNCHED" a
                      (Some (obj [("ipfsHash", Some (JStr h));
                                  ("marketAddress", Some (JStr marketAddress));
                                  ("isConfidential", Some (JBool isConfidential));
                                  ("authMode", Some (JStr match authMode s with
                                                           | ApiMode => "api"
                                                           | WalletMode => "wallet"
                                                           end));
                                  ("deploymentUuid", jstr_opt u)])) None then
                 ret r) [] ys).
      { intros ys. apply (reports_sure _ _ _ []).
        - apply never_throws_bind; [apply never_throws_sendAuditLog |].
          intros; apply never_throws_ret.
        - apply reports_after_quiet; [| intros; apply reports_ret].
          apply reports_quiet. unfold sendAuditLog. repeat appends_step; reflexivity. }
      clear Frame Sure. destruct isConfidential.
      * apply (reports_sure _ _ _ [jobDefinition]).
        { apply never_throws_bind; [apply never_throws_emit | intros _].
          apply never_throws_bind; [apply never_throws_sendAuditLog |].
          intros; apply never_throws_ret. }
        apply (reports_after_sure _ _ _ [jobDefinition] [] []);
          [apply never_throws_emit | apply (reports_emit handoff_of) | intros _; apply Rest].
      * apply (reports_after_sure _ _ _ [] [] []);
          [apply never_throws_ret | apply reports_ret | intros _; apply Rest].
  - unfold launchJob, launch_body, launch_api, launch_wallet, apiRequest, getApiAuthHeader,
      sendAuditLog.
    assert (Poll : forall n u a h, keeps eq (poll_job_address n u a h)).
    { induction n as [|n IH]; intros; simpl; [apply (keeps_ret eq)|].
      repeat first [apply IH | keeps_step]. }
    repeat first [apply Poll | keeps_step].
  - intros w e E. unfold launchJob, bind, emit, noting in E.
    match type of E with
    | context [launch_body ?d ?m ?c ?w0] => destruct (launch_body d m c w0) as [r w1] eqn:B
    end.
    cbn [fst] in E. subst r.
    assert (B' : fst (launch_body jobDefinition marketAddress isConfidential
                        {| env := env w;
                           trace := trace w ++ [CallLaunchJob jobDefinition marketAddress
                                                              isConfidential];
                           svc := svc w |}) = Throw e) by (rewrite B; reflexivity).
    unfold launch_body in B'. apply try_catch_throw_inv in B'.
    destruct B' as (e0 & w2 & _ & T). cbn in T. injection T as <-. eexists. reflexivity.
Qed.

(** X8.  A launch that is not confidential hands the definition itself to the
    content store (and, on the SDK fallback, to the deployments API), and
    starts no task. *)
Theorem plain_launch_pins_the_definition (jobDefinition : json) (marketAddress : string)
    (w : World) :
  exists evs,
    trace (snd (launchJob jobDefinition marketAddress false w)) = trace w ++ evs
    /\ Forall (hands_over jobDefinition) evs
    /\ Forall (fun ev => is_spawn ev = false) evs.
Proof.
  assert (A : appends (fun ev => hands_over jobDefinition ev /\ is_spawn ev = false)
                      (launchJob jobDefinition marketAddress false)).
  { unfold launchJob. apply appends_bind; [apply appends_emit; split; [exact I | reflexivity]|].
    intros _. apply appends_noting; [| intros; split; [exact I | reflexivity]].
    unfold launch_body. apply appends_try_catch.
    - apply (appends_bind_ret _ jobDefinition).
      apply appends_bind; [apply appends_get_svc|]. intros s.
      destruct (launch_api_appends
                  (fun ev => hands_over jobDefinition ev /\ is_spawn ev = false)
                  jobDefinition marketAddress) as [Api Wallet].
      { intros ev S _ Hd. split; assumption. }
      apply appends_bind; [destruct (authMode s); assumption|]. intros [[a u] h].
      unfold sendAuditLog. repeat appends_step; (split; [exact I | reflexivity]).
    - intros e. repeat appends_step; (split; [exact I | reflexivity]). }
  destruct (A w) as (evs & T & F). exists evs. split; [exact T|].
  split; eapply List.Forall_impl; try exact F; intros ev [? ?]; assumption.
Qed.

Lemma adds_bind_le {A B} (p : Event -> bool) a b n (m : M A) (k : A -> M B) :
  adds_at_most p a m -> (forall x, adds_at_most p b (k x)) -> (a + b <= n)%nat ->
  adds_at_most p n (bind m k).
Proof. intros Hm Hk L. apply (adds_more p (a + b)); [exact L | apply adds_in_bind; assumption]. Qed.

Lemma adds_noting {A} (p : Event -> bool) n (m : M A) note :
  (forall r, p (note r) = false) -> adds_at_most p n m -> adds_at_most p n (noting m note).
Proof.
  intros Q Hm w. unfold noting. destruct (Hm w) as (evs & T & C).
  destruct (m w) as [r w1]. simpl in *. exists (evs ++ [note r]).
  rewrite T, app_assoc, List.filter_app, List.length_app. simpl. rewrite Q. simpl.
  split; [reflexivity | lia].
Qed.

(** The bridge loop reads the deployment at most [n] times and waits at
    most [n] times. *)
Lemma poll_job_address_adds (p : Event -> bool) g s n u a h :
  (forall u', adds_at_most p g (deployments_get u')) ->
  (forall ms, adds_at_most p s (sleep ms)) -> (g + s <= 1)%nat ->
  adds_at_most p n (poll_job_address n u a h).
Proof.
  intros Hg Hs L. revert a h. induction n as [|n IH]; intros a h; simpl.
  - apply adds_none, appends_ret.
  - apply (adds_bind_le p g (s + n)); [apply Hg | | lia].
    intros status. destruct (default [] (dep_jobs status)).
    + apply (adds_bind_le p s n); [apply Hs | intros; apply IH | lia].
    + apply (adds_more p 0); [lia | apply adds_none, appends_ret].
Qed.

Lemma adds_if {A} (p : Event -> bool) a b (c : bool) (m1 m2 : M A) :
  adds_at_most p a m1 -> adds_at_most p b m2 ->
  adds_at_most p (Nat.max a b) (if c then m1 else m2).
Proof. intros H1 H2. destruct c; eapply adds_more; try eassumption; lia. Qed.

Lemma adds_mode {A} (p : Event -> bool) a b (mode : AuthMode) (m1 m2 : M A) :
  adds_at_most p a m1 -> adds_at_most p b m2 ->
  adds_at_most p (Nat.max a b) (match mode with WalletMode => m1 | ApiMode => m2 end).
Proof. intros H1 H2. destruct mode; eapply adds_more; try eassumption; lia. Qed.

End LaunchReports.

(** Bounds the events that [p] counts, along the structure of the code. *)
Ltac adds_nothing :=
  apply adds_none; unfold apiRequest, getApiAuthHeader, sendAuditLog;
  repeat first [ apply poll_job_address_appends; intros; reflexivity | appends_step ];
  reflexivity.

Ltac adds_auto :=
  first
    [ solve [adds_nothing]
    | lazymatch goal with
      | |- adds_at_most _ _ (bind _ _) =>
          eapply adds_in_bind; [adds_auto | intros ?; adds_auto]
      | |- adds_at_most _ _ (try_catch _ _) =>
          eapply adds_in_try_catch; [adds_auto | intros ?; adds_auto]
      | |- adds_at_most _ _ (match ?x with _ => _ end) =>
          lazymatch type of x with
          | AuthMode => eapply adds_mode; adds_auto
          | bool => eapply adds_if; adds_auto
          end
      | |- adds_at_most _ _ (let (_, _) := ?x in _) => destruct x; adds_auto
      | |- adds_at_most _ _ (noting _ _) =>
          eapply adds_noting; [intros; reflexivity | adds_auto]
      | |- adds_at_most ?p _ (ext ?c) => apply (adds_one_ext p c)
      | |- adds_at_most _ _ (poll_job_address _ _ _ _) =>
          eapply poll_job_address_adds; [intros; adds_auto | intros; adds_auto | simpl; lia]
      | |- adds_at_most ?p _ (sleep ?ms) => apply (adds_one_ext_ok p (SetTimeout ms))
      | |- adds_at_most ?p _ (ext_ok ?c) => apply (adds_one_ext_ok p c)
      | |- adds_at_most _ _ (ipfs_pin _) => unfold ipfs_pin; adds_auto
      | |- adds_at_most _ _ (deployments_create _) => unfold deployments_create; adds_auto
      | |- adds_at_most _ _ (deployments_get _) => unfold deployments_get; adds_auto
      | |- adds_at_most _ _ (launch_api _ _) => unfold launch_api; adds_auto
      | |- adds_at_most _ _ (launch_wallet _ _) => unfold launch_wallet; adds_auto
      end ].

Section LaunchBounds.
Context `{Host}.

(** X9.  Whatever the host answers, a launch pins at most one definition,
    creates at most one deployment, and on the SDK fallback reads the
    deployment at most 30 times with at most 30 waits. *)
Theorem launchJob_is_bounded (jobDefinition : json) (marketAddress : string)
    (isConfidential : bool) :
  adds_at_most is_pin 1 (launchJob jobDefinition marketAddress isConfidential)
  /\ adds_at_most is_deployment_create 1 (launchJob jobDefinition marketAddress isConfidential)
  /\ adds_at_most is_deployment_get 30 (launchJob jobDefinition marketAddress isConfidential)
  /\ adds_at_most is_wait 30 (launchJob jobDefinition marketAddress isConfidential).
Proof.
  unfold launchJob, launch_body.
  repeat split; (eapply adds_more; [| adds_auto]; simpl; lia).
Qed.

End LaunchBounds.

(** ** [getJob] *)

Section GetJobFacts.
Context `{Host}.

Lemma resolve_service_url_never_throws jobAddress ipfsJob cachedJob :
  never_throws (resolve_service_url jobAddress ipfsJob cachedJob).
Proof.
  unfold resolve_service_url. apply never_throws_try_catch. intros e.
  apply never_throws_bind; [apply never_throws_emit | intros; apply never_throws_ret].
Qed.

Lemma resolve_service_url_unobserved jobAddress ipfsJob cachedJob :
  appends (fun ev => observed ev = None) (resolve_service_url jobAddress ipfsJob cachedJob).
Proof. unfold resolve_service_url. repeat appends_step'; reflexivity. Qed.

Lemma observations_unobserved evs :
  Forall (fun ev => observed ev = None) evs -> observations evs = [].
Proof.
  induction 1 as [|ev evs O _ IH]; [reflexivity|].
  unfold observations in *. simpl. rewrite O. exact IH.
Qed.

(** The runs of [getJob]: it throws when the address or the job cannot be
    read; once the job is read it returns, with the cached URL and without
    reading the content store unless the job is RUNNING, has a pinned
    definition and no URL is cached. *)
Lemma getJob_cases jobAddress w :
  exists evs,
    trace (snd (getJob jobAddress w)) = trace w ++ evs
    /\ ((exists e,
           fst (getJob jobAddress w) = Throw (Error ("Get Job Error: " +:+ message_text e))
           /\ observations evs = []
           /\ Forall (fun ev => is_ipfs_read ev = false) evs)
        \/ (exists j url,
              fst (getJob jobAddress w)
              = Ok {| gj_status := "success"; jobState := job_state j;
                      gj_jobAddress := jobAddress; runAddress := job_project j;
                      nodeAddress := job_node j; price := pretty (job_price j);
                      ipfsResult := job_ipfsResult j; gj_serviceUrl := url |}
              /\ observations evs = [j]
              /\ ((job_state j =? JobState.RUNNING)
                  && negb (truthy (jstr_opt (cached_url (svc w) jobAddress)))
                  && truthy (jstr_opt (job_ipfsJob j)) = false ->
                  url = cached_url (svc w) jobAddress
                  /\ Forall (fun ev => is_ipfs_read ev = false) evs))).
Proof.
  destruct (getJob jobAddress w) as [res wf] eqn:G. cbn [fst snd].
  unfold getJob, try_catch in G. unfold bind at 1, address in G. rewrite ext_eq in G.
  assert (T1 := after_ext_trace (Address jobAddress) w).
  assert (S1 := after_ext_svc (Address jobAddress) w).
  destruct (answer_to (Address jobAddress) w) as [addr|e].
  2:{ injection G as <- <-.
      exists [Ext (Address jobAddress) (Throw e)]. split; [exact T1|]. left. exists e.
      split; [reflexivity|]. split; [reflexivity | repeat constructor]. }
  set (w1 := after_ext (Address jobAddress) w) in *.
  unfold bind at 1, retry_default in G.
  destruct (retry_jobs_get_observed (fun ev => is_ipfs_read ev = false) addr 5 500 w1)
    as (evs2 & T2 & F2 & O2); [reflexivity | reflexivity |].
  assert (S2 : svc (snd (retry (jobs_get addr) 5 500 w1)) = svc w1).
  { symmetry. apply (keeps_retry eq). unfold jobs_get. apply (keeps_ext eq (JobsGet addr)). }
  destruct (retry (jobs_get addr) 5 500 w1) as [[j|e] w2]; cbn [fst snd] in *.
  2:{ injection G as <- <-.
      exists (Ext (Address jobAddress) (Ok addr) :: evs2).
      split; [rewrite T2, T1, <- app_assoc; reflexivity|]. left. exists e.
      split; [reflexivity|]. split; [exact O2 | constructor; [reflexivity | exact F2]]. }
  unfold bind at 1, get_svc in G.
  assert (Cached : match watchedJobs (svc w2) !! jobAddress with
                   | Some c => if truthy (jstr_opt (serviceUrl c)) then serviceUrl c else None
                   | None => None
                   end = cached_url (svc w) jobAddress).
  { unfold cached_url. rewrite S2, S1. reflexivity. }
  rewrite Cached in G.
  destruct ((job_state j =? JobState.RUNNING)
            && negb (truthy (jstr_opt (cached_url (svc w) jobAddress)))
            && truthy (jstr_opt (job_ipfsJob j))) eqn:Need.
  - unfold bind in G.
    destruct (resolve_service_url_never_throws jobAddress (default "" (job_ipfsJob j))
                (watchedJobs (svc w2) !! jobAddress) w2) as (url & E).
    destruct (resolve_service_url_unobserved jobAddress (default "" (job_ipfsJob j))
                (watchedJobs (svc w2) !! jobAddress) w2) as (evs3 & T3 & F3).
    destruct (resolve_service_url _ _ _ w2) as [r w3]. cbn [fst snd] in *. subst r.
    unfold ret in G. cbv beta iota in G. apply pair_equal_spec in G. destruct G as [<- <-].
    exists (Ext (Address jobAddress) (Ok addr) :: evs2 ++ evs3).
    split; [rewrite T3, T2, T1, <- !app_assoc; reflexivity|]. right. exists j, url.
    split; [reflexivity|]. split; [| intros N; congruence].
    change (Ext (Address jobAddress) (Ok addr) :: evs2 ++ evs3)
      with ([Ext (Address jobAddress) (Ok addr)] ++ evs2 ++ evs3).
    rewrite !observations_app, O2, (observations_unobserved evs3 F3). reflexivity.
  - unfold bind, ret in G. cbv beta iota in G. apply pair_equal_spec in G. destruct G as [<- <-].
    exists (Ext (Address jobAddress) (Ok addr) :: evs2).
    split; [rewrite T2, T1, <- app_assoc; reflexivity|]. right.
    exists j, (cached_url (svc w) jobAddress).
    split; [reflexivity|]. split; [exact O2|]. intros _.
    split; [reflexivity | constructor; [reflexivity | exact F2]].
Qed.

(** X10.  [getJob] fails only when the job could not be read (the address is
    refused or [client.jobs.get] fails), and then with "Get Job Error: " and
    the message; once a job is read it returns that job's state, node, project
    and price under the address it was asked for: a failure to resolve the
    service URL never fails it. *)
Theorem getJob_fails_only_without_a_job (jobAddress : string) (w : World) :
  exists evs,
    trace (snd (getJob jobAddress w)) = trace w ++ evs
    /\ match fst (getJob jobAddress w) with
       | Throw e =>
           observations evs = []
           /\ exists m, message e = Some ("Get Job Error: " +:+ m)
       | Ok r =>
           exists j, observations evs = [j]
                     /\ jobState r = job_state j /\ gj_jobAddress r = jobAddress
                     /\ nodeAddress r = job_node j /\ runAddress r = job_project j
                     /\ price r = pretty (job_price j)
       end.
Proof.
  destruct (getJob_cases jobAddress w) as (evs & T & [(e & E & O & _)|(j & url & E & O & _)]);
    exists evs; (split; [exact T|]); rewrite E.
  - split; [exact O | eexists; reflexivity].
  - exists j. repeat split; auto.
Qed.

(** X11.  [getJob] reads the content store only for a job that is RUNNING
    and has no service URL in the registry: when a URL is cached (as the
    confidential handoff leaves one) or the job is not RUNNING, nothing is
    read from the store and the answer carries the cached URL. *)
Theorem getJob_reads_store_only_when_needed (jobAddress : string) (w : World) :
  exists evs,
    trace (snd (getJob jobAddress w)) = trace w ++ evs
    /\ forall r, fst (getJob jobAddress w) = Ok r ->
         cached_url (svc w) jobAddress <> None \/ jobState r <> JobState.RUNNING ->
         Forall (fun ev => is_ipfs_read ev = false) evs
         /\ gj_serviceUrl r = cached_url (svc w) jobAddress.
Proof.
  destruct (getJob_cases jobAddress w) as (evs & T & [(e & E & O & _)|(j & url & E & O & N)]);
    exists evs; (split; [exact T|]); rewrite E; intros r R C; [discriminate|].
  injection R as <-. cbn [jobState gj_serviceUrl] in *.
  destruct N as [-> F]; [| auto].
  destruct C as [C|C].
  - unfold cached_url in *. destruct (watchedJobs (svc w) !! jobAddress) as [c|]; [| congruence].
    destruct (truthy (jstr_opt (serviceUrl c))) eqn:Tr; [| congruence].
    rewrite Tr. simpl. rewrite andb_false_r. reflexivity.
  - destruct (Z.eqb_spec (job_state j) JobState.RUNNING); [contradiction | reflexivity].
Qed.

End GetJobFacts.

Section GetJobState.
Context `{Host}.

Lemma resolve_service_url_svc jobAddress ipfsJob w :
  url_noted jobAddress (svc w)
    (svc (snd (resolve_service_url jobAddress ipfsJob (watchedJobs (svc w) !! jobAddress) w))).
Proof.
  unfold resolve_service_url, try_catch. unfold bind at 1.
  assert (S1 : svc (snd (retry_default (ipfs_retrieve ipfsJob) w)) = svc w).
  { symmetry. apply (keeps_retry eq). unfold ipfs_retrieve.
    apply (keeps_ext eq (IpfsRetrieve ipfsJob)). }
  destruct (retry_default (ipfs_retrieve ipfsJob) w) as [[rawDef|e] w1]; cbn [fst snd] in *.
  2:{ left. exact S1. }
  destruct rawDef as [jobDefinition|]; [| left; exact S1].
  destruct (truthy (Some jobDefinition)); [| left; exact S1].
  unfold bind at 1, getJobExposedServices. rewrite ext_eq.
  assert (S2 := after_ext_svc (GetJobExposedServices jobDefinition jobAddress) w1).
  destruct (answer_to _ w1) as [services|e].
  2:{ left. cbn. congruence. }
  destruct services as [[|s0 rest]|]; [left; cbn; congruence | | left; cbn; congruence].
  destruct (watchedJobs (svc w) !! jobAddress) as [c|] eqn:L.
  - right. exists c, ("https://" +:+ svc_hash s0 +:+ "."
                      +:+ str_or (process_env "NOSANA_INGRESS_DOMAIN") "node.k8s.prd.nos.ci").
    split; [exact L|]. cbn. rewrite S2, S1. reflexivity.
  - left. cbn. congruence.
Qed.

Lemma getJob_url_noted jobAddress w :
  url_noted jobAddress (svc w) (svc (snd (getJob jobAddress w))).
Proof.
  unfold getJob, try_catch. unfold bind at 1, address. rewrite ext_eq.
  assert (S1 := after_ext_svc (Address jobAddress) w).
  destruct (answer_to (Address jobAddress) w) as [addr|e]; [| left; exact S1].
  set (w1 := after_ext (Address jobAddress) w) in *.
  unfold bind at 1.
  assert (S2 : svc (snd (retry_default (jobs_get addr) w1)) = svc w1).
  { symmetry. apply (keeps_retry eq). unfold jobs_get. apply (keeps_ext eq (JobsGet addr)). }
  destruct (retry_default (jobs_get addr) w1) as [[j|e] w2]; cbn [fst snd] in *;
    [| left; cbn; congruence].
  unfold bind at 1, get_svc.
  match goal with |- context [if ?c then _ else _] => destruct c end.
  - unfold bind.
    assert (R := resolve_service_url_svc jobAddress (default "" (job_ipfsJob j)) w2).
    destruct (resolve_service_url _ _ _ w2) as [[url|e] w3]; cbn [fst snd] in *;
      rewrite S2, S1 in R; exact R.
  - left. cbn. congruence.
Qed.

(** X12.  Of the fields of the service, [getJob] changes nothing but,
    possibly, the service URL of the registry entry of the address it is asked
    about: the configuration and the entries of the other addresses stay as
    they are, no entry is added for the address and none is removed. *)
Theorem getJob_changes_only_the_url (jobAddress : string) (w : World) :
  let s := svc w in
  let s' := svc (snd (getJob jobAddress w)) in
  same_configuration s s'
  /\ (forall k, k <> jobAddress -> watchedJobs s' !! k = watchedJobs s !! k)
  /\ match watchedJobs s !! jobAddress with
     | Some i => exists i', watchedJobs s' !! jobAddress = Some i' /\ same_watch i i'
     | None => watchedJobs s' !! jobAddress = None
     end.
Proof.
  cbv zeta. destruct (getJob_url_noted jobAddress w) as [->|(i & u & L & ->)].
  - split; [repeat split|]. split; [reflexivity|].
    destruct (watchedJobs (svc w) !! jobAddress) as [i|]; [| reflexivity].
    exists i. split; [reflexivity | left; reflexivity].
  - split; [repeat split|]. split.
    + intros k N. cbn. apply lookup_insert_ne. congruence.
    + rewrite L. exists (set_serviceUrl u i). cbn. rewrite lookup_insert_eq.
      split; [reflexivity | right; exists u; reflexivity].
Qed.

End GetJobState.

(** ** [recoverJobs] *)

Section RecoveryFacts.
Context {H : Host} {HS : HostSdk H}.






Lemma same_configuration_refl s : same_configuration s s.
Proof. repeat split. Qed.

Lemma same_configuration_trans s1 s2 s3 :
  same_configuration s1 s2 -> same_configuration s2 s3 -> same_configuration s1 s3.
Proof. unfold same_configuration. intuition congruence. Qed.





End RecoveryFacts.

Section WalletRecovery.
Context {H : Host} {HS : HostSdk H}.

Lemma watchJob_start_run jobAddress orchestratorUrl options w :
  fst (watchJob_start jobAddress orchestratorUrl options w) = Ok tt
  /\ svc (snd (watchJob_start jobAddress orchestratorUrl options w))
     = with_watchedJobs
         (<[jobAddress := new_jobInfo jobAddress (clock_now w) options]> (watchedJobs (svc w)))
         (svc w)
  /\ exists evs,
       trace (snd (watchJob_start jobAddress orchestratorUrl options w)) = trace w ++ evs
       /\ Forall (fun ev => is_spawn ev = false) evs.
Proof.
  set (jobInfo := new_jobInfo jobAddress (clock_now w) options).
  set (w0 := {| env := env (after_clock w); trace := trace (after_clock w);
                svc := with_watchedJobs (<[jobAddress := jobInfo]> (watchedJobs (svc w)))
                                        (svc w) |}).
  assert (E : watchJob_start jobAddress orchestratorUrl options w
              = sendAuditLog "WATCHDOG_STARTED" jobAddress
                  (Some (obj [("resources", Some (jresources (resources jobInfo)));
                              ("deploymentUuid", jstr_opt (options ≫= opt_deploymentUuid))]))
                  None w0).
  { unfold watchJob_start, bind at 1. rewrite Date_now_eq.
    unfold bind, modify_svc. cbn [svc env trace]. rewrite after_clock_svc. reflexivity. }
  rewrite E. split; [apply sendAuditLog_total|]. split; [rewrite sendAuditLog_svc; reflexivity|].
  match goal with
  | |- context [sendAuditLog ?a ?j ?d ?s w0] =>
      assert (A : appends (fun ev => is_spawn ev = false) (sendAuditLog a j d s))
  end.
  { unfold sendAuditLog. repeat appends_step; reflexivity. }
  destruct (A w0) as (evs & T & F).
  exists (Ext DateNow (clock_now w) :: evs). rewrite T. subst w0. cbn [trace].
  rewrite after_clock_trace, <- app_assoc. split; [reflexivity|].
  constructor; [reflexivity | exact F].
Qed.

Lemma registry_recovered_refl m : registry_recovered m m.
Proof. split; [auto | intros k i L; left; exact L]. Qed.

Lemma registry_recovered_trans m1 m2 m3 :
  registry_recovered m1 m2 -> registry_recovered m2 m3 -> registry_recovered m1 m3.
Proof.
  intros [F1 B1] [F2 B2]. split; [auto|].
  intros k i3 L. destruct (B2 k i3 L) as [L2|[N2 Sh]].
  - apply B1. exact L2.
  - right. split; [| exact Sh].
    destruct (m1 !! k) as [i1|] eqn:L1; [| reflexivity].
    rewrite (F1 k i1 L1) in N2. discriminate.
Qed.

Lemma omap_watch_of_quiet evs :
  Forall (fun ev => is_spawn ev = false) evs -> omap watch_of evs = [].
Proof.
  induction 1 as [|ev evs Q _ IH]; [reflexivity|].
  destruct ev as [| | [] | |]; try discriminate Q; exact IH.
Qed.

Lemma watch_of_in evs (P : string -> Prop) :
  Forall (fun ev => forall x, watch_of ev = Some x -> P x) evs ->
  forall a, In a (omap watch_of evs) -> P a.
Proof.
  induction 1 as [|ev evs B _ IH]; intros a I; [destruct I|].
  cbn in I. destruct (watch_of ev) as [x|] eqn:W.
  - destruct I as [<-|I]; [apply B; reflexivity | auto].
  - auto.
Qed.

Lemma starts_recovered_watch_quiet m m' evs :
  Forall (fun ev => is_spawn ev = false) evs -> Forall (starts_recovered_watch m m') evs.
Proof.
  intros F. eapply List.Forall_impl; [| exact F].
  intros [| | [] | |] Q; try exact I; discriminate Q.
Qed.

Lemma recover_own_spec myJobs w :
  exists evs,
    trace (snd (recover_own myJobs w)) = trace w ++ evs
    /\ fst (recover_own myJobs w) = Ok tt
    /\ same_configuration (svc w) (svc (snd (recover_own myJobs w)))
    /\ registry_recovered (watchedJobs (svc w)) (watchedJobs (svc (snd (recover_own myJobs w))))
    /\ Forall (starts_recovered_watch (watchedJobs (svc w))
                 (watchedJobs (svc (snd (recover_own myJobs w))))) evs
    /\ NoDup (omap watch_of evs)
    /\ (forall a, In a (omap watch_of evs) ->
          exists j, In j myJobs /\ job_address j = a /\ is_running (job_state j) = true)
    /\ (forall j, In j myJobs -> is_running (job_state j) = true ->
          watchedJobs (svc (snd (recover_own myJobs w))) !! job_address j <> None).
Proof.
  revert w. induction myJobs as [|job rest IH]; intros w.
  - exists []. cbn. rewrite app_nil_r. split; [reflexivity|]. split; [reflexivity|].
    split; [apply same_configuration_refl|]. split; [apply registry_recovered_refl|].
    split; [constructor|]. split; [constructor|]. split; intros ? [].
  - remember (recover_own (job :: rest) w) as whole eqn:G.
    cbn [recover_own] in G. unfold bind at 1, get_svc in G. unfold bind at 1 in G.
    set (a := job_address job) in *.
    set (url := str_or (process_env "ORCHESTRATOR_URL") "http://localhost:8080") in *.
    destruct (is_running (job_state job)
              && negb (bool_decide (is_Some (watchedJobs (svc w) !! a)))) eqn:Cond.
    + (* a watch is started *)
      apply andb_true_iff in Cond. destruct Cond as [Run Free].
      apply negb_true_iff, bool_decide_eq_false in Free.
      assert (None_a : watchedJobs (svc w) !! a = None).
      { destruct (watchedJobs (svc w) !! a) eqn:L; [| reflexivity].
        exfalso. apply Free. eauto. }
      unfold bind at 1 in G.
      destruct (watchJob_start_run a url (Some recovery_options) w)
        as (E1 & S1 & evs1 & T1 & F1).
      change (Some {| opt_jobDefinition := None; opt_marketAddress := None;
                      opt_deploymentUuid := None; opt_isConfidential := Some true;
                      opt_resources_allocated :=
                        Some {| gpu_allocated := 1; vcpu_allocated := 8;
                                ram_gb_allocated := 32 |} |})
        with (Some recovery_options) in G.
      destruct (watchJob_start a url (Some recovery_options) w) as [r1 w1].
      cbn [fst snd] in *. subst r1. unfold emit in G. cbv beta iota in G.
      match type of G with
      | _ = recover_own rest ?w0 => set (w2 := w0) in *
      end.
      destruct (IH w2) as (evs2 & T2 & E2 & C2 & R2 & St2 & ND2 & Snd2 & Cpl2).
      subst whole. cbn [fst snd].
      assert (Reg2 : watchedJobs (svc w2)
                     = <[a := new_jobInfo a (clock_now w) (Some recovery_options)]>
                         (watchedJobs (svc w))).
      { subst w2. cbn. rewrite S1. reflexivity. }
      assert (Step : registry_recovered (watchedJobs (svc w)) (watchedJobs (svc w2))).
      { rewrite Reg2. split.
        - intros k i L. rewrite lookup_insert_ne; [exact L | congruence].
        - intros k i' L. destruct (decide (k = a)) as [->|N].
          + rewrite lookup_insert_eq in L. injection L as <-. right. split; [exact None_a|].
            eexists. reflexivity.
          + rewrite lookup_insert_ne in L by congruence. left. exact L. }
      assert (Has_a : watchedJobs (svc w2) !! a <> None).
      { rewrite Reg2, lookup_insert_eq. discriminate. }
      destruct R2 as [Fw2 Bw2].
      exists (evs1 ++ [Spawn (WatchLoopTask a url)] ++ evs2).
      split; [rewrite T2; subst w2; cbn [trace]; rewrite T1, <- !app_assoc; reflexivity|].
      split; [exact E2|].
      split; [eapply same_configuration_trans; [| exact C2]; subst w2; cbn; rewrite S1;
              repeat split|].
      split; [eapply registry_recovered_trans; [exact Step | split; assumption]|].
      assert (Fwd : forall k, watchedJobs (svc w2) !! k <> None ->
                              watchedJobs (svc (snd (recover_own rest w2))) !! k <> None).
      { intros k N. destruct (watchedJobs (svc w2) !! k) as [i|] eqn:L; [| congruence].
        rewrite (Fw2 k i L). discriminate. }
      split.
      { apply Forall_app. split.
        - apply starts_recovered_watch_quiet. exact F1.
        - constructor; [split; [exact None_a | apply Fwd; exact Has_a]|].
          eapply List.Forall_impl; [| exact St2]. intros ev.
          destruct ev as [| | [? ? ? ?|x u0] | |]; try exact id. intros [N S]. split; [| exact S].
          destruct Step as [FS _].
          destruct (watchedJobs (svc w) !! x) as [i|] eqn:L; [| reflexivity].
          rewrite (FS _ i L) in N. discriminate. }
      rewrite !omap_app, (omap_watch_of_quiet evs1 F1). cbn [omap watch_of app].
      split.
      { constructor; [| exact ND2]. intros I.
        assert (Bad : Forall (fun ev => forall x, watch_of ev = Some x ->
                                watchedJobs (svc w2) !! x = None) evs2).
        { eapply List.Forall_impl; [| exact St2]. intros ev.
          destruct ev as [| | [] | |]; cbn; try discriminate; try contradiction.
          intros [N _] x [= <-]. exact N. }
        apply list_elem_of_In in I. apply Has_a. exact (watch_of_in evs2 _ Bad a I). }
      split.
      * intros x [<-|I].
        -- exists job. split; [left; reflexivity | split; [reflexivity | exact Run]].
        -- destruct (Snd2 x I) as (j & Ij & A & R). exists j. split; [right; exact Ij | auto].
      * intros j [<-|Ij] R; [apply Fwd; exact Has_a | apply Cpl2; assumption].
    + (* none is started *)
      unfold ret in G. cbv beta iota in G.
      destruct (IH w) as (evs2 & T2 & E2 & C2 & R2 & St2 & ND2 & Snd2 & Cpl2).
      subst whole. exists evs2.
      split; [exact T2|]. split; [exact E2|]. split; [exact C2|]. split; [exact R2|].
      split; [exact St2|]. split; [exact ND2|]. split.
      * intros x I. destruct (Snd2 x I) as (j & Ij & A & R). exists j.
        split; [right; exact Ij | auto].
      * intros j [<-|Ij] R; [| apply Cpl2; assumption].
        rewrite R in Cond. cbn in Cond. apply negb_false_iff, bool_decide_eq_true in Cond.
        destruct Cond as (i & L). destruct R2 as [Fw _]. fold a.
        rewrite (Fw _ i L). discriminate.
Qed.

(** X14.  In wallet mode [recoverJobs] never throws; it leaves every entry of
    the registry as it was and adds only entries of recovered watches (no
    definition, no market: such a job is never redeployed); each task it
    starts is a watch for an address that had no entry, and no address gets
    two. When the listing of the jobs is obtained, the watches started are all
    for jobs of the wallet's own project that the listing shows RUNNING, and
    afterwards every such job has an entry. *)
Theorem recovery_in_wallet_mode (entries : gmap string WatchedJobInfo -> list string)
    (w : World) :
  authMode (svc w) = WalletMode ->
  exists evs,
    trace (snd (recoverJobs entries w)) = trace w ++ evs
    /\ fst (recoverJobs entries w) = Ok tt
    /\ same_configuration (svc w) (svc (snd (recoverJobs entries w)))
    /\ registry_recovered (watchedJobs (svc w)) (watchedJobs (svc (snd (recoverJobs entries w))))
    /\ Forall (starts_recovered_watch (watchedJobs (svc w))
                 (watchedJobs (svc (snd (recoverJobs entries w))))) evs
    /\ NoDup (omap watch_of evs)
    /\ (forall myAddress jobs,
          wallet (svc w) = Some myAddress -> fst (retry_default jobs_all w) = Ok jobs ->
          (forall a, In a (omap watch_of evs) ->
             exists j, In j jobs /\ job_address j = a /\ job_project j = myAddress
                       /\ is_running (job_state j) = true)
          /\ (forall j, In j jobs -> job_project j = myAddress ->
                is_running (job_state j) = true ->
                watchedJobs (svc (snd (recoverJobs entries w))) !! job_address j <> None)).
Proof.
  intros Mode.
  remember (recoverJobs entries w) as whole eqn:G.
  unfold recoverJobs, bind at 1, get_svc in G. rewrite Mode in G.
  assert (Nothing : forall w' : World, trace w' = trace w -> svc w' = svc w ->
            forall r, r = Ok tt ->
            (forall myAddress jobs,
               wallet (svc w) = Some myAddress -> fst (retry_default jobs_all w) = Ok jobs ->
               False) ->
            exists evs,
              trace w' = trace w ++ evs /\ r = Ok tt
              /\ same_configuration (svc w) (svc w')
              /\ registry_recovered (watchedJobs (svc w)) (watchedJobs (svc w'))
              /\ Forall (starts_recovered_watch (watchedJobs (svc w)) (watchedJobs (svc w'))) evs
              /\ NoDup (omap watch_of evs)
              /\ (forall myAddress jobs,
                    wallet (svc w) = Some myAddress ->
                    fst (retry_default jobs_all w) = Ok jobs ->
                    (forall a, In a (omap watch_of evs) ->
                       exists j, In j jobs /\ job_address j = a /\ job_project j = myAddress
                                 /\ is_running (job_state j) = true)
                    /\ (forall j, In j jobs -> job_project j = myAddress ->
                          is_running (job_state j) = true ->
                          watchedJobs (svc w') !! job_address j <> None))).
  { intros w' T S r -> No. exists []. rewrite app_nil_r, S.
    split; [exact T|]. split; [reflexivity|]. split; [apply same_configuration_refl|].
    split; [apply registry_recovered_refl|]. split; [constructor|]. split; [constructor|].
    intros a jobs W J. destruct (No a jobs W J). }
  destruct (wallet (svc w)) as [myAddress|] eqn:W.
  2:{ subst whole. apply Nothing; try reflexivity. intros ? ? [=]. }
  unfold try_catch in G. unfold bind at 1 in G.
  assert (A0 : appends (fun ev => is_spawn ev = false) (retry_default jobs_all)).
  { repeat appends_step'; reflexivity. }
  assert (K0 : svc (snd (retry_default jobs_all w)) = svc w).
  { symmetry. apply (keeps_retry eq). apply (keeps_host_call eq). }
  destruct (A0 w) as (evs0 & T0 & F0).
  destruct (retry_default jobs_all w) as [[jobs|e] w1] eqn:J; cbn [fst snd] in *.
  - destruct (recover_own_spec
                (List.filter (fun j => String.eqb (job_project j) myAddress) jobs) w1)
      as (evs & T & E & C & R & St & ND & Snd & Cpl).
    destruct (recover_own _ w1) as [r w2]. cbn [fst snd] in *. subst r. subst whole.
    cbn [fst snd]. rewrite K0 in *.
    exists (evs0 ++ evs). rewrite T, T0, app_assoc.
    split; [reflexivity|]. split; [reflexivity|]. split; [exact C|]. split; [exact R|].
    split; [apply Forall_app; split; [apply starts_recovered_watch_quiet; exact F0 | exact St]|].
    rewrite omap_app, (omap_watch_of_quiet evs0 F0). cbn [app].
    split; [exact ND|].
    intros myAddress' jobs' [= <-] [= <-]. split.
    + intros a I. destruct (Snd a I) as (j & Ij & A & Run).
      apply filter_In in Ij. destruct Ij as [Ij Own]. apply String.eqb_eq in Own.
      exists j. auto.
    + intros j Ij Own Run. apply Cpl; [| exact Run].
      apply filter_In. split; [exact Ij | apply String.eqb_eq; exact Own].
  - subst whole. cbn [fst snd console_error emit].
    exists (evs0 ++ [Console Err "Failed to recover jobs:" (Some e)]). cbn [trace svc].
    rewrite T0, K0, <- app_assoc.
    split; [reflexivity|]. split; [reflexivity|]. split; [apply same_configuration_refl|].
    split; [apply registry_recovered_refl|].
    split; [apply Forall_app; split;
            [apply starts_recovered_watch_quiet; exact F0 | repeat constructor]|].
    rewrite omap_app, (omap_watch_of_quiet evs0 F0). cbn.
    split; [constructor|]. intros ? ? _ [=].
Qed.

End WalletRecovery.

(** ** [getJobLogs], [retrieveConfidentialResults] *)

Section LogsFacts.
Context `{Host}.

Lemma auth_headers_appends (P : Event -> Prop) fetchHeaders dummyIpfsHash :
  (forall r, P (Ext DateNow r)) -> (forall req r, P (Ext (Fetch BSign req) r)) ->
  (forall h r, P (Ext (GenerateHeaders h) r)) ->
  appends P (auth_headers fetchHeaders dummyIpfsHash).
Proof.
  intros Pd Pf Pg.
  unfold auth_headers, generateApiNodeAuthHeader, signMessageExternal, sign_request, apiRequest,
    getApiAuthHeader.
  repeat appends_step; auto.
Qed.

(** A branch of [retrieveConfidentialResults] that does not answer
    "completed". *)
Ltac failed_retrieval :=
  match goal with
  | G : ?whole = _, T : trace (snd ?whole) = _ ++ ?evs, F : Forall _ ?evs |- _ =>
      subst whole; eexists _, evs; split; [reflexivity|]; split; [exact T|];
      split; [exact F|];
      split; [intros C; discriminate C|];
      split; [reflexivity | intros C; apply (f_equal logs) in C; discriminate C]
  end.

(** The runs of [retrieveConfidentialResults]. *)
Lemma retrieveConfidentialResults_cases jobAddress w :
  exists r evs,
    fst (retrieveConfidentialResults jobAddress w) = Ok r
    /\ trace (snd (retrieveConfidentialResults jobAddress w)) = trace w ++ evs
    /\ Forall (fun ev => is_store_access ev = false) evs
    /\ (logs_status r = "completed" ->
        exists results req response,
          r = {| logs_status := "completed"; logs := None; logs_ipfsHash := None;
                 logs_result := Some results; logs_isConfidential := Some true |}
          /\ In (Ext (Fetch BAny req) (Ok response)) evs
          /\ method req = "GET" /\ body req = None
          /\ (exists node, url req = "https://" +:+ node +:+ "."
                 +:+ str_or (process_env "NOSANA_INGRESS_DOMAIN") "node.k8s.prd.nos.ci"
                 +:+ "/job/" +:+ jobAddress +:+ "/results")
          /\ resp_ok response = true /\ resp_json response = Ok results)
    /\ logs_ipfsHash r = None
    /\ r <> results_not_posted.
Proof.
  assert (A : appends (fun ev => is_store_access ev = false)
                      (retrieveConfidentialResults jobAddress)).
  { unfold retrieveConfidentialResults.
    repeat first [ apply auth_headers_appends; intros; reflexivity | appends_step ];
      reflexivity. }
  destruct (A w) as (evs & T & F).
  remember (retrieveConfidentialResults jobAddress w) as whole eqn:G.
  unfold retrieveConfidentialResults, try_catch in G.
  unfold bind at 1, address in G. rewrite ext_eq in G.
  assert (T1 := after_ext_trace (Address jobAddress) w).
  destruct (answer_to (Address jobAddress) w) as [addr|e]; [| failed_retrieval].
  set (w1 := after_ext (Address jobAddress) w) in *.
  unfold bind at 1, jobs_get in G. rewrite ext_eq in G.
  assert (T2 := after_ext_trace (JobsGet addr) w1).
  destruct (answer_to (JobsGet addr) w1) as [job|e]; [| failed_retrieval].
  set (w2 := after_ext (JobsGet addr) w1) in *.
  destruct (negb (truthy (jstr_opt (job_ipfsJob job)))); [failed_retrieval|].
  unfold bind at 1 in G.
  destruct (auth_headers_appends (fun _ => True) [] (default "" (job_ipfsJob job))
              ltac:(intros; exact I) ltac:(intros; exact I) ltac:(intros; exact I) w2)
    as (evs3 & T3 & _).
  destruct (auth_headers [] (default "" (job_ipfsJob job)) w2) as [[fetchHeaders|e] w3];
    [| failed_retrieval].
  cbn [snd] in T3.
  unfold bind at 1, fetch in G. rewrite ext_eq in G.
  match type of G with
  | context [answer_to (Fetch BAny ?q) w3] => set (req := q) in *
  end.
  assert (T4 := after_ext_trace (Fetch BAny req) w3).
  destruct (answer_to (Fetch BAny req) w3) as [response|e] eqn:Ans; [| failed_retrieval].
  destruct (resp_ok response) eqn:Okr; cbn [negb] in G; [| failed_retrieval].
  unfold bind, lift in G.
  destruct (resp_json response) as [results|e] eqn:J; [| failed_retrieval].
  unfold ret in G. subst whole. cbn [fst snd] in *.
  eexists _, evs. split; [reflexivity|]. split; [exact T|]. split; [exact F|].
  split; [| split; [reflexivity | intros C; discriminate C]].
  intros _. exists results, req, response. split; [reflexivity|].
  split.
  { rewrite T4, T3, T2, T1, <- !app_assoc in T. apply app_inv_head in T. subst evs.
    cbn. right. right. apply in_or_app. right. left. reflexivity. }
  split; [reflexivity|]. split; [reflexivity|]. split; [exists (job_node job); reflexivity|].
  split; assumption.
Qed.

(** X15.  [retrieveConfidentialResults] never throws: a failure is answered
    with the status "error". It does not touch the content store. When it
    answers "completed", the result is marked confidential and is the JSON
    body of a 2xx answer to a GET, without a body, of the node's
    [/job/{address}/results]. *)
Theorem retrieveConfidentialResults_never_throws (jobAddress : string) (w : World) :
  exists r evs,
    fst (retrieveConfidentialResults jobAddress w) = Ok r
    /\ trace (snd (retrieveConfidentialResults jobAddress w)) = trace w ++ evs
    /\ Forall (fun ev => is_store_access ev = false) evs
    /\ (logs_status r = "completed" ->
        exists results req response,
          r = {| logs_status := "completed"; logs := None; logs_ipfsHash := None;
                 logs_result := Some results; logs_isConfidential := Some true |}
          /\ In (Ext (Fetch BAny req) (Ok response)) evs
          /\ method req = "GET" /\ body req = None
          /\ (exists node, url req = "https://" +:+ node +:+ "."
                 +:+ str_or (process_env "NOSANA_INGRESS_DOMAIN") "node.k8s.prd.nos.ci"
                 +:+ "/job/" +:+ jobAddress +:+ "/results")
          /\ resp_ok response = true /\ resp_json response = Ok results).
Proof.
  destruct (retrieveConfidentialResults_cases jobAddress w) as (r & evs & E & T & F & C & _).
  exists r, evs. auto.
Qed.

Lemma retry_ipfs_retrieve_appends (P : Event -> Prop) h n d :
  (forall x r, P (Ext (IpfsRetrieve x) r)) -> (forall ms r, P (Ext (SetTimeout ms) r)) ->
  appends P (retry (ipfs_retrieve h) n d).
Proof.
  intros Pr Ps. apply appends_retry; [| exact Ps]. unfold ipfs_retrieve. appends_step. apply Pr.
Qed.

(** What the handler of [getJobLogs] makes of a failure. *)
Lemma getJobLogs_failure jobAddress (error : JsError) (w : World) (res : Result JobLogs * World) :
  res = (if mentions_IPFS error then retrieveConfidentialResults jobAddress
         else do console_error "Get Logs Error:" (Some error) then
              throw (Error ("Get Logs Error: " +:+ message_text error))) w ->
  exists evs,
    trace (snd res) = trace w ++ evs
    /\ match fst res with
       | Ok r => logs_ipfsHash r = None /\ r <> results_not_posted
       | Throw e =>
           mentions_IPFS error = false
           /\ e = Error ("Get Logs Error: " +:+ message_text error)
           /\ Forall (fun ev => is_fetch ev = false) evs
       end.
Proof.
  intros G. destruct (mentions_IPFS error).
  - destruct (retrieveConfidentialResults_cases jobAddress w)
      as (r & evs & E & T & _ & _ & N1 & N2).
    subst res. exists evs. split; [exact T|]. rewrite E. split; assumption.
  - subst res. unfold bind, console_error, emit, throw. cbn.
    eexists [_]. split; [reflexivity|]. repeat split. repeat constructor.
Qed.

(** X16.  [getJobLogs] throws only a failure whose message does not mention
    "IPFS", as "Get Logs Error: " and that message, and then no request has
    been sent to any node. When it answers that the results are not posted
    yet, it has read nothing from the content store and sent no request; and
    when its answer carries an IPFS hash, the result comes from the content
    store: no request was sent. *)
Theorem getJobLogs_outcomes (jobAddress : string) (w : World) :
  exists evs,
    trace (snd (getJobLogs jobAddress w)) = trace w ++ evs
    /\ match fst (getJobLogs jobAddress w) with
       | Throw e =>
           (exists cause, mentions_IPFS cause = false
                          /\ e = Error ("Get Logs Error: " +:+ message_text cause))
           /\ Forall (fun ev => is_fetch ev = false) evs
       | Ok r =>
           (r = results_not_posted ->
            Forall (fun ev => is_store_access ev = false /\ is_fetch ev = false) evs)
           /\ (logs_ipfsHash r <> None -> Forall (fun ev => is_fetch ev = false) evs)
       end.
Proof.
  remember (getJobLogs jobAddress w) as whole eqn:G.
  unfold getJobLogs, try_catch in G.
  match type of G with
  | context [match ?b with pair _ _ => _ end] =>
      assert (Body : exists evs1,
                trace (snd b) = trace w ++ evs1
                /\ Forall (fun ev => is_fetch ev = false) evs1
                /\ match fst b with
                   | Ok r =>
                       (r = results_not_posted
                        /\ Forall (fun ev => is_store_access ev = false) evs1)
                       \/ (logs_ipfsHash r <> None /\ r <> results_not_posted)
                   | Throw _ => True
                   end);
      [ remember b as block eqn:B
      | destruct Body as (evs1 & T1 & F1 & C1); destruct b as [[r|cause] w1] ]
  end.
  { set (quiet := fun ev => is_store_access ev = false /\ is_fetch ev = false).
    assert (Weak : forall evs, Forall quiet evs -> Forall (fun ev => is_fetch ev = false) evs).
    { intros evs Q. eapply List.Forall_impl; [| exact Q]. intros ev [_ N]. exact N. }
    unfold bind at 1, address in B. rewrite ext_eq in B.
    assert (T1 := after_ext_trace (Address jobAddress) w).
    destruct (answer_to (Address jobAddress) w) as [addr|e].
    2: { subst block. eexists. split; [exact T1|]. split; [repeat constructor | exact I]. }
    set (w1 := after_ext (Address jobAddress) w) in *.
    unfold bind at 1, retry_default in B.
    destruct (retry_jobs_get_observed quiet addr 5 500 w1)
      as (evs2 & T2 & F2 & _); [split; reflexivity | split; reflexivity |].
    destruct (retry (jobs_get addr) 5 500 w1) as [[job|e] w2]; cbn [fst snd] in *.
    2: { subst block. exists (Ext (Address jobAddress) (Ok addr) :: evs2).
         split; [cbn [snd]; rewrite T2, T1, <- app_assoc; reflexivity|].
         split; [constructor; [reflexivity | apply Weak, F2] | exact I]. }
    destruct (negb (truthy (jstr_opt (job_ipfsResult job)))) eqn:Posted.
    { subst block. unfold ret. exists (Ext (Address jobAddress) (Ok addr) :: evs2).
      split; [cbn [snd]; rewrite T2, T1, <- app_assoc; reflexivity|].
      split; [constructor; [reflexivity | apply Weak, F2]|].
      left. split; [reflexivity|]. constructor; [reflexivity|].
      eapply List.Forall_impl; [| exact F2]. intros ev [Q _]. exact Q. }
    unfold bind in B.
    destruct (retry_ipfs_retrieve_appends (fun ev => is_fetch ev = false)
                (default "" (job_ipfsResult job)) 5 500
                ltac:(intros; reflexivity) ltac:(intros; reflexivity) w2)
      as (evs3 & T3 & F3).
    destruct (retry (ipfs_retrieve (default "" (job_ipfsResult job))) 5 500 w2)
      as [[result|e] w3]; cbn [fst snd] in *; subst block; unfold ret;
      exists (Ext (Address jobAddress) (Ok addr) :: evs2 ++ evs3);
      (split; [cbn [snd]; rewrite T3, T2, T1, <- !app_assoc; reflexivity|]);
      (split; [constructor; [reflexivity|]; apply Forall_app; split;
               [apply Weak, F2 | exact F3]|]); [| exact I].
    right. cbn [fst logs_ipfsHash].
    destruct (job_ipfsResult job); [| discriminate Posted].
    split; [discriminate | intros C; apply (f_equal logs_ipfsHash) in C; discriminate C]. }
  - (* the block returned *)
    subst whole. cbn [fst snd] in *. exists evs1. split; [exact T1|].
    destruct C1 as [[-> S1]|[N1 N2]].
    + split; [| intros _; exact F1].
      intros _. clear - S1 F1. induction S1 as [|ev evs S _ IH]; [constructor|].
      inversion F1; subst. constructor; auto.
    + split; [intros E; contradiction | intros _; exact F1].
  - (* the block threw *)
    cbn [fst snd] in *.
    destruct (getJobLogs_failure jobAddress cause w1 whole G) as (evs2 & T2 & C2).
    exists (evs1 ++ evs2). split; [rewrite T2, T1, app_assoc; reflexivity|].
    destruct (fst whole) as [r|e].
    + destruct C2 as [N1 N2]. split; [intros E; contradiction | intros E; contradiction].
    + destruct C2 as (M & -> & F2). split; [exists cause; auto|].
      apply Forall_app. split; assumption.
Qed.

End LogsFacts.

(** ** [getBalance]: the fallback *)

Section BalanceFacts.
Context `{Host}.

Lemma filter_none {A} (p : A -> bool) (l : list A) :
  Forall (fun x => p x = false) l -> List.filter p l = [].
Proof. induction 1 as [|x l E _ IH]; [reflexivity|]. simpl. rewrite E. exact IH. Qed.

Lemma apiRequest_no_credits_read t path method payload :
  appends (fun ev => is_credits_read ev = false) (apiRequest t path method payload).
Proof. unfold apiRequest, getApiAuthHeader. repeat appends_step; reflexivity. Qed.

(** X17.  In API mode [getBalance] asks the SDK for the balance only when the
    request to the credits endpoint has failed, and then once. When the SDK
    fails too, what is thrown is the failure of the request, not that of the
    SDK; when the SDK answers, the balance returned is that of "API_ACCOUNT",
    with sol = 0, without the three credit fields, and with the amount of the
    answer, or "0" when that amount is falsy. *)
Theorem getBalance_falls_back_to_sdk (w : World) :
  authMode (svc w) = ApiMode ->
  exists evs,
    trace (snd (getBalance w)) = trace w ++ evs
    /\ match fst (apiRequest BBalance "/credits/balance" "GET" None w) with
       | Ok _ =>
           Forall (fun ev => is_credits_read ev = false) evs
           /\ exists b, fst (getBalance w) = Ok b
       | Throw error =>
           length (List.filter is_credits_read evs) = 1%nat
           /\ match fst (getBalance w) with
              | Throw e => e = error
              | Ok b =>
                  exists balance amount,
                    In (Ext CreditsBalance (Ok balance)) evs
                    /\ prop "amount" balance = Ok amount
                    /\ b = {| sol := 0; nos := js_or amount (Some (JStr "0"));
                              bal_assignedCredits := None; bal_reservedCredits := None;
                              bal_settledCredits := None; bal_address := "API_ACCOUNT" |}
                    /\ truthy (nos b) = true
              end
       end.
Proof.
  intros A.
  remember (getBalance w) as whole eqn:G.
  unfold getBalance in G. unfold bind at 1, get_svc in G. rewrite A in G.
  unfold try_catch in G. unfold bind at 1 in G.
  destruct (apiRequest_no_credits_read BBalance "/credits/balance" "GET" None w)
    as (evs1 & T1 & F1).
  destruct (apiRequest BBalance "/credits/balance" "GET" None w) as [[balance|error] w1];
    cbn [fst snd] in *.
  - subst whole. unfold ret. cbn [fst snd]. exists evs1. split; [exact T1|].
    split; [exact F1 | eexists; reflexivity].
  - unfold bind at 1, console_error, emit in G. cbv beta iota in G.
    unfold bind at 1, credits_balance in G. rewrite ext_eq in G.
    match type of G with
    | context [answer_to CreditsBalance ?w0] =>
        set (w2 := w0) in *; assert (T2 := after_ext_trace CreditsBalance w2);
        destruct (answer_to CreditsBalance w2) as [balance|e]
    end.
    + unfold bind, lift, ret, throw in G.
      destruct (prop "amount" balance) as [amount|e] eqn:P;
        subst whole; cbn [fst snd] in *.
      * eexists (evs1 ++ [_; _]).
        split; [rewrite T2; subst w2; cbn [trace]; rewrite T1, <- !app_assoc; reflexivity|].
        split.
        { rewrite List.filter_app, List.length_app, (filter_none _ _ F1). reflexivity. }
        exists balance, amount. split; [apply in_or_app; right; right; left; reflexivity|].
        split; [exact P|]. split; [reflexivity|].
        cbn [nos]. unfold js_or. destruct (truthy amount) eqn:Tr; [exact Tr | reflexivity].
      * eexists (evs1 ++ [_; _]).
        split; [rewrite T2; subst w2; cbn [trace]; rewrite T1, <- !app_assoc; reflexivity|].
        split; [| reflexivity].
        rewrite List.filter_app, List.length_app, (filter_none _ _ F1). reflexivity.
    + unfold throw in G. subst whole; cbn [fst snd] in *. eexists (evs1 ++ [_; _]).
      split; [rewrite T2; subst w2; cbn [trace]; rewrite T1, <- !app_assoc; reflexivity|].
      split; [| reflexivity].
      rewrite List.filter_app, List.length_app, (filter_none _ _ F1). reflexivity.
Qed.

End BalanceFacts.

(** ** The watch loop: stops asked by the user, failed reads, running jobs *)

Section StopMark.
Context `{Host}.

Lemma markJobAsStopping_run jobAddress w :
  markJobAsStopping jobAddress w
  = (Ok tt,
     match watchedJobs (svc w) !! jobAddress with
     | Some jobInfo =>
         {| env := env w; trace := trace w;
            svc := with_watchedJobs
                     (<[jobAddress := set_userStopped true jobInfo]> (watchedJobs (svc w)))
                     (svc w) |}
     | None => w
     end).
Proof.
  unfold markJobAsStopping, bind, get_svc.
  destruct (watchedJobs (svc w) !! jobAddress); reflexivity.
Qed.

(** X18.  A stop asked by the user comes before the end of the job: once
    [markJobAsStopping] has run, the pass that observes a terminal state -
    whatever the runtime, the definition and the market of the entry - calls
    [launchJob] not at all, starts no watch and reports no failure: it sends
    the "terminated" heartbeat only; the entry is removed and the loop
    returns. *)
Theorem user_stop_prevents_redeploy
    (jobAddress orchestratorUrl : string) (lastState : option Z) (lastHeartbeat : Z)
    (w : World) (job : GetJobResult) (wj : World) (i : WatchedJobInfo) :
  observes_terminal jobAddress (snd (markJobAsStopping jobAddress w)) job wj i ->
  userStopped i = true
  /\ exists w' evs,
       watch_tick jobAddress orchestratorUrl lastState lastHeartbeat
                  (snd (markJobAsStopping jobAddress w)) = (Ok Returned, w')
       /\ trace w' = trace wj ++ evs
       /\ summary evs = [NHeartbeat (gone_payload jobAddress "terminated")]
       /\ watchedJobs (svc w') !! jobAddress = None.
Proof.
  intros O.
  assert (U : userStopped i = true).
  { destruct O as (G & L & _).
    assert (N := getJob_url_noted jobAddress (after_clock (snd (markJobAsStopping jobAddress w)))).
    rewrite G, after_clock_svc, markJobAsStopping_run in N. cbn [snd] in N.
    destruct (watchedJobs (svc w) !! jobAddress) as [i0|] eqn:L0; cbn [svc] in N.
    - destruct N as [E|(i1 & u & L1 & E)]; rewrite E in L; cbn in L.
      + rewrite lookup_insert_eq in L. injection L as <-. reflexivity.
      + cbn in L1. rewrite lookup_insert_eq in L, L1.
        injection L1 as <-. injection L as <-. reflexivity.
    - destruct N as [E|(i1 & u & L1 & E)]; [rewrite E in L | ]; congruence. }
  split; [exact U|].
  destruct (terminal_tick jobAddress orchestratorUrl lastState lastHeartbeat _ job wj i O)
    as (launched & w' & evs & E & T & S & Gone & _).
  exists w', evs. repeat split; try assumption.
  rewrite S. unfold decision_notes. rewrite U. reflexivity.
Qed.

End StopMark.

Section RunningPass.
Context `{Host}.

Lemma run_observed {A X} (P : Event -> Prop) (obs : Event -> option X) (m : M A) xs ys w :
  appends P m -> reports obs m xs ys ->
  exists evs,
    trace (snd (m w)) = trace w ++ evs /\ Forall P evs
    /\ omap obs evs = match fst (m w) with
                      | Ok _ => xs
                      | Throw _ => ys
                      end.
Proof.
  intros Ap Rp. destruct (Ap w) as (evs & T & F). destruct (Rp w) as (evs' & T' & O).
  rewrite T in T'. apply app_inv_head in T'. subst evs'. exists evs. auto.
Qed.

Lemma sendAuditLog_run action jobAddress details status w :
  exists w' evs,
    sendAuditLog action jobAddress details status w = (Ok tt, w')
    /\ trace w' = trace w ++ evs
    /\ summary evs = [] /\ audits evs = [action] /\ svc w' = svc w.
Proof.
  destruct (run_observed unremarkable audit_of _ [action] [action] w
              (sendAuditLog_unremarkable action jobAddress details status)
              (reports_sendAuditLog action jobAddress details status))
    as (evs & T & F & O).
  assert (E := sendAuditLog_total action jobAddress details status w).
  assert (S := sendAuditLog_svc action jobAddress details status w).
  destruct (sendAuditLog action jobAddress details status w) as [r w']. cbn [fst snd] in *.
  subst r. exists w', evs. split; [reflexivity|]. split; [exact T|].
  split; [apply summary_unremarkable, F|]. split; [exact O | exact S].
Qed.

Lemma extendJob_unremarkable jobAddress duration :
  appends unremarkable (extendJob jobAddress duration).
Proof.
  unfold extendJob, apiRequest, getApiAuthHeader.
  repeat first [ apply sendAuditLog_unremarkable | appends_step ]; reflexivity.
Qed.

Lemma extendJob_run jobAddress duration w :
  exists r w' evs,
    extendJob jobAddress duration w = (r, w')
    /\ trace w' = trace w ++ evs
    /\ summary evs = []
    /\ audits evs = match r with
                    | Ok _ => ["JOB_EXTENDED"]
                    | Throw _ => ["JOB_EXTEND_FAILED"]
                    end
    /\ svc w' = svc w.
Proof.
  destruct (run_observed unremarkable audit_of _ _ _ w
              (extendJob_unremarkable jobAddress duration)
              (extendJob_reports jobAddress duration))
    as (evs & T & F & O).
  assert (S := extendJob_keeps jobAddress duration w).
  destruct (extendJob jobAddress duration w) as [r w']. cbn [fst snd] in *.
  exists r, w', evs. split; [reflexivity|]. split; [exact T|].
  split; [apply summary_unremarkable, F|]. split; [exact O | symmetry; exact S].
Qed.

(** The auto-extend step: it never throws; nothing is done when no
    extension is due; an extension that goes well is noted in the entry, one
    that fails leaves the entry as it is; both are audited. *)
Lemma auto_extend_run jobAddress currentTime i w :
  exists i' w' evs,
    auto_extend jobAddress currentTime i w = (Ok i', w')
    /\ trace w' = trace w ++ evs
    /\ summary evs = []
    /\ ((extension_due currentTime i = true
         /\ i' = set_lastExtendTime currentTime i
         /\ svc w' = with_watchedJobs (<[jobAddress := i']> (watchedJobs (svc w))) (svc w)
         /\ audits evs = ["JOB_EXTENDED"; "JOB_AUTO_EXTENDED"])
        \/ (i' = i /\ svc w' = svc w
            /\ audits evs = if extension_due currentTime i
                            then ["JOB_EXTEND_FAILED"; "JOB_AUTO_EXTEND_FAILED"] else [])).
Proof.
  unfold auto_extend. fold (extension_due currentTime i).
  destruct (extension_due currentTime i).
  2:{ exists i, w, []. rewrite app_nil_r. split; [reflexivity|]. split; [reflexivity|].
      split; [reflexivity|]. right. auto. }
  unfold try_catch. unfold bind at 1.
  destruct (extendJob_run jobAddress EXTEND_DURATION_SECS w)
    as (r & w1 & evs1 & E1 & T1 & S1 & A1 & V1).
  rewrite E1. destruct r as [x|extendErr].
  - unfold bind at 1, modify_svc. cbv beta iota. unfold bind at 1.
    match goal with
    | |- context [sendAuditLog ?a ?j ?d ?s ?w0] =>
        destruct (sendAuditLog_run a j d s w0) as (w2 & evs2 & E2 & T2 & S2 & A2 & V2)
    end.
    unfold bind. rewrite E2. cbn [ret].
    eexists _, w2, (evs1 ++ evs2). split; [reflexivity|].
    split; [rewrite T2; cbn [trace]; rewrite T1, app_assoc; reflexivity|].
    split; [rewrite summary_app, S1, S2; reflexivity|].
    left. split; [reflexivity|]. split; [reflexivity|].
    split; [rewrite V2; cbn [svc]; rewrite V1; reflexivity|].
    unfold audits in *. rewrite omap_app, A1, A2. reflexivity.
  - unfold bind at 1, console_error, emit. cbv beta iota. unfold bind at 1.
    match goal with
    | |- context [sendAuditLog ?a ?j ?d ?s ?w0] =>
        destruct (sendAuditLog_run a j d s w0) as (w2 & evs2 & E2 & T2 & S2 & A2 & V2)
    end.
    unfold bind. rewrite E2. cbn [ret].
    eexists i, w2, (evs1 ++ _ :: evs2). split; [reflexivity|].
    split; [rewrite T2; cbn [trace]; rewrite T1, <- !app_assoc; reflexivity|].
    split; [rewrite summary_app, S1; cbn; exact S2|].
    right. split; [reflexivity|]. split; [rewrite V2; cbn [svc]; exact V1|].
    unfold audits in *. rewrite omap_app, A1. cbn. rewrite A2. reflexivity.
Qed.

(** The heartbeat step: it never throws and leaves the service as it is; a
    heartbeat is sent only when one is due, and it counts as sent when the
    request was answered, whatever the answer. *)
Lemma ready_heartbeat_run jobAddress orchestratorUrl currentTime lastHeartbeat i job w :
  exists hb w' evs,
    ready_heartbeat jobAddress orchestratorUrl currentTime lastHeartbeat i job w = (Ok hb, w')
    /\ trace w' = trace w ++ evs
    /\ audits evs = []
    /\ svc w' = svc w
    /\ if heartbeat_due currentTime lastHeartbeat
       then summary evs = [NHeartbeat (ready_payload jobAddress i job)]
            /\ exists r rest,
                 evs = Ext (Fetch BAny (heartbeat_request orchestratorUrl
                                          (ready_payload jobAddress i job))) r :: rest
                 /\ hb = match r with
                         | Ok _ => currentTime
                         | Throw _ => lastHeartbeat
                         end
       else evs = [] /\ hb = lastHeartbeat.
Proof.
  unfold ready_heartbeat. fold (heartbeat_due currentTime lastHeartbeat).
  destruct (heartbeat_due currentTime lastHeartbeat).
  2:{ exists lastHeartbeat, w, []. rewrite app_nil_r. repeat split; reflexivity. }
  fold (ready_payload jobAddress i job).
  unfold try_catch, bind at 1, fetch. rewrite ext_eq.
  set (req := heartbeat_request orchestratorUrl (ready_payload jobAddress i job)).
  assert (T := after_ext_trace (Fetch BAny req) w).
  assert (V := after_ext_svc (Fetch BAny req) w).
  destruct (answer_to _ w) as [response|err]; cbn.
  - eexists _, _, [_]. split; [reflexivity|]. split; [exact T|]. split; [reflexivity|].
    split; [exact V|]. split; [reflexivity|]. eexists _, []. split; reflexivity.
  - eexists _, _, [_; _]. split; [reflexivity|].
    split; [cbn; rewrite T, <- app_assoc; reflexivity|]. split; [reflexivity|].
    split; [exact V|]. split; [reflexivity|]. eexists _, [_]. split; reflexivity.
Qed.

Lemma running_not_terminated state : is_running state = true -> isTerminated state = false.
Proof.
  unfold isTerminated, is_running, JobState.COMPLETED, JobState.STOPPED, JobState.RUNNING.
  intros R. apply orb_true_iff in R. destruct R as [R|R]; apply Z.eqb_eq in R; subst; reflexivity.
Qed.

Lemma summary_without ev evs : In ev evs -> summary evs = [] -> notable ev = None.
Proof.
  induction evs as [|x evs IH]; intros I S; [destruct I|].
  unfold summary in S. cbn in S. destruct (notable x) eqn:N; [discriminate S|].
  destruct I as [<-|I]; [exact N | apply IH; assumption].
Qed.

(** X19.  A pass that finds the job running goes on watching: it returns the
    new state and leaves the entry in the registry. It audits the change of
    state, if there is one. It asks for an extension only when one is due: an
    extension that goes well is noted in the entry, with the time of the pass,
    one that fails leaves the entry as it is, and both are audited. It sends
    the "ready" heartbeat, with the resources of the entry and health 100,
    only when one is due; the heartbeat counts as sent whenever the request
    was answered. It launches nothing and starts no watch. *)
Theorem running_pass_extends_and_beats
    (jobAddress orchestratorUrl : string) (lastState : option Z) (lastHeartbeat : Z)
    (w : World) (job : GetJobResult) (wj : World) (i : WatchedJobInfo) :
  getJob jobAddress (after_clock w) = (Ok job, wj) ->
  watchedJobs (svc wj) !! jobAddress = Some i ->
  is_running (jobState job) = true ->
  exists hb w' evs extension,
    watch_tick jobAddress orchestratorUrl lastState lastHeartbeat w
    = (Ok (GoOn (Some (jobState job)) hb), w')
    /\ trace w' = trace wj ++ evs
    /\ audits evs
       = (if bool_decide (lastState = Some (jobState job)) then [] else ["JOB_STATE_CHANGED"])
         ++ extension
    /\ ((extension_due (clock_now w) i = true
         /\ extension = ["JOB_EXTENDED"; "JOB_AUTO_EXTENDED"]
         /\ svc w' = with_watchedJobs
                       (<[jobAddress := set_lastExtendTime (clock_now w) i]>
                          (watchedJobs (svc wj)))
                       (svc wj))
        \/ (extension = (if extension_due (clock_now w) i
                         then ["JOB_EXTEND_FAILED"; "JOB_AUTO_EXTEND_FAILED"] else [])
            /\ svc w' = svc wj))
    /\ summary evs = (if heartbeat_due (clock_now w) lastHeartbeat
                      then [NHeartbeat (ready_payload jobAddress i job)] else [])
    /\ (hb = lastHeartbeat
        \/ (heartbeat_due (clock_now w) lastHeartbeat = true /\ hb = clock_now w))
    /\ (forall response,
          In (Ext (Fetch BAny (heartbeat_request orchestratorUrl
                                 (ready_payload jobAddress i job))) (Ok response)) evs ->
          hb = clock_now w).
Proof.
  intros G L R.
  set (now := clock_now w).
  set (changed := negb (bool_decide (lastState = Some (jobState job)))).
  set (note_change :=
         if changed then
           do sendAuditLog "JOB_STATE_CHANGED" jobAddress
                (Some (obj [("old_state", Some (match lastState with
                                                | Some st => jnum st
                                                | None => JNull
                                                end));
                            ("new_state", Some (jnum (jobState job)))])) None then
           ret (Some (jobState job))
         else ret lastState).
  assert (Ch : exists wc evs0,
            note_change wj = (Ok (Some (jobState job)), wc) /\ trace wc = trace wj ++ evs0
            /\ summary evs0 = []
            /\ audits evs0 = (if bool_decide (lastState = Some (jobState job)) then []
                              else ["JOB_STATE_CHANGED"])
            /\ svc wc = svc wj).
  { subst note_change changed. destruct (bool_decide_reflect (lastState = Some (jobState job)))
      as [->|N]; cbn [negb].
    - exists wj, []. rewrite app_nil_r. auto.
    - match goal with
      | |- context [sendAuditLog ?a ?j ?d ?s] =>
          destruct (sendAuditLog_run a j d s wj) as (wc & evs0 & E0 & T0 & S0 & A0 & V0)
      end.
      exists wc, evs0. unfold bind. rewrite E0. auto. }
  destruct Ch as (wc & evs0 & Ec & Tc & Sc & Ac & Vc).
  destruct (auto_extend_run jobAddress now i wc) as (i' & we & evs1 & Ee & Te & Se & Ce).
  destruct (ready_heartbeat_run jobAddress orchestratorUrl now lastHeartbeat i' job we)
    as (hb & wh & evs2 & Eh & Th & Ah & Vh & Cbeat).
  assert (Same : ready_payload jobAddress i' job = ready_payload jobAddress i job).
  { destruct Ce as [(_ & -> & _)|(-> & _)]; reflexivity. }
  rewrite Same in Cbeat.
  exists hb, wh, (evs0 ++ evs1 ++ evs2).
  exists (audits evs1).
  split.
  { unfold watch_tick, try_catch, bind at 1. rewrite Date_now_eq.
    unfold bind at 1. rewrite G. unfold tick_with_job, bind at 1, get_svc. rewrite L.
    fold changed. fold note_change. unfold bind at 1. rewrite Ec.
    rewrite R. unfold bind at 1. unfold bind at 1. fold now. rewrite Ee.
    unfold bind at 1. rewrite Eh. cbn [ret]. rewrite (running_not_terminated _ R).
    reflexivity. }
  split; [rewrite Th, Te, Tc, <- !app_assoc; reflexivity|].
  split.
  { unfold audits in *. rewrite !omap_app, Ac, Ah, app_nil_r. reflexivity. }
  split.
  { destruct Ce as [(D & -> & V & A)|(-> & V & A)].
    - left. split; [exact D|]. split; [exact A|]. rewrite Vh, V, Vc. reflexivity.
    - right. split; [exact A|]. rewrite Vh, V, Vc. reflexivity. }
  split.
  { rewrite !summary_app, Sc, Se. cbn [app].
    destruct (heartbeat_due now lastHeartbeat); [apply Cbeat|].
    destruct Cbeat as [-> _]. reflexivity. }
  split.
  { destruct (heartbeat_due now lastHeartbeat).
    - destruct Cbeat as (_ & r & rest & _ & ->). destruct r; [right; auto | left; reflexivity].
    - left. apply Cbeat. }
  intros response I.
  apply in_app_or in I. destruct I as [I|I].
  { apply (summary_without _ _ I) in Sc. discriminate Sc. }
  apply in_app_or in I. destruct I as [I|I].
  { apply (summary_without _ _ I) in Se. discriminate Se. }
  destruct (heartbeat_due now lastHeartbeat).
  - destruct Cbeat as (S2 & r & rest & -> & ->).
    destruct I as [I|I].
    + apply (f_equal (fun ev =>
                        match ev with
                        | Ext c a =>
                            match c as c0 return RespTy c0 -> bool with
                            | Fetch _ _ => fun a0 => match a0 with
                                                     | Ok _ => true
                                                     | Throw _ => false
                                                     end
                            | _ => fun _ => false
                            end a
                        | _ => false
                        end)) in I.
      cbn in I. destruct r; [reflexivity | discriminate I].
    + exfalso. unfold summary in S2. cbn in S2. injection S2 as S2.
      apply (summary_without _ _ I) in S2. discriminate S2.
  - destruct Cbeat as [-> _]. destruct I.
Qed.

End RunningPass.

Section WatchLoop.
Context `{Host}.

Lemma getJob_throw_svc jobAddress w e wj :
  getJob jobAddress w = (Throw e, wj) -> svc wj = svc w.
Proof.
  unfold getJob, try_catch. unfold bind at 1, address. rewrite ext_eq.
  assert (S1 := after_ext_svc (Address jobAddress) w).
  destruct (answer_to (Address jobAddress) w) as [addr|e0].
  2:{ unfold throw. intros G. injection G as _ <-. exact S1. }
  set (w1 := after_ext (Address jobAddress) w) in *.
  unfold bind at 1.
  assert (S2 : svc (snd (retry_default (jobs_get addr) w1)) = svc w1).
  { symmetry. apply (keeps_retry eq). unfold jobs_get. apply (keeps_ext eq (JobsGet addr)). }
  destruct (retry_default (jobs_get addr) w1) as [[j|e0] w2]; cbn [fst snd] in *.
  2:{ unfold throw. intros G. injection G as _ <-. congruence. }
  unfold bind at 1, get_svc.
  match goal with |- context [if ?c then _ else _] => destruct c end.
  - unfold bind.
    destruct (resolve_service_url_never_throws jobAddress (default "" (job_ipfsJob j))
                (watchedJobs (svc w2) !! jobAddress) w2) as (url & E).
    destruct (resolve_service_url _ _ _ w2) as [r w3]. cbn [fst] in E. subst r.
    discriminate.
  - discriminate.
Qed.

(** X20.  A pass whose job read fails: the failure is logged and the watch
    goes on, after the 60 s wait, with the state and the heartbeat time it
    had; after the read nothing is done outside but that log, and the service
    is as it was. *)
Theorem failed_read_is_retried
    (passes : nat) (jobAddress orchestratorUrl : string) (lastState : option Z)
    (lastHeartbeat : Z) (w : World) (e : JsError) (wj : World) :
  getJob jobAddress (after_clock w) = (Throw e, wj) ->
  exists w',
    watch_tick jobAddress orchestratorUrl lastState lastHeartbeat w
    = (Ok (GoOn lastState lastHeartbeat), w')
    /\ trace w' = trace wj ++ [Console Err "[watchdog] Error loop" (Some e)]
    /\ svc w' = svc w
    /\ watch_loop (S passes) jobAddress orchestratorUrl lastState lastHeartbeat w
       = (do sleep 60000 then
          watch_loop passes jobAddress orchestratorUrl lastState lastHeartbeat) w'.
Proof.
  intros G.
  assert (E : watch_tick jobAddress orchestratorUrl lastState lastHeartbeat w
              = (Ok (GoOn lastState lastHeartbeat),
                 {| env := env wj;
                    trace := trace wj ++ [Console Err "[watchdog] Error loop" (Some e)];
                    svc := svc wj |})).
  { unfold watch_tick, try_catch, bind at 1. rewrite Date_now_eq.
    unfold bind at 1. rewrite G. reflexivity. }
  eexists. split; [exact E|]. split; [reflexivity|].
  split; [cbn [svc]; rewrite (getJob_throw_svc _ _ _ _ G); apply after_clock_svc|].
  cbn [watch_loop]. unfold bind at 1. rewrite E. reflexivity.
Qed.

(** What a pass makes of the answer of [getJob]: it never throws, and when
    it returns from the loop the entry of the address is gone. *)
Lemma tick_with_job_run jobAddress orchestratorUrl lastState lastHeartbeat currentTime job w :
  exists r w',
    tick_with_job jobAddress orchestratorUrl lastState lastHeartbeat currentTime job w
    = (Ok r, w')
    /\ (r = Returned -> watchedJobs (svc w') !! jobAddress = None).
Proof.
  unfold tick_with_job. unfold bind at 1, get_svc.
  destruct (watchedJobs (svc w) !! jobAddress) as [i|] eqn:L.
  2:{ exists Returned, w. split; [reflexivity | intros _; exact L]. }
  unfold bind at 1.
  assert (Ch : exists ls wc,
            (if negb (bool_decide (lastState = Some (jobState job)))
             then do sendAuditLog "JOB_STATE_CHANGED" jobAddress
                       (Some (obj [("old_state", Some (match lastState with
                                                       | Some st => jnum st
                                                       | None => JNull
                                                       end));
                                   ("new_state", Some (jnum (jobState job)))])) None then
                  ret (Some (jobState job))
             else ret lastState) w = (Ok ls, wc)).
  { destruct (negb _).
    - match goal with
      | |- context [sendAuditLog ?a ?j ?d ?s] =>
          destruct (sendAuditLog_run a j d s w) as (wc & evs0 & E0 & _)
      end.
      exists (Some (jobState job)), wc. unfold bind. rewrite E0. reflexivity.
    - exists lastState, w. reflexivity. }
  destruct Ch as (ls & wc & Ec). rewrite Ec.
  unfold bind at 1.
  assert (Run : exists i' hb wr,
            (if is_running (jobState job)
             then let* currentJobInfo' := auto_extend jobAddress currentTime i in
                  let* lastHeartbeat' :=
                    ready_heartbeat jobAddress orchestratorUrl currentTime lastHeartbeat
                                    currentJobInfo' job in
                  ret (currentJobInfo', lastHeartbeat')
             else ret (i, lastHeartbeat)) wc = (Ok (i', hb), wr)).
  { destruct (is_running (jobState job)).
    - destruct (auto_extend_run jobAddress currentTime i wc) as (i' & we & evs1 & Ee & _).
      destruct (ready_heartbeat_run jobAddress orchestratorUrl currentTime lastHeartbeat i' job we)
        as (hb & wh & evs2 & Eh & _).
      exists i', hb, wh. unfold bind at 1. rewrite Ee. unfold bind. rewrite Eh. reflexivity.
    - exists i, lastHeartbeat, wc. reflexivity. }
  destruct Run as (i' & hb & wr & Er). rewrite Er.
  destruct (isTerminated (jobState job)).
  - destruct (runs_on_terminated jobAddress orchestratorUrl currentTime (jobState job) i' wr)
      as (launched & w' & (Et & _) & Gone & _).
    exists Returned, w'. unfold bind. rewrite Et. split; [reflexivity | intros _; exact Gone].
  - eexists _, _. split; [reflexivity | discriminate].
Qed.

Lemma watch_tick_run jobAddress orchestratorUrl lastState lastHeartbeat w :
  exists r w',
    watch_tick jobAddress orchestratorUrl lastState lastHeartbeat w = (Ok r, w')
    /\ (r = Returned -> watchedJobs (svc w') !! jobAddress = None).
Proof.
  unfold watch_tick, try_catch, bind at 1. rewrite Date_now_eq.
  unfold bind at 1. destruct (getJob jobAddress (after_clock w)) as [[job|e] wj].
  - destruct (tick_with_job_run jobAddress orchestratorUrl lastState lastHeartbeat
                (clock_now w) job wj) as (r & w' & E & Gone).
    exists r, w'. rewrite E. auto.
  - eexists _, _. split; [reflexivity | discriminate].
Qed.

(** X21.  The watch never throws, however many passes it makes and whatever
    the host answers; and when its loop has returned, the registry holds no
    entry for the address. *)
Theorem watch_ends_without_the_entry
    (passes : nat) (jobAddress orchestratorUrl : string) (options : option WatchOptions)
    (w : World) :
  exists returned,
    fst (watchJob passes jobAddress orchestratorUrl options w) = Ok returned
    /\ (returned = true ->
        watchedJobs (svc (snd (watchJob passes jobAddress orchestratorUrl options w)))
          !! jobAddress = None).
Proof.
  assert (Loop : forall n lastState lastHeartbeat w0,
             exists returned w',
               watch_loop n jobAddress orchestratorUrl lastState lastHeartbeat w0
               = (Ok returned, w')
               /\ (returned = true -> watchedJobs (svc w') !! jobAddress = None)).
  { induction n as [|n IH]; intros lastState lastHeartbeat w0.
    - exists false, w0. split; [reflexivity | discriminate].
    - cbn [watch_loop]. unfold bind at 1.
      destruct (watch_tick_run jobAddress orchestratorUrl lastState lastHeartbeat w0)
        as (r & w1 & E & Gone).
      rewrite E. destruct r as [|ls hb].
      + exists true, w1. split; [reflexivity | intros _; apply Gone; reflexivity].
      + unfold bind, sleep, ext_ok, ext.
        destruct (respond (SetTimeout 60000) (env w1)) as [u e1]. apply IH. }
  unfold watchJob, bind.
  destruct (watchJob_start_run jobAddress orchestratorUrl options w) as (E & _).
  destruct (watchJob_start jobAddress orchestratorUrl options w) as [r w1].
  cbn [fst] in E. subst r.
  destruct (Loop passes None 0 w1) as (returned & w' & El & Gone).
  rewrite El. exists returned. split; [reflexivity | exact Gone].
Qed.

End WatchLoop.

(** ** [LogStreamer]: what holds after every history *)

Module LogStreamerInvariants.
Import LogStreamer LogStreamerTerms LogStreamerRules.

Section Invariants.
Variable JSON_parse : string -> Result json.
Variable js_toString : jsval -> string.

Abbreviation step := (LogStreamer.step JSON_parse js_toString).
Abbreviation run := (LogStreamer.run JSON_parse js_toString).

Lemma sound_create apiAuthProvider : sound (create apiAuthProvider).
Proof. unfold sound, create. simpl. repeat split; lia. Qed.

Lemma step_sound st i :
  sound st -> sound (fst (step st i)) /\ Forall (allowed i) (snd (step st i)).
Proof.
  intros (Mx & Dl & Rc & Ws).
  destruct i as [n j| |n j auth|d|e|n j c r|t c]; cbn [LogStreamer.step].
  - unfold connect, sound. cbn. repeat split; auto.
    repeat constructor; cbn; eauto 10.
  - unfold close, sound. cbn. repeat split; auto.
    destruct (ws st); repeat constructor.
  - unfold on_open, sound. destruct auth as [[a u]|e]; cbn; (repeat split; auto; try lia).
    + destruct (ws st); repeat constructor; cbn; eauto.
    + repeat constructor.
  - split; [repeat split; auto|]. unfold on_message. cbn [snd].
    destruct (JSON_parse d) as [m|]; [| repeat constructor; cbn; eauto].
    destruct (prop "path" (Some m)) as [p|]; [| repeat constructor; cbn; eauto].
    destruct (strict_eq_str p "log").
    + destruct (prop "data" (Some m)) as [x|]; [| repeat constructor; cbn; eauto].
      destruct (JSON_parse _); repeat constructor; cbn; eauto.
    + destruct (prop "error" (Some m)) as [x|]; [| repeat constructor; cbn; eauto].
      destruct (truthy x); repeat constructor.
  - unfold on_error, sound. cbn. repeat split; auto. repeat constructor.
  - unfold on_close, sound. rewrite Mx, Dl.
    destruct (shouldReconnect st); cbn [andb].
    + destruct (Nat.ltb_spec (retryCount st) 10); cbn; (repeat split; auto; try lia);
        repeat constructor; cbn; eauto.
    + cbn. repeat split; auto. repeat constructor; cbn; eauto.
  - unfold on_timer. destruct t as [n j|].
    + unfold connect, sound. cbn. repeat split; auto.
      repeat constructor; cbn; eauto 10.
    + destruct (ws st) eqn:W; [destruct c|]; cbn; (split; [repeat split; auto; rewrite ?W; auto|]);
        repeat constructor.
Qed.

(** X22.  After every history of events a streamer has counted at most 10
    retries, and in the whole history every handler has done only what the
    rules of [allowed] let it do: sockets are opened only by [connect] and to
    the node's address, reconnections are scheduled only by close events and 3
    s later, a socket is closed only by [close()]. *)
Theorem streamer_keeps_its_rules (apiAuthProvider : bool) (history : list Input) :
  (retryCount (fst (run (create apiAuthProvider) history)) <= 10)%nat
  /\ Forall (fun io => Forall (allowed (fst io)) (snd io))
            (snd (run (create apiAuthProvider) history)).
Proof.
  assert (Run : forall inputs st,
             sound st ->
             sound (fst (run st inputs))
             /\ Forall (fun io => Forall (allowed (fst io)) (snd io)) (snd (run st inputs))).
  { induction inputs as [|i rest IH]; intros st S; cbn [LogStreamer.run].
    - split; [exact S | constructor].
    - destruct (step_sound st i S) as [S1 A1].
      destruct (step st i) as [st1 out]. cbn [fst snd] in *.
      destruct (IH st1 S1) as [S2 A2].
      destruct (run st1 rest) as [st2 outs]. cbn [fst snd] in *.
      split; [exact S2 | constructor; assumption]. }
  destruct (Run history (create apiAuthProvider) (sound_create apiAuthProvider))
    as [(_ & _ & Rc & _) A].
  split; assumption.
Qed.

(** X23.  [close()] does not cancel a reconnection that is already scheduled:
    when its timer fires after [close()], a new socket is opened to the node
    all the same, and it becomes the current socket. The close event of that
    socket is not rescheduled: it emits 'close'. *)
Theorem close_leaves_a_scheduled_reconnection
    (apiAuthProvider : bool) (history : list Input) (nodeAddress jobAddress : string)
    (connecting : bool) :
  let st := fst (run (create apiAuthProvider) history) in
  let closed := fst (step st CallClose) in
  let late := step closed (TimerFires (Reconnect nodeAddress jobAddress) connecting) in
  ws closed = None
  /\ snd late = [NewSocket (sockets st) ("wss://" +:+ nodeAddress +:+ ".node.k8s.prd.nos.ci");
                 SetTimer 10000 ConnectTimeout]
  /\ ws (fst late) = Some (sockets st)
  /\ forall code reason,
       step (fst late) (OnClose nodeAddress jobAddress code reason)
       = (fst late, [Emit EmitClose]).
Proof.
  intros st closed late. subst closed late. generalize st. clear st. intros st.
  split; [reflexivity|]. split; [reflexivity|]. split; [reflexivity|].
  intros code reason. reflexivity.
Qed.

End Invariants.

End LogStreamerInvariants.

(** ** The constructor, [init] and [getLogStreamer] *)

Section Startup.
Context {H : Host} {HS : HostSdk H}.

Lemma getLogStreamer_eq w :
  fst (getLogStreamer w)
  = match authMode (svc w) with
    | ApiMode => Ok (LogStreamer.create true)
    | WalletMode =>
        match wallet (svc w) with
        | Some _ => Ok (LogStreamer.create false)
        | None => Throw (Error "Wallet not initialized")
        end
    end.
Proof.
  unfold getLogStreamer, bind, get_svc, ret, throw.
  destruct (authMode (svc w)); [destruct (wallet (svc w))|]; reflexivity.
Qed.

(** X24.  A service as the constructor leaves it gives a log streamer at once
    in API mode (an API key was given), and in wallet mode only after [init]
    has made the wallet from a private key: without a key [init] returns and
    does nothing, and when the wallet cannot be made [init] logs the failure
    and throws it; [getLogStreamer] then throws "Wallet not initialized". *)
Theorem streamer_needs_key_or_wallet
    (options_privateKey options_apiKey : option string) (w : World) :
  svc w = new_service options_privateKey options_apiKey ->
  fst (getLogStreamer w)
  = (if truthy (jstr_opt options_apiKey) then Ok (LogStreamer.create true)
     else Throw (Error "Wallet not initialized"))
  /\ match fst (init w) with
     | Ok _ =>
         fst (getLogStreamer (snd (init w)))
         = (if truthy (jstr_opt options_apiKey) then Ok (LogStreamer.create true)
            else if truthy (jstr_opt options_privateKey) then Ok (LogStreamer.create false)
            else Throw (Error "Wallet not initialized"))
         /\ trace (snd (init w)) = trace w
     | Throw e =>
         truthy (jstr_opt options_apiKey) = false /\ truthy (jstr_opt options_privateKey) = true
         /\ fst (getLogStreamer (snd (init w))) = Throw (Error "Wallet not initialized")
         /\ trace (snd (init w))
            = trace w ++ [Console Err "Failed to initialize Nosana wallet:" (Some e)]
     end.
Proof.
  intros S. rewrite !getLogStreamer_eq.
  split.
  { rewrite S. cbn. destruct (truthy (jstr_opt options_apiKey)); reflexivity. }
  destruct (init w) as [r wi] eqn:G. cbn [fst snd].
  unfold init in G. unfold bind at 1, get_svc in G. rewrite S in G.
  cbn [authMode new_service privateKey] in G.
  destruct (truthy (jstr_opt options_apiKey)) eqn:A.
  { unfold ret in G. injection G as <- <-. rewrite S. cbn. rewrite A. auto. }
  destruct (truthy (jstr_opt options_privateKey)) eqn:K.
  2:{ unfold ret in G. injection G as <- <-. rewrite S. cbn. rewrite A. auto. }
  unfold try_catch, bind at 1, signer_of_key, host_call in G.
  destruct (sdk_signer_of_key (default "" options_privateKey) (env w)) as [[signer|e] e1].
  - unfold modify_svc in G. injection G as <- <-. cbn. rewrite S. cbn. rewrite A. auto.
  - unfold bind, console_error, emit, throw in G. injection G as <- <-.
    cbn. rewrite S. cbn. rewrite A. auto.
Qed.

End Startup.

(** ** The dummy definition, again *)

Lemma js_or_truthy (v : jsval) (x y : json) :
  truthy (Some x) = true -> js_or v (Some x) = Some y -> truthy (Some y) = true.
Proof.
  unfold js_or. intros Tx E. destruct (truthy v) eqn:Tv; [rewrite E in Tv; exact Tv|].
  injection E as <-. exact Tx.
Qed.

Lemma shown_entry_again (k : string) (d p : json) (l : gmap string json) :
  field "logistics" p = Some (JObj l) -> l !! k = Some (shown_entry k d) ->
  shown_entry k p = shown_entry k d.
Proof.
  intros Fl Lk. unfold shown_entry at 1, logistics_entry. rewrite Fl. cbn [truthy prop].
  rewrite Lk. unfold shown_entry.
  destruct (is_api_entry (logistics_entry k d)) eqn:A.
  - destruct (logistics_entry k d) as [x|]; [| discriminate A].
    cbn [default]. cbv beta iota. unfold id. rewrite A. reflexivity.
  - reflexivity.
Qed.

(** X25.  The dummy definition is made for every definition but [null], and it
    is its own dummy definition: making it from a definition that was already
    stripped changes nothing. *)
Theorem dummy_definition_is_idempotent (jobDefinition : json) :
  match dummy_definition jobDefinition with
  | Ok p => dummy_definition p = Ok p
  | Throw _ => jobDefinition = JNull
  end.
Proof.
  destruct (dummy_definition jobDefinition) as [p|e] eqn:D.
  2:{ unfold dummy_definition in D. destruct jobDefinition; cbn in D; try discriminate D.
      reflexivity. }
  destruct (dummy_definition_fields _ _ D) as (version & type & Hv & Ht & E).
  assert (Tv : truthy (Some version) = true)
    by (apply (js_or_truthy _ _ _ (eq_refl : truthy (Some (JStr "0.1")) = true) Hv)).
  assert (Tt : truthy (Some type) = true)
    by (apply (js_or_truthy _ _ _ (eq_refl : truthy (Some (JStr "container")) = true) Ht)).
  set (meta := <["trigger" := JStr "cli"]> (spread (field "meta" jobDefinition))) in *.
  set (logistics := <["send" := shown_entry "send" jobDefinition]>
                      (<["receive" := shown_entry "receive" jobDefinition]> ∅)) in *.
  assert (Fv : field "version" p = Some version) by (subst p; reflexivity).
  assert (Ft : field "type" p = Some type) by (subst p; reflexivity).
  assert (Fm : field "meta" p = Some (JObj meta)) by (subst p; reflexivity).
  assert (Fl : field "logistics" p = Some (JObj logistics)) by (subst p; reflexivity).
  destruct (dummy_definition p) as [p'|e] eqn:D'.
  2:{ unfold dummy_definition in D'. subst p. cbn [prop] in D'.
      repeat match type of D' with
             | context [match ?x with _ => _ end] => destruct x
             end; discriminate D'. }
  destruct (dummy_definition_fields _ _ D') as (version' & type' & Hv' & Ht' & E').
  rewrite Fv in Hv'. rewrite Ft in Ht'. unfold js_or in Hv', Ht'. rewrite Tv in Hv'.
  rewrite Tt in Ht'. injection Hv' as <-. injection Ht' as <-.
  rewrite Fm in E'. cbn [spread] in E'.
  rewrite (shown_entry_again "send" jobDefinition p logistics Fl eq_refl) in E'.
  rewrite (shown_entry_again "receive" jobDefinition p logistics Fl eq_refl) in E'.
  fold logistics in E'. subst meta. rewrite insert_insert_eq in E'.
  rewrite E', E. reflexivity.
Qed.

(** ** The other properties in the scripted host *)


Lemma recovery_in_wallet_mode_witness :
  let w := owner_world in
  let entries := fun m : gmap string WatchedJobInfo => (map_to_list m).*1 in
  exists evs,
    trace (snd (recoverJobs (HS := scripted_sdk) entries w)) = trace w ++ evs
    /\ fst (recoverJobs (HS := scripted_sdk) entries w) = Ok tt
    /\ registry_recovered (watchedJobs (svc w))
         (watchedJobs (svc (snd (recoverJobs (HS := scripted_sdk) entries w))))
    /\ NoDup (omap watch_of evs).
Proof.
  intros w entries.
  destruct (recovery_in_wallet_mode (H := Scripted.host) (HS := scripted_sdk) entries w)
    as (evs & T & E & _ & R & _ & N & _).
  - reflexivity.
  - exists evs. split; [exact T|]. split; [exact E|]. split; [exact R | exact N].
Defined.

Lemma getBalance_falls_back_to_sdk_witness :
  let w := failing_api_world in
  exists evs,
    trace (snd (getBalance w)) = trace w ++ evs
    /\ match fst (apiRequest BBalance "/credits/balance" "GET" None w) with
       | Ok _ =>
           Forall (fun ev => is_credits_read ev = false) evs
           /\ exists b, fst (getBalance w) = Ok b
       | Throw error =>
           length (List.filter is_credits_read evs) = 1%nat
           /\ match fst (getBalance w) with
              | Throw e => e = error
              | Ok b =>
                  exists balance amount,
                    In (Ext CreditsBalance (Ok balance)) evs
                    /\ prop "amount" balance = Ok amount
                    /\ b = {| sol := 0; nos := js_or amount (Some (JStr "0"));
                              bal_assignedCredits := None; bal_reservedCredits := None;
                              bal_settledCredits := None; bal_address := "API_ACCOUNT" |}
                    /\ truthy (nos b) = true
              end
       end.
Proof.
  intros w. apply (getBalance_falls_back_to_sdk (H := Scripted.host) w). reflexivity.
Defined.

(** In that world the request is answered 500 and the SDK gives no amount:
    the failure thrown is that of the request. *)
Example failed_balance_keeps_the_first_failure :
  fst (getBalance failing_api_world) = Throw (Error "Nosana API Error (500): body").
Proof. vm_compute. reflexivity. Qed.

Lemma user_stop_prevents_redeploy_witness :
  let w := watching twenty_five_minutes (Ok "QmDummy") in
  let stopped := snd (markJobAsStopping "JOB1" w) in
  exists w' evs,
    watch_tick "JOB1" "http://orchestrator" (Some JobState.RUNNING) 0 stopped
    = (Ok Returned, w')
    /\ trace w' = trace (after_getJob stopped) ++ evs
    /\ summary evs = [NHeartbeat (gone_payload "JOB1" "terminated")]
    /\ watchedJobs (svc w') !! "JOB1" = None.
Proof.
  intros w stopped.
  apply (user_stop_prevents_redeploy (H := Scripted.host) "JOB1" "http://orchestrator"
           (Some JobState.RUNNING) 0 w seen_job (after_getJob stopped)
           (set_userStopped true watched_entry)).
  split; [| split]; reflexivity.
Defined.

Lemma running_pass_extends_and_beats_witness :
  let w := watching_running twenty_seven_minutes in
  exists hb w' evs,
    watch_tick "JOB1" "http://orchestrator" (Some JobState.RUNNING) 0 w
    = (Ok (GoOn (Some JobState.RUNNING) hb), w')
    /\ trace w' = trace (snd (getJob "JOB1" (after_clock w))) ++ evs
    /\ summary evs = [NHeartbeat (ready_payload "JOB1" watched_entry seen_running)].
Proof.
  intros w.
  destruct (running_pass_extends_and_beats (H := Scripted.host) "JOB1" "http://orchestrator"
              (Some JobState.RUNNING) 0 w seen_running (snd (getJob "JOB1" (after_clock w)))
              watched_entry)
    as (hb & w' & evs & extension & E & T & _ & _ & S & _).
  - reflexivity.
  - reflexivity.
  - reflexivity.
  - exists hb, w', evs. split; [exact E|]. split; [exact T | exact S].
Defined.

(** The same pass in full: the extension is due after 27 minutes, it goes
    well and is noted in the entry; the heartbeat is sent. *)
Example running_pass_in_full :
  let w := watching_running twenty_seven_minutes in
  let w' := snd (watch_tick "JOB1" "http://orchestrator" (Some JobState.RUNNING) 0 w) in
  audits (trace w') = ["JOB_EXTENDED"; "JOB_AUTO_EXTENDED"]
  /\ summary (trace w') = [NHeartbeat (ready_payload "JOB1" watched_entry seen_running)]
  /\ watchedJobs (svc w') !! "JOB1"
     = Some (set_lastExtendTime twenty_seven_minutes watched_entry).
Proof. vm_compute. repeat split; reflexivity. Qed.

Lemma failed_read_is_retried_witness :
  let w := watching_unreadable in
  exists w',
    watch_tick "JOB1" "http://orchestrator" None 0 w = (Ok (GoOn None 0), w')
    /\ svc w' = svc w
    /\ watch_loop 3 "JOB1" "http://orchestrator" None 0 w
       = (do sleep 60000 then watch_loop 2 "JOB1" "http://orchestrator" None 0) w'.
Proof.
  intros w.
  destruct (failed_read_is_retried (H := Scripted.host) 2 "JOB1" "http://orchestrator" None 0 w
              (Error "Get Job Error: connection refused")
              (snd (getJob "JOB1" (after_clock w))))
    as (w' & E & _ & S & L).
  - reflexivity.
  - exists w'. split; [exact E|]. split; [exact S | exact L].
Defined.

Lemma streamer_needs_key_or_wallet_witness :
  let w := Scripted.world (Scripted.script 0 (Ok (Scripted.a_job 1))) Scripted.wallet_service in
  fst (getLogStreamer w) = Throw (Error "Wallet not initialized")
  /\ fst (getLogStreamer (snd (init (HS := scripted_sdk) w))) = Ok (LogStreamer.create false).
Proof.
  intros w.
  destruct (streamer_needs_key_or_wallet (H := Scripted.host) (HS := scripted_sdk)
              (Some "PRIVATE") None w) as [Before After].
  - reflexivity.
  - split; [exact Before|]. exact (proj1 After).
Defined.
